(** * The chat-agent edge function: tool-calling loop and request handler

    A shallow embedding of [supabase/functions/chat-agent/index.ts].
    The function talks to three outside services (the completion
    provider, the search provider and the conversation store); they are
    kept abstract as transitions on an arbitrary world state, and every
    call made to them is recorded in an event trace.  The code itself
    ([webSearch], [executeTool], [callOpenAI], [runAgent] and the
    [Deno.serve] handler) is written in a small exception-and-trace
    monad that follows the source statement by statement. *)

From Stdlib Require Import String Ascii List Arith Bool Lia DecimalString.
From Stdlib Require Import Sorted Permutation.
Import ListNotations.
Local Open Scope list_scope.
Local Open Scope string_scope.
Set Warnings "-register-all".

(* ================================================================== *)
(** ** Values of the JavaScript runtime *)

Module JS.

(** What [JSON.parse] returns.  Numbers keep their lexeme: the
    program never computes with them. *)
Inductive json : Type :=
| JNull
| JBool (b : bool)
| JNumber (lexeme : string)
| JString (s : string)
| JArray (items : list json)
| JObject (members : list (string * json)).

(** Thrown values.  [PostgrestError] is the error object of the store
    client, which the handler rethrows as it is. *)
Inductive Exn : Type :=
| Error (message : string)
| SyntaxError (message : string)
| TypeError (message : string)
| PostgrestError (message : string).

(** [error.message] *)
Definition message_of (e : Exn) : string :=
  match e with
  | Error m | SyntaxError m | TypeError m | PostgrestError m => m
  end.

(** Truthiness of a value typed [string | undefined | null]. *)
Definition truthy (v : option string) : bool :=
  match v with
  | None => false
  | Some s => negb (s =? "")
  end.

(** [v || dflt] on such a value. *)
Definition or_else (v : option string) (dflt : string) : string :=
  match v with
  | Some s => if s =? "" then dflt else s
  | None => dflt
  end.

(** [v || null] on such a value. *)
Definition or_null (v : option string) : option string :=
  if truthy v then v else None.

(** Template-literal rendering of a non-negative integer. *)
Definition show_nat (n : nat) : string :=
  NilEmpty.string_of_uint (Nat.to_uint n).

Definition newline : string := String (ascii_of_nat 10) "".

(** Own-property lookup in a parsed object: the last member with the
    key wins, as [JSON.parse] builds it. *)
Fixpoint lookup_member (key : string) (members : list (string * json))
  : option json :=
  match members with
  | [] => None
  | (k, v) :: rest =>
      match lookup_member key rest with
      | Some later => Some later
      | None => if k =? key then Some v else None
      end
  end.

(** [value.key] for a key that no prototype defines: [undefined]
    ([None]) on anything but an object that has it, and a [TypeError]
    on [null]. *)
Definition get_property (value : json) (key : string) : Exn + option json :=
  match value with
  | JNull =>
      inl (TypeError ("Cannot read properties of null (reading '" ++ key ++ "')"))
  | JObject members => inr (lookup_member key members)
  | _ => inr None
  end.

(** [Array.prototype.map] with the index passed to the callback. *)
Fixpoint mapi_from {A B : Type} (i : nat) (f : A -> nat -> B) (l : list A)
  : list B :=
  match l with
  | [] => []
  | x :: rest => f x i :: mapi_from (S i) f rest
  end.

Definition mapi {A B : Type} (f : A -> nat -> B) (l : list A) : list B :=
  mapi_from 0 f l.

(** [Array.prototype.pop] as an expression: the last element. *)
Fixpoint pop {A : Type} (l : list A) : option A :=
  match l with
  | [] => None
  | [x] => Some x
  | _ :: rest => pop rest
  end.

End JS.

(* ================================================================== *)
(** ** A JSON reader

    An executable instance of [JSON.parse] over byte strings, used to
    run the model on concrete tool-call arguments.  The agent itself
    takes the parser as a parameter of the runtime.  Texts are byte
    strings: a [\u] escape is kept as the UTF-8 bytes of its code unit
    (each half of a surrogate pair on its own), and the message of a
    [SyntaxError] is one of two fixed texts. *)

Module JSON.
Import JS.
Local Open Scope nat_scope.
Local Open Scope list_scope.

Definition is_ws (c : ascii) : bool :=
  let n := nat_of_ascii c in
  Nat.eqb n 32 || Nat.eqb n 9 || Nat.eqb n 10 || Nat.eqb n 13.

Fixpoint skip_ws (cs : list ascii) : list ascii :=
  match cs with
  | c :: rest => if is_ws c then skip_ws rest else cs
  | [] => []
  end.

Definition is_digit (c : ascii) : bool :=
  let n := nat_of_ascii c in (48 <=? n) && (n <=? 57).

Definition hex_value (c : ascii) : option nat :=
  let n := nat_of_ascii c in
  if (48 <=? n) && (n <=? 57) then Some (n - 48)
  else if (65 <=? n) && (n <=? 70) then Some (n - 55)
  else if (97 <=? n) && (n <=? 102) then Some (n - 87)
  else None.

Fixpoint expect (word cs : list ascii) : option (list ascii) :=
  match word, cs with
  | [], _ => Some cs
  | w :: word', c :: cs' => if Ascii.eqb w c then expect word' cs' else None
  | _ :: _, [] => None
  end.

Fixpoint take_digits (cs : list ascii) : list ascii * list ascii :=
  match cs with
  | c :: rest =>
      if is_digit c
      then let '(ds, rest') := take_digits rest in (c :: ds, rest')
      else ([], cs)
  | [] => ([], [])
  end.

(** int: [0] or a non-empty digit run without a leading zero. *)
Definition read_int (cs : list ascii) : option (list ascii * list ascii) :=
  match cs with
  | "0"%char :: rest => Some (["0"%char], rest)
  | _ =>
      match take_digits cs with
      | ([], _) => None
      | r => Some r
      end
  end.

Definition read_frac (cs : list ascii) : option (list ascii * list ascii) :=
  match cs with
  | "."%char :: rest =>
      match take_digits rest with
      | ([], _) => None
      | (ds, rest') => Some ("."%char :: ds, rest')
      end
  | _ => Some ([], cs)
  end.

Definition read_exp (cs : list ascii) : option (list ascii * list ascii) :=
  match cs with
  | e :: rest =>
      if Ascii.eqb e "e" || Ascii.eqb e "E" then
        let '(sign, rest1) :=
          match rest with
          | s :: rest' =>
              if Ascii.eqb s "+" || Ascii.eqb s "-" then ([s], rest')
              else ([], rest)
          | [] => ([], rest)
          end in
        match take_digits rest1 with
        | ([], _) => None
        | (ds, rest2) => Some (e :: sign ++ ds, rest2)
        end
      else Some ([], cs)
  | [] => Some ([], [])
  end.

Definition read_number (cs : list ascii) : option (json * list ascii) :=
  let '(minus, cs1) :=
    match cs with
    | "-"%char :: rest => (["-"%char], rest)
    | _ => ([], cs)
    end in
  match read_int cs1 with
  | None => None
  | Some (int, cs2) =>
      match read_frac cs2 with
      | None => None
      | Some (frac, cs3) =>
          match read_exp cs3 with
          | None => None
          | Some (exp, cs4) =>
              Some (JNumber (string_of_list_ascii (minus ++ int ++ frac ++ exp)), cs4)
          end
      end
  end.

(** UTF-8 bytes of a code unit written as a [\u] escape. *)
Definition encode_unit (u : nat) : list ascii :=
  if u <? 128 then [ascii_of_nat u]
  else if u <? 2048 then
    [ascii_of_nat (192 + u / 64); ascii_of_nat (128 + u mod 64)]
  else
    [ascii_of_nat (224 + u / 4096);
     ascii_of_nat (128 + (u / 64) mod 64);
     ascii_of_nat (128 + u mod 64)].

Definition read_escape (cs : list ascii) : option (list ascii * list ascii) :=
  match cs with
  | c :: rest =>
      match nat_of_ascii c with
      | 34 | 92 | 47 => Some ([c], rest)
      | 98 => Some ([ascii_of_nat 8], rest)
      | 102 => Some ([ascii_of_nat 12], rest)
      | 110 => Some ([ascii_of_nat 10], rest)
      | 114 => Some ([ascii_of_nat 13], rest)
      | 116 => Some ([ascii_of_nat 9], rest)
      | 117 =>
          match rest with
          | a :: b :: c' :: d :: rest' =>
              match hex_value a, hex_value b, hex_value c', hex_value d with
              | Some x3, Some x2, Some x1, Some x0 =>
                  Some (encode_unit (x3 * 4096 + x2 * 256 + x1 * 16 + x0), rest')
              | _, _, _, _ => None
              end
          | _ => None
          end
      | _ => None
      end
  | [] => None
  end.

(** The characters of a string after its opening quote. *)
Fixpoint read_chars (fuel : nat) (cs : list ascii)
  : option (list ascii * list ascii) :=
  match fuel with
  | 0 => None
  | S fuel' =>
      match cs with
      | [] => None
      | c :: rest =>
          if nat_of_ascii c =? 34 then Some ([], rest)
          else if nat_of_ascii c =? 92 then
            match read_escape rest with
            | None => None
            | Some (bytes, rest1) =>
                match read_chars fuel' rest1 with
                | None => None
                | Some (s, rest2) => Some (bytes ++ s, rest2)
                end
            end
          else if nat_of_ascii c <? 32 then None
          else
            match read_chars fuel' rest with
            | None => None
            | Some (s, rest1) => Some (c :: s, rest1)
            end
      end
  end.

Definition read_string (cs : list ascii) : option (string * list ascii) :=
  match read_chars (S (length cs)) cs with
  | Some (s, rest) => Some (string_of_list_ascii s, rest)
  | None => None
  end.

(** Values, array elements and object members; [fuel] bounds the
    number of nested calls, two per character at most. *)
Fixpoint read_value (fuel : nat) (cs : list ascii) {struct fuel}
  : option (json * list ascii) :=
  match fuel with
  | 0 => None
  | S fuel' =>
      match cs with
      | [] => None
      | c :: rest =>
          match nat_of_ascii c with
          | 110 =>
              option_map (pair JNull) (expect (list_ascii_of_string "ull") rest)
          | 116 =>
              option_map (pair (JBool true)) (expect (list_ascii_of_string "rue") rest)
          | 102 =>
              option_map (pair (JBool false)) (expect (list_ascii_of_string "alse") rest)
          | 34 =>
              match read_string rest with
              | Some (s, rest1) => Some (JString s, rest1)
              | None => None
              end
          | 91 =>
              match skip_ws rest with
              | "]"%char :: rest1 => Some (JArray [], rest1)
              | rest1 =>
                  match read_elements fuel' rest1 with
                  | Some (items, rest2) => Some (JArray items, rest2)
                  | None => None
                  end
              end
          | 123 =>
              match skip_ws rest with
              | "}"%char :: rest1 => Some (JObject [], rest1)
              | rest1 =>
                  match read_members fuel' rest1 with
                  | Some (members, rest2) => Some (JObject members, rest2)
                  | None => None
                  end
              end
          | _ => read_number cs
          end
      end
  end

with read_elements (fuel : nat) (cs : list ascii) {struct fuel}
  : option (list json * list ascii) :=
  match fuel with
  | 0 => None
  | S fuel' =>
      match read_value fuel' (skip_ws cs) with
      | None => None
      | Some (v, rest) =>
          match skip_ws rest with
          | "]"%char :: rest1 => Some ([v], rest1)
          | ","%char :: rest1 =>
              match read_elements fuel' rest1 with
              | Some (vs, rest2) => Some (v :: vs, rest2)
              | None => None
              end
          | _ => None
          end
      end
  end

with read_members (fuel : nat) (cs : list ascii) {struct fuel}
  : option (list (string * json) * list ascii) :=
  match fuel with
  | 0 => None
  | S fuel' =>
      match skip_ws cs with
      | quote :: rest =>
          if negb (nat_of_ascii quote =? 34) then None else
          match read_string rest with
          | None => None
          | Some (key, rest1) =>
              match skip_ws rest1 with
              | ":"%char :: rest2 =>
                  match read_value fuel' (skip_ws rest2) with
                  | None => None
                  | Some (v, rest3) =>
                      match skip_ws rest3 with
                      | "}"%char :: rest4 => Some ([(key, v)], rest4)
                      | ","%char :: rest4 =>
                          match read_members fuel' rest4 with
                          | Some (ms, rest5) => Some ((key, v) :: ms, rest5)
                          | None => None
                          end
                      | _ => None
                      end
                  end
              | _ => None
              end
          end
      | _ => None
      end
  end.

(** [JSON.parse(text)]: one value between optional white space;
    anything else is a [SyntaxError], whose message is [inl]. *)
Definition parse (text : string) : string + json :=
  let cs := list_ascii_of_string text in
  match read_value (2 * length cs + 2) (skip_ws cs) with
  | Some (v, rest) =>
      match skip_ws rest with
      | [] => inr v
      | _ :: _ => inl "Unexpected non-whitespace character after JSON"
      end
  | None => inl "Unexpected token or end of JSON input"
  end.

End JSON.

(** The double quote, for texts that hold one. *)
Definition dq : string := String (ascii_of_nat 34) "".

(* ================================================================== *)
(** ** The agent *)

Module Agent.
Import JS.
Local Open Scope string_scope.

(** *** Data model (the interfaces of index.ts) *)

Inductive Role : Type := user | assistant | system | tool.

Definition Role_eqb (a b : Role) : bool :=
  match a, b with
  | user, user | assistant, assistant | system, system | tool, tool => true
  | _, _ => false
  end.

Record FunctionCall : Type :=
  { name : string; arguments : string }.

(** [type] is always ["function"] and is left out. *)
Record ToolCall : Type :=
  { id : string; function : FunctionCall }.

(** Optional fields are [None] when absent (or [null] in a stored row). *)
Record Message : Type :=
  { role : Role;
    content : string;
    tool_calls : option (list ToolCall);
    tool_call_id : option string }.

(** *** Requests and replies at the service boundaries *)

Module OpenAI.
(** The body posted to the completion endpoint, with the bearer
    token of the header.  [tools] is absent when [includeTools] is
    false. *)
Record Request : Type :=
  { authorization : string;
    model : string;
    messages : list Message;
    tools : option (list json);
    max_tokens : nat }.

(** What one exchange comes to: [fetch], [response.json()] or the
    access to [data.choices[0]] throws; the response is not [ok];
    or the first choice is read. *)
Inductive Reply : Type :=
| Throws (e : Exn)
| NotOk (status : nat) (text : string)
| Choice (content : option string)
         (tool_calls : option (list ToolCall))
         (finish_reason : string).
End OpenAI.

Module Tavily.
(** [score] keeps the lexeme of the number. *)
Record SearchResult : Type :=
  { title : string; url : string; content : string; score : string }.

Record Request : Type :=
  { api_key : string;
    query : option json;
    search_depth : string;
    max_results : nat }.

(** What one exchange comes to: something in the [try] block throws
    ([fetch], [response.json()] or the reading of the results); the
    response is not [ok]; or the results are read, [None] when
    [data.results] is missing. *)
Inductive Reply : Type :=
| Throws (e : Exn)
| NotOk (status : nat)
| Data (results : option (list SearchResult)).
End Tavily.

(** A row of the [messages] table as the handler inserts it. *)
Record Row : Type :=
  { conversation_id : string;
    row_role : Role;
    row_content : string;
    row_tool_calls : option (list ToolCall);
    row_tool_call_id : option string }.

(** Every exchange with the outside, in the order it is made, with
    what the outside answered; [EvExecuteTool] marks the entry of
    [executeTool] and [EvConsoleError] the call of [console.error]. *)
Inductive Event : Type :=
| EvCompletion (request : OpenAI.Request) (reply : OpenAI.Reply)
| EvSearch (request : Tavily.Request) (reply : Tavily.Reply)
| EvExecuteTool (tool_name : string) (args : json)
| EvInsertConversation (title : string) (outcome : Exn + string)
| EvInsertMessage (row : Row) (error : option Exn)
| EvSelectMessages (conversation : string) (outcome : Exn + list Message)
| EvConsoleError (e : Exn).

(** *** Results and the monad *)

Inductive Res (A : Type) : Type :=
| Returned (a : A)
| Thrown (e : Exn)
| OutOfFuel.
Arguments Returned {A} a.
Arguments Thrown {A} e.
Arguments OutOfFuel {A}.

Record Run (W A : Type) : Type :=
  { result : Res A; world : W; trace : list Event }.
Arguments result {W A} r.
Arguments world {W A} r.
Arguments trace {W A} r.

Definition M (W A : Type) : Type := W -> Run W A.

Definition ret {W A} (a : A) : M W A :=
  fun w => {| result := Returned a; world := w; trace := [] |}.

Definition throw {W A} (e : Exn) : M W A :=
  fun w => {| result := Thrown e; world := w; trace := [] |}.

Definition out_of_fuel {W A} : M W A :=
  fun w => {| result := OutOfFuel; world := w; trace := [] |}.

Definition bind {W A B} (m : M W A) (k : A -> M W B) : M W B :=
  fun w =>
    let r := m w in
    match result r with
    | Returned a =>
        let r' := k a (world r) in
        {| result := result r'; world := world r'; trace := (trace r ++ trace r')%list |}
    | Thrown e => {| result := Thrown e; world := world r; trace := trace r |}
    | OutOfFuel => {| result := OutOfFuel; world := world r; trace := trace r |}
    end.

(** [try { m } catch (error) { handler(error) }] *)
Definition try_catch {W A} (m : M W A) (handler : Exn -> M W A) : M W A :=
  fun w =>
    let r := m w in
    match result r with
    | Thrown e =>
        let r' := handler e (world r) in
        {| result := result r'; world := world r'; trace := (trace r ++ trace r')%list |}
    | _ => r
    end.

(** A call to an outside service: answered by the world, and logged
    with its answer. *)
Definition call {W A} (ev : A -> Event) (service : W -> A * W) : M W A :=
  fun w =>
    {| result := Returned (fst (service w));
       world := snd (service w);
       trace := [ev (fst (service w))] |}.

Definition log {W} (ev : Event) : M W unit :=
  fun w => {| result := Returned tt; world := w; trace := [ev] |}.

(** A runtime operation that returns or throws. *)
Definition lift {W A} (r : Exn + A) : M W A :=
  match r with
  | inl e => throw e
  | inr a => ret a
  end.

Declare Scope agent_scope.
Delimit Scope agent_scope with agent.
Notation "x <- m ;; k" := (bind m (fun x => k))
  (at level 61, m at next level, right associativity) : agent_scope.
Notation "m ;; k" := (bind m (fun _ => k))
  (at level 61, right associativity) : agent_scope.
Local Open Scope agent_scope.

(** *** The runtime and the outside services *)

Record Services (W : Type) : Type :=
  { (** [Deno.env.get] *)
    env_get : string -> option string;
    (** [JSON.parse]: [inl] is the message of the [SyntaxError] *)
    JSON_parse : string -> string + json;
    (** the POST to the completion endpoint *)
    openai_fetch : OpenAI.Request -> W -> OpenAI.Reply * W;
    (** the POST to the search endpoint *)
    tavily_fetch : Tavily.Request -> W -> Tavily.Reply * W;
    (** [createClient(url, key)]: [Some e] when the constructor throws *)
    createClient : option string -> option string -> option Exn;
    (** [from("conversations").insert({title}).select().single()]:
        the error, or the [id] of the new row *)
    insert_conversation : string -> W -> (Exn + string) * W;
    (** [from("messages").insert(row)]: the error, if any *)
    insert_message : Row -> W -> option Exn * W;
    (** the ordered [select] of a conversation's messages *)
    select_messages : string -> W -> (Exn + list Message) * W }.
Arguments env_get {W} s _.
Arguments JSON_parse {W} s _.
Arguments openai_fetch {W} s _ _.
Arguments tavily_fetch {W} s _ _.
Arguments createClient {W} s _ _.
Arguments insert_conversation {W} s _ _.
Arguments insert_message {W} s _ _.
Arguments select_messages {W} s _ _.

(** *** The code *)

(** The turn request, [{ conversationId, message }]. *)
Record TurnRequest : Type :=
  { conversationId : option string; message : string }.

(** The HTTP request: its method and what [req.json()] gives. *)
Record Request : Type :=
  { method : string; json_body : Exn + TurnRequest }.

(** The three responses of the handler: the CORS preflight answer, the
    turn response and the failure response with status 500. *)
Inductive Response : Type :=
| Preflight
| TurnResponse (conversationId : string) (response : string)
| Failure500 (error : string).

(** The loop variables of [runAgent]. *)
Record LoopState : Type :=
  { iterations : nat;
    conversationMessages : list Message;
    newMessages : list Message }.

Definition tools : list json :=
  [ JObject
      [ ("type", JString "function");
        ("function",
          JObject
            [ ("name", JString "web_search");
              ("description",
                JString "Search the web for current information. Use this when you need to find up-to-date information about any topic.");
              ("parameters",
                JObject
                  [ ("type", JString "object");
                    ("properties",
                      JObject
                        [ ("query",
                            JObject [ ("type", JString "string");
                                      ("description", JString "The search query") ]) ]);
                    ("required", JArray [JString "query"]) ]) ]) ] ].

Definition systemMessage : Message :=
  {| role := system;
     content :=
       "You are a helpful AI assistant with access to web search. " ++ newline ++
       "When users ask questions that require current information, use the web_search tool to find accurate, up-to-date answers." ++ newline ++
       "Always cite your sources when providing information from search results." ++ newline ++
       "Be concise but thorough in your responses.";
     tool_calls := None;
     tool_call_id := None |}.

Definition maxIterations : nat := 5.

Definition fallbackResponse : string :=
  "I apologize, but I couldn't generate a response.".

Definition missingOpenAIKey : string :=
  "Error: OPENAI_API_KEY not configured. Please add your OpenAI API key to secrets.".

Definition missingTavilyKey : string :=
  "Error: TAVILY_API_KEY not configured. Please add your Tavily API key to secrets.".

(** [!message.tool_calls || message.tool_calls.length === 0] *)
Definition no_tool_calls (message : Message) : bool :=
  match tool_calls message with
  | None => true
  | Some calls => Nat.eqb (length calls) 0
  end.

(** The array that [for (const toolCall of message.tool_calls)] walks. *)
Definition calls_of (message : Message) : list ToolCall :=
  match tool_calls message with
  | Some calls => calls
  | None => []
  end.

(** The element that [callOpenAI] sends for a message: the optional
    fields are spread in only when truthy. *)
Definition wire (m : Message) : Message :=
  {| role := role m;
     content := content m;
     tool_calls := tool_calls m;
     tool_call_id := or_null (tool_call_id m) |}.

(** The block that [webSearch] renders for result [r] at index [i]. *)
Definition render_result (r : Tavily.SearchResult) (i : nat) : string :=
  "[" ++ show_nat (i + 1) ++ "] " ++ Tavily.title r ++ newline ++
  Tavily.url r ++ newline ++ Tavily.content r.

(** The row that the handler inserts for a message of [runAgent]. *)
Definition row_of (conversation : string) (msg : Message) : Row :=
  {| conversation_id := conversation;
     row_role := role msg;
     row_content := content msg;
     row_tool_calls := tool_calls msg;
     row_tool_call_id := or_null (tool_call_id msg) |}.

(** [agentMessages.filter(m => m.role === "assistant").pop()?.content
     || "I apologize, ..."] *)
Definition responseText (agentMessages : list Message) : string :=
  let assistantResponse :=
    pop (filter (fun m => Role_eqb (role m) assistant) agentMessages) in
  or_else (option_map content assistantResponse) fallbackResponse.

Section Code.
Context {W : Type} (svc : Services W).

Definition webSearch (query : option json) : M W string :=
  let tavilyKey := env_get svc "TAVILY_API_KEY" in
  if negb (truthy tavilyKey) then ret missingTavilyKey
  else
    try_catch
      (let request :=
         {| Tavily.api_key := or_else tavilyKey "";
            Tavily.query := query;
            Tavily.search_depth := "basic";
            Tavily.max_results := 5 |} in
       response <- call (EvSearch request) (tavily_fetch svc request) ;;
       match response with
       | Tavily.Throws e => throw e
       | Tavily.NotOk status =>
           throw (Error ("Tavily API error: " ++ show_nat status))
       | Tavily.Data data_results =>
           let results :=
             match data_results with Some rs => rs | None => [] end in
           if Nat.eqb (length results) 0 then ret "No search results found."
           else ret (String.concat (newline ++ newline) (mapi render_result results))
       end)
      (fun error => ret ("Search error: " ++ message_of error)).

Definition executeTool (name : string) (args : json) : M W string :=
  log (EvExecuteTool name args) ;;
  if name =? "web_search" then
    query <- lift (get_property args "query") ;;
    webSearch query
  else ret ("Unknown tool: " ++ name).

Definition callOpenAI (messages : list Message) (includeTools : bool)
  : M W (Message * string) :=
  let openaiKey := env_get svc "OPENAI_API_KEY" in
  if negb (truthy openaiKey) then
    ret ({| role := assistant;
            content := missingOpenAIKey;
            tool_calls := None;
            tool_call_id := None |}, "stop")
  else
    let request :=
      {| OpenAI.authorization := "Bearer " ++ or_else openaiKey "";
         OpenAI.model := "gpt-4o-mini";
         OpenAI.messages := map wire messages;
         OpenAI.tools := if includeTools then Some tools else None;
         OpenAI.max_tokens := 1024 |} in
    response <- call (EvCompletion request) (openai_fetch svc request) ;;
    match response with
    | OpenAI.Throws e => throw e
    | OpenAI.NotOk status error =>
        throw (Error ("OpenAI API error: " ++ show_nat status ++ " - " ++ error))
    | OpenAI.Choice choice_content choice_tool_calls finish_reason =>
        ret ({| role := assistant;
                content := or_else choice_content "";
                tool_calls := choice_tool_calls;
                tool_call_id := None |}, finish_reason)
    end.

(** [conversationMessages.push(m); newMessages.push(m)] *)
Definition push_both (m : Message) (st : LoopState) : LoopState :=
  {| iterations := iterations st;
     conversationMessages := (conversationMessages st ++ [m])%list;
     newMessages := (newMessages st ++ [m])%list |}.

(** The [for ... of] loop over the tool calls of one assistant
    message. *)
Fixpoint executeToolCalls (calls : list ToolCall) (st : LoopState)
  : M W LoopState :=
  match calls with
  | [] => ret st
  | toolCall :: rest =>
      args <- lift (match JSON_parse svc (arguments (function toolCall)) with
                    | inl m => inl (SyntaxError m)
                    | inr v => inr v
                    end) ;;
      result <- executeTool (name (function toolCall)) args ;;
      let toolMessage :=
        {| role := tool;
           content := result;
           tool_calls := None;
           tool_call_id := Some (id toolCall) |} in
      executeToolCalls rest (push_both toolMessage st)
  end.

(** The [while (iterations < maxIterations)] loop.  [fuel] bounds
    the number of rounds of the model; running out of it is the
    result [OutOfFuel]. *)
Fixpoint agentLoop (fuel : nat) (st : LoopState) : M W LoopState :=
  if Nat.ltb (iterations st) maxIterations then
    match fuel with
    | 0 => out_of_fuel
    | S fuel' =>
        let iterations' := S (iterations st) in
        reply <- callOpenAI (conversationMessages st) true ;;
        let message := fst reply in
        if no_tool_calls message then
          (* newMessages.push(message); break *)
          ret {| iterations := iterations';
                 conversationMessages := conversationMessages st;
                 newMessages := (newMessages st ++ [message])%list |}
        else
          st' <- executeToolCalls (calls_of message)
                   (push_both message
                      {| iterations := iterations';
                         conversationMessages := conversationMessages st;
                         newMessages := newMessages st |}) ;;
          agentLoop fuel' st'
    end
  else ret st.

Definition initialState (messages : list Message) : LoopState :=
  {| iterations := 0;
     conversationMessages := systemMessage :: messages;
     newMessages := [] |}.

Definition runAgent (messages : list Message) : M W (list Message) :=
  st <- agentLoop maxIterations (initialState messages) ;;
  ret (newMessages st).

(** [for (const msg of agentMessages) await insert(...)]: the
    outcome of an insert is not looked at. *)
Fixpoint saveMessages (conversation : string) (agentMessages : list Message)
  : M W unit :=
  match agentMessages with
  | [] => ret tt
  | msg :: rest =>
      let row := row_of conversation msg in
      call (EvInsertMessage row) (insert_message svc row) ;;
      saveMessages conversation rest
  end.

(** The handler passed to [Deno.serve]. *)
Definition handler (req : Request) : M W Response :=
  if method req =? "OPTIONS" then ret Preflight
  else
    try_catch
      (body <- lift (json_body req) ;;
       let message := message body in
       lift (match createClient svc (env_get svc "SUPABASE_URL")
                     (env_get svc "SUPABASE_SERVICE_ROLE_KEY") with
             | Some e => inl e
             | None => inr tt
             end) ;;
       actualConversationId <-
         (if negb (truthy (conversationId body)) then
            (* [substring] counts bytes here and UTF-16 code units in
               the source: the two agree on ASCII text *)
            let title := substring 0 50 message in
            conv <- call (EvInsertConversation title)
                      (insert_conversation svc title) ;;
            lift conv
          else ret (or_else (conversationId body) "")) ;;
       let userRow :=
         {| conversation_id := actualConversationId;
            row_role := user;
            row_content := message;
            row_tool_calls := None;
            row_tool_call_id := None |} in
       userMsgError <- call (EvInsertMessage userRow)
                         (insert_message svc userRow) ;;
       match userMsgError with Some e => throw e | None => ret tt end ;;
       history <- call (EvSelectMessages actualConversationId)
                    (select_messages svc actualConversationId) ;;
       history <- lift history ;;
       agentMessages <- runAgent history ;;
       saveMessages actualConversationId agentMessages ;;
       ret (TurnResponse actualConversationId (responseText agentMessages)))
      (fun error =>
         log (EvConsoleError error) ;;
         ret (Failure500 (message_of error))).

End Code.

End Agent.

(* ================================================================== *)
(** ** Stub services

    A scripted completion provider and search provider, and an
    in-memory store that keeps rows in insertion order: the
    replaceable test doubles on which the model is run. *)

Module Stub.
Import JS Agent.
Local Open Scope string_scope.

Record World : Type :=
  { completions : list OpenAI.Reply;
    searches : list Tavily.Reply;
    conversations : list string;
    rows : list Row }.

Definition message_of_row (r : Row) : Message :=
  {| role := row_role r;
     content := row_content r;
     tool_calls := row_tool_calls r;
     tool_call_id := row_tool_call_id r |}.

Definition services (openaiKey tavilyKey : option string) : Services World :=
  {| env_get := fun key =>
       if key =? "OPENAI_API_KEY" then openaiKey
       else if key =? "TAVILY_API_KEY" then tavilyKey
       else if key =? "SUPABASE_URL" then Some "http://localhost:54321"
       else if key =? "SUPABASE_SERVICE_ROLE_KEY" then Some "service-role-key"
       else None;
     JSON_parse := JSON.parse;
     openai_fetch := fun _ w =>
       match completions w with
       | reply :: rest =>
           (reply, {| completions := rest; searches := searches w;
                      conversations := conversations w; rows := rows w |})
       | [] => (OpenAI.Throws (TypeError "error sending request"), w)
       end;
     tavily_fetch := fun _ w =>
       match searches w with
       | reply :: rest =>
           (reply, {| completions := completions w; searches := rest;
                      conversations := conversations w; rows := rows w |})
       | [] => (Tavily.Throws (TypeError "error sending request"), w)
       end;
     createClient := fun url key =>
       if negb (truthy url) then Some (Error "supabaseUrl is required.")
       else if negb (truthy key) then Some (Error "supabaseKey is required.")
       else None;
     insert_conversation := fun title w =>
       (inr ("conv-" ++ show_nat (length (conversations w))),
        {| completions := completions w; searches := searches w;
           conversations := (conversations w ++ [title])%list; rows := rows w |});
     insert_message := fun row w =>
       (None,
        {| completions := completions w; searches := searches w;
           conversations := conversations w; rows := (rows w ++ [row])%list |});
     select_messages := fun conversation w =>
       (inr (map message_of_row
               (filter (fun r => conversation_id r =? conversation) (rows w))),
        w) |}.

Definition both_keys : Services World :=
  services (Some "sk-test") (Some "tvly-test").

Definition world_of (replies : list OpenAI.Reply) (found : list Tavily.Reply)
  : World :=
  {| completions := replies; searches := found; conversations := []; rows := [] |}.

Definition user_says (text : string) : Message :=
  {| role := user; content := text; tool_calls := None; tool_call_id := None |}.

Definition post (conversation : option string) (text : string) : Request :=
  {| method := "POST";
     json_body := inr {| conversationId := conversation; message := text |} |}.

(** A completion that asks for one tool call. *)
Definition asks (text : option string) (call_id tool_name args : string)
  : OpenAI.Reply :=
  OpenAI.Choice text
    (Some [ {| id := call_id;
               function := {| name := tool_name; arguments := args |} |} ])
    "tool_calls".

(** A completion that answers. *)
Definition answers (text : string) : OpenAI.Reply :=
  OpenAI.Choice (Some text) None "stop".

(** **** Scenarios *)

(** One search, then the answer. *)
Definition weather_history : list Message :=
  [user_says "What's the weather in Paris today?"].

Definition weather_world : World :=
  world_of
    [ asks None "call_1" "web_search"
        ("{" ++ dq ++ "query" ++ dq ++ ":" ++ dq ++ "weather in Paris today" ++ dq ++ "}");
      answers "It's 18C and cloudy [1]." ]
    [ Tavily.Data
        (Some [ {| Tavily.title := "Paris weather";
                   Tavily.url := "https://weather.example/paris";
                   Tavily.content := "18C, cloudy";
                   Tavily.score := "0.98" |} ]) ].

Definition weather_output : list Message :=
  [ {| role := assistant; content := "";
       tool_calls :=
         Some [ {| id := "call_1";
                   function :=
                     {| name := "web_search";
                        arguments :=
                          "{" ++ dq ++ "query" ++ dq ++ ":" ++ dq
                          ++ "weather in Paris today" ++ dq ++ "}" |} |} ];
       tool_call_id := None |};
    {| role := tool;
       content :=
         "[1] Paris weather" ++ newline ++ "https://weather.example/paris"
         ++ newline ++ "18C, cloudy";
       tool_calls := None;
       tool_call_id := Some "call_1" |};
    {| role := assistant; content := "It's 18C and cloudy [1].";
       tool_calls := None; tool_call_id := None |} ].

(** A provider that asks for a tool at every turn, with some text. *)
Definition looping_world : World :=
  world_of (repeat (asks (Some "Let me search") "call_1" "lookup" "{}") 5) [].

(** A provider that fails on its second call. *)
Definition failing_world : World :=
  world_of [asks None "call_1" "lookup" "{}"; OpenAI.NotOk 500 "boom"] [].

(** A provider whose tool call carries arguments that are not JSON,
    and one whose arguments are the JSON [null]. *)
Definition malformed_world : World :=
  world_of [asks None "call_1" "web_search" "{"] [].

Definition null_arguments_world : World :=
  world_of [asks None "call_1" "web_search" "null"] [].

(** A provider that asks for a tool that is not registered: with
    arguments that are not JSON, and with arguments that parse. *)
Definition unknown_malformed_world : World :=
  world_of [asks None "call_1" "lookup" EmptyString; answers "Done."] [].

Definition unknown_world : World :=
  world_of [asks None "call_1" "lookup" "{}"; answers "Done."] [].

(** A store that holds, for conversation [conv-9], a tool message
    that answers no call. *)
Definition orphan : Message :=
  {| role := tool; content := "stale result";
     tool_calls := None; tool_call_id := Some "call_x" |}.

Definition orphan_world : World :=
  {| completions := [answers "Hello again."];
     searches := [];
     conversations := ["hi"];
     rows := [ {| conversation_id := "conv-9"; row_role := user;
                  row_content := "hi"; row_tool_calls := None;
                  row_tool_call_id := None |};
               {| conversation_id := "conv-9"; row_role := tool;
                  row_content := "stale result"; row_tool_calls := None;
                  row_tool_call_id := Some "call_x" |} ] |}.

(** The same services with a store whose select fails, and with a
    store that refuses every row but the user's. *)
Definition with_failing_select (svc : Services World) : Services World :=
  {| env_get := env_get svc;
     JSON_parse := JSON_parse svc;
     openai_fetch := openai_fetch svc;
     tavily_fetch := tavily_fetch svc;
     createClient := createClient svc;
     insert_conversation := insert_conversation svc;
     insert_message := insert_message svc;
     select_messages := fun _ w =>
       (inl (PostgrestError "permission denied for table messages"), w) |}.

Definition with_failing_saves (svc : Services World) : Services World :=
  {| env_get := env_get svc;
     JSON_parse := JSON_parse svc;
     openai_fetch := openai_fetch svc;
     tavily_fetch := tavily_fetch svc;
     createClient := createClient svc;
     insert_conversation := insert_conversation svc;
     insert_message := fun row w =>
       if Role_eqb (row_role row) user then insert_message svc row w
       else (Some (PostgrestError "statement timeout"), w);
     select_messages := select_messages svc |}.

End Stub.


(* ================================================================== *)
(** ** Vocabulary of the properties *)

Module Spec.
Import JS Agent.
Local Open Scope string_scope.

Definition is_completion (e : Event) : bool :=
  match e with EvCompletion _ _ => true | _ => false end.

Definition is_tool_invocation (e : Event) : bool :=
  match e with EvExecuteTool _ _ => true | _ => false end.

(** How many times the completion provider was called. *)
Definition completion_calls (t : list Event) : nat :=
  length (filter is_completion t).

(** How many times [executeTool] was entered. *)
Definition tool_invocations (t : list Event) : nat :=
  length (filter is_tool_invocation t).

(** The rows handed to the store's [messages] table, in order. *)
Fixpoint rows_inserted (t : list Event) : list Row :=
  match t with
  | [] => []
  | EvInsertMessage row _ :: rest => row :: rows_inserted rest
  | _ :: rest => rows_inserted rest
  end.

(** A run with [t] put before its trace. *)
Definition prepend {W A} (t : list Event) (r : Run W A) : Run W A :=
  {| result := result r; world := world r; trace := (t ++ trace r)%list |}.

(** [msg] is the tool message that answers [call]. *)
Definition answer (call : ToolCall) (msg : Message) : Prop :=
  role msg = tool /\ tool_call_id msg = Some (id call) /\ tool_calls msg = None.

Definition answers_id (call : ToolCall) (msg : Message) : bool :=
  match tool_call_id msg with
  | Some i => i =? id call
  | None => false
  end.

(** The pairing check, read left to right with the tool calls still
    to be answered: an assistant message may come only when none is
    pending and makes its own calls pending; a tool message must
    answer the first pending call; no other message may occur.
    [None] is a violation. *)
Fixpoint pairing (pending : list ToolCall) (ms : list Message)
  : option (list ToolCall) :=
  match ms with
  | [] => Some pending
  | m :: rest =>
      match role m, pending with
      | assistant, [] => pairing (calls_of m) rest
      | tool, call :: pending' =>
          if answers_id call m then pairing pending' rest else None
      | _, _ => None
      end
  end.

Definition well_paired (ms : list Message) : bool :=
  match pairing [] ms with
  | Some [] => true
  | _ => false
  end.

(** One pass of the loop, seen from its variables: the loop is left
    because the cap is reached, or by [break] after an answer [m], or
    a round pushes [m] and the answers to its calls and the loop goes
    on. *)
Inductive Reach : LoopState -> LoopState -> Prop :=
| reach_cap st :
    maxIterations <= iterations st -> Reach st st
| reach_break st m :
    iterations st < maxIterations ->
    role m = assistant -> tool_call_id m = None -> no_tool_calls m = true ->
    Reach st {| iterations := S (iterations st);
                conversationMessages := conversationMessages st;
                newMessages := (newMessages st ++ [m])%list |}
| reach_round st m toolMessages st' :
    iterations st < maxIterations ->
    role m = assistant -> tool_call_id m = None -> no_tool_calls m = false ->
    Forall2 answer (calls_of m) toolMessages ->
    Reach {| iterations := S (iterations st);
             conversationMessages :=
               (conversationMessages st ++ m :: toolMessages)%list;
             newMessages := (newMessages st ++ m :: toolMessages)%list |} st' ->
    Reach st st'.

(** The request that [callOpenAI] posts when the key is set. *)
Definition request_for {W} (svc : Services W) (messages : list Message)
    (includeTools : bool) : OpenAI.Request :=
  {| OpenAI.authorization :=
       "Bearer " ++ or_else (env_get svc "OPENAI_API_KEY") "";
     OpenAI.model := "gpt-4o-mini";
     OpenAI.messages := map wire messages;
     OpenAI.tools := if includeTools then Some tools else None;
     OpenAI.max_tokens := 1024 |}.

(** What [callOpenAI] makes of the provider's reply. *)
Definition reply_result (reply : OpenAI.Reply) : Res (Message * string) :=
  match reply with
  | OpenAI.Throws e => Thrown e
  | OpenAI.NotOk status error =>
      Thrown (Error ("OpenAI API error: " ++ show_nat status ++ " - " ++ error))
  | OpenAI.Choice choice_content choice_tool_calls finish_reason =>
      Returned ({| role := assistant;
                   content := or_else choice_content "";
                   tool_calls := choice_tool_calls;
                   tool_call_id := None |}, finish_reason)
  end.

(** The state in which the tool calls of [message] are executed. *)
Definition entering (message : Message) (st : LoopState) : LoopState :=
  push_both message
    {| iterations := S (iterations st);
       conversationMessages := conversationMessages st;
       newMessages := newMessages st |}.

Definition is_tool (m : Message) : Prop := role m = tool.

Definition produced_role (m : Message) : Prop :=
  role m = assistant \/ role m = tool.

(** The id that answers [call], as a [tool_call_id]. *)
Definition id_of (call : ToolCall) : option string := Some (id call).

(** The events that [runAgent] can cause. *)
Definition agent_event (e : Event) : Prop :=
  match e with
  | EvCompletion _ _ | EvSearch _ _ | EvExecuteTool _ _ => True
  | _ => False
  end.

(** The events of a turn that fails before the agent is run: store
    calls, where a message row is the user's and a select has failed. *)
Definition opening_event (e : Event) : Prop :=
  match e with
  | EvInsertConversation _ _ => True
  | EvInsertMessage row _ => row_role row = user
  | EvSelectMessages _ (inl _) => True
  | _ => False
  end.

(** The row that the handler inserts for the user's message. *)
Definition user_row (conversation text : string) : Row :=
  {| conversation_id := conversation;
     row_role := user;
     row_content := text;
     row_tool_calls := None;
     row_tool_call_id := None |}.

(** What the handler does once [runAgent] has run as [ra]: save and
    answer, or log the error and answer with status 500. *)
Definition closing {W} (svc : Services W) (conversation : string)
    (ra : Run W (list Message)) : Run W Response :=
  match result ra with
  | Returned agentMessages =>
      let saved := saveMessages svc conversation agentMessages (world ra) in
      {| result := Returned (TurnResponse conversation (responseText agentMessages));
         world := world saved;
         trace := (trace ra ++ trace saved)%list |}
  | Thrown e =>
      {| result := Returned (Failure500 (message_of e));
         world := world ra;
         trace := (trace ra ++ [EvConsoleError e])%list |}
  | OutOfFuel =>
      {| result := OutOfFuel; world := world ra; trace := trace ra |}
  end.

(** The answer pushed for a call to a tool that is not registered. *)
Definition unknown_answer (call : ToolCall) : Message :=
  {| role := tool;
     content := "Unknown tool: " ++ name (function call);
     tool_calls := None;
     tool_call_id := Some (id call) |}.

(** The invariant of the data model, as the specification words it: a
    tool message's [tool_call_id] equals the id of exactly one call
    of the nearest preceding assistant message.  [calls] are the
    calls of that message. *)
Fixpoint valid_after (calls : list ToolCall) (history : list Message) : bool :=
  match history with
  | [] => true
  | m :: rest =>
      match role m with
      | assistant => valid_after (calls_of m) rest
      | tool =>
          Nat.eqb (length (filter (fun call => answers_id call m) calls)) 1
          && valid_after calls rest
      | _ => valid_after calls rest
      end
  end.

Definition valid_history (history : list Message) : bool :=
  valid_after [] history.

(** A tool call that [runAgent] gets to execute: its arguments parse,
    and not to [null] if it is a search. *)
Definition executable {W} (svc : Services W) (call : ToolCall) : Prop :=
  exists args,
    JSON_parse svc (arguments (function call)) = inr args
    /\ (name (function call) = "web_search" -> args <> JNull).

End Spec.

(* ================================================================== *)
(** ** The chat hook

    The parts of [src/hooks/useChat.ts] that compute the list of
    messages on display: what [fetchMessages] makes of the rows it
    selects, and the state update of the realtime [INSERT] callback. *)

Module Chat.
Import JS.
Local Open Scope string_scope.

(** A row of the [messages] table as [select("*")] returns it: the
    columns that the edge function writes, with the [id] and the
    [created_at] that the store adds. *)
Record StoredMessage : Type :=
  { stored_id : string;
    stored_row : Agent.Row;
    stored_created_at : string }.

(** The hook's [Message].  The role is the column's, whatever the
    interface declares. *)
Record Message : Type :=
  { id : string;
    role : Agent.Role;
    content : string;
    created_at : string }.

(** [m.role === "user" || m.role === "assistant"] *)
Definition shown (r : Agent.Role) : bool :=
  match r with
  | Agent.user | Agent.assistant => true
  | _ => false
  end.

(** The object that [fetchMessages] builds for a row. *)
Definition display (m : StoredMessage) : Message :=
  {| id := stored_id m;
     role := Agent.row_role (stored_row m);
     content := Agent.row_content (stored_row m);
     created_at := stored_created_at m |}.

(** [visibleMessages] of [fetchMessages], from [data]. *)
Definition visibleMessages (data : option (list StoredMessage)) : list Message :=
  map display
    (filter (fun m => shown (Agent.row_role (stored_row m)))
       (match data with Some rows => rows | None => [] end)).

(** The messages after [fetchMessages]: unchanged when the select
    reports an error. *)
Definition fetchMessages (outcome : Exn + option (list StoredMessage))
    (prev : list Message) : list Message :=
  match outcome with
  | inl _ => prev
  | inr data => visibleMessages data
  end.

(** The messages after the realtime callback has run on
    [payload.new]. *)
Definition onInsert (newMessage : Message) (prev : list Message) : list Message :=
  if shown (role newMessage) then
    if existsb (fun m => id m =? id newMessage) prev then prev
    else (prev ++ [newMessage])%list
  else prev.

(** What happens to the messages on display: a fetch completes, a
    realtime insert arrives, or the list is cleared
    ([startNewConversation], or no active conversation). *)
Inductive Update : Type :=
| Fetched (outcome : Exn + option (list StoredMessage))
| Inserted (newMessage : Message)
| Cleared.

Definition step (prev : list Message) (u : Update) : list Message :=
  match u with
  | Fetched outcome => fetchMessages outcome prev
  | Inserted newMessage => onInsert newMessage prev
  | Cleared => []
  end.

(** The messages after a sequence of updates, from the initial state
    of [useState]. *)
Definition messagesAfter (updates : list Update) : list Message :=
  fold_left step updates [].

(** The rows of a fetch have ids that differ, as a primary key does. *)
Definition unique_ids (u : Update) : Prop :=
  match u with
  | Fetched (inr (Some rows)) => NoDup (map stored_id rows)
  | _ => True
  end.

(** The order of the rows of a fetch,
    [.order("created_at", { ascending: true })]: no row comes after
    one that is later by [before], the order of the store on
    timestamps. *)
Definition ascending (before : string -> string -> Prop)
    (rows : list StoredMessage) : Prop :=
  StronglySorted
    (fun a b => ~ before (stored_created_at b) (stored_created_at a)) rows.

(** Rows that are delivered in the order in which they were created,
    no two at the same time. *)
Definition strictly_ascending (before : string -> string -> Prop)
    (rows : list StoredMessage) : Prop :=
  StronglySorted
    (fun a b => before (stored_created_at a) (stored_created_at b)) rows.

(** Rows of one conversation, as the store returns them. *)
Definition stored (n : nat) (row : Agent.Row) : StoredMessage :=
  {| stored_id := "msg-" ++ show_nat n;
     stored_row := row;
     stored_created_at := "2025-01-01T00:00:0" ++ show_nat n ++ "Z" |}.

Fixpoint stored_from (n : nat) (rows : list Agent.Row) : list StoredMessage :=
  match rows with
  | [] => []
  | row :: rest => stored n row :: stored_from (S n) rest
  end.

Definition sample_row (r : Agent.Role) (text : string) : Agent.Row :=
  {| Agent.conversation_id := "conv-0";
     Agent.row_role := r;
     Agent.row_content := text;
     Agent.row_tool_calls := None;
     Agent.row_tool_call_id := None |}.

(** The rows of a turn of the handler, as a later select returns
    them. *)
Definition stored_turn (conversation text : string)
    (agentMessages : list Agent.Message) : list StoredMessage :=
  stored_from 0
    (Spec.user_row conversation text
     :: map (Agent.row_of conversation) agentMessages).

Definition row_one : StoredMessage := stored 1 (sample_row Agent.user "Hello").
Definition row_two : StoredMessage :=
  stored 2 (sample_row Agent.tool "No search results found.").
Definition row_three : StoredMessage :=
  stored 3 (sample_row Agent.assistant "Hi there!").

End Chat.

(* ================================================================== *)
(** ** More vocabulary: requests, counts and the turn written out *)

Module Shape.
Import JS Agent Spec.
Local Open Scope string_scope.

Definition is_search (e : Event) : bool :=
  match e with EvSearch _ _ => true | _ => false end.

(** How many times the search provider was called. *)
Definition search_calls (t : list Event) : nat :=
  length (filter is_search t).

(** The exchanges with the completion provider in a trace, in order:
    each request with the reply it got. *)
Fixpoint exchanges (t : list Event) : list (OpenAI.Request * OpenAI.Reply) :=
  match t with
  | [] => []
  | EvCompletion request reply :: rest => (request, reply) :: exchanges rest
  | _ :: rest => exchanges rest
  end.

(** The tools entered in a trace, in order: the name and the
    arguments that [executeTool] was called with. *)
Fixpoint executions (t : list Event) : list (string * json) :=
  match t with
  | [] => []
  | EvExecuteTool tool_name args :: rest => (tool_name, args) :: executions rest
  | _ :: rest => executions rest
  end.

(** The request that [webSearch] posts when the key is set. *)
Definition search_request_for {W} (svc : Services W) (query : option json)
  : Tavily.Request :=
  {| Tavily.api_key := or_else (env_get svc "TAVILY_API_KEY") "";
     Tavily.query := query;
     Tavily.search_depth := "basic";
     Tavily.max_results := 5 |}.

(** [args.query] where it does not throw. *)
Definition query_of (args : json) : option json :=
  match args with
  | JObject members => lookup_member "query" members
  | _ => None
  end.

Definition has_role (r : Role) (m : Message) : bool := Role_eqb (role m) r.

Definition count_role (r : Role) (ms : list Message) : nat :=
  length (filter (has_role r) ms).

(** How many tool calls the messages of [ms] ask for. *)
Definition requested_calls (ms : list Message) : nat :=
  list_sum (map (fun m => length (calls_of m)) ms).

(** The tool calls that the messages of [ms] ask for, in order. *)
Definition requested (ms : list Message) : list ToolCall :=
  flat_map calls_of ms.

(** What the loop of [runAgent] calls [executeTool] with for [call]:
    the name, and what [JSON.parse] makes of the arguments. *)
Definition execution_of {W} (svc : Services W) (call : ToolCall)
  : string * (string + json) :=
  (name (function call), JSON_parse svc (arguments (function call))).

Definition entered (execution : string * json) : string * (string + json) :=
  (fst execution, inr (snd execution)).

(** The text that [webSearch] returns on the provider's [reply]. *)
Definition search_text (reply : Tavily.Reply) : string :=
  match reply with
  | Tavily.Throws e => "Search error: " ++ message_of e
  | Tavily.NotOk status =>
      "Search error: Tavily API error: " ++ show_nat status
  | Tavily.Data None | Tavily.Data (Some []) => "No search results found."
  | Tavily.Data (Some results) =>
      String.concat (newline ++ newline) (mapi render_result results)
  end.

(** The texts that the tools entered in [t] came to, read off the
    events: the fixed text for a name that is not registered; for a
    search, the diagnostic when the key is not set, and else what
    [webSearch] makes of the reply that follows. *)
Fixpoint tool_texts {W} (svc : Services W) (t : list Event) : list string :=
  match t with
  | [] => []
  | EvExecuteTool tool_name _ :: rest =>
      if tool_name =? "web_search" then
        if truthy (env_get svc "TAVILY_API_KEY") then
          match rest with
          | EvSearch _ reply :: rest' => search_text reply :: tool_texts svc rest'
          | _ => tool_texts svc rest
          end
        else missingTavilyKey :: tool_texts svc rest
      else ("Unknown tool: " ++ tool_name) :: tool_texts svc rest
  | _ :: rest => tool_texts svc rest
  end.

(** The assistant messages of [rest], each with the messages that
    come before it, after [seen]. *)
Fixpoint rounds_from (seen rest : list Message)
  : list (list Message * Message) :=
  match rest with
  | [] => []
  | m :: rest' =>
      if has_role assistant m
      then (seen, m) :: rounds_from (seen ++ [m]) rest'
      else rounds_from (seen ++ [m]) rest'
  end.

(** In a run on [base], the exchange [exchange] has produced the
    assistant message of [round]: the request was made on [base]
    followed by the messages before it, and it is the message that
    [callOpenAI] reads from the reply. *)
Definition round_of {W} (svc : Services W) (base : list Message)
    (exchange : OpenAI.Request * OpenAI.Reply)
    (round : list Message * Message) : Prop :=
  fst exchange = request_for svc (base ++ fst round) true
  /\ exists finish_reason,
       reply_result (snd exchange) = Returned (snd round, finish_reason).

(** Successive exchanges of one run: each request carries the
    transcript [t] it is made on; when another follows, [callOpenAI]
    has read from the reply an assistant message [m] with tool calls,
    and the next request is made on [t] followed by [m] and one tool
    message per call of [m], in the order of the calls and with their
    ids. *)
Inductive Chain {W} (svc : Services W)
  : list Message -> list (OpenAI.Request * OpenAI.Reply) -> Prop :=
| chain_end t : Chain svc t []
| chain_last t reply : Chain svc t [(request_for svc t true, reply)]
| chain_next t reply m finish_reason toolMessages rest :
    reply_result reply = Returned (m, finish_reason) ->
    no_tool_calls m = false ->
    Forall2 answer (calls_of m) toolMessages ->
    Chain svc (t ++ m :: toolMessages)%list rest ->
    Chain svc t ((request_for svc t true, reply) :: rest).

(** Where the handler starts the agent: the request body, the
    conversation, the history that the select returned and the world
    after it; [None] when the turn ends before. *)
Definition agent_input {W} (svc : Services W) (req : Request) (w : W)
  : option (TurnRequest * string * list Message * W) :=
  if method req =? "OPTIONS" then None
  else
    match json_body req with
    | inl _ => None
    | inr body =>
        match createClient svc (env_get svc "SUPABASE_URL")
                (env_get svc "SUPABASE_SERVICE_ROLE_KEY") with
        | Some _ => None
        | None =>
            let created :=
              insert_conversation svc (substring 0 50 (message body)) w in
            let reuse := truthy (conversationId body) in
            let w0 := if reuse then w else snd created in
            match (if reuse then inr (or_else (conversationId body) "")
                   else fst created) with
            | inl _ => None
            | inr conversation =>
                let inserted :=
                  insert_message svc (user_row conversation (message body)) w0 in
                match fst inserted with
                | Some _ => None
                | None =>
                    let selected :=
                      select_messages svc conversation (snd inserted) in
                    match fst selected with
                    | inl _ => None
                    | inr history =>
                        Some (body, conversation, history, snd selected)
                    end
                end
            end
        end
    end.

(** A text of ASCII characters only: one byte and one UTF-16 code
    unit each, so that positions in it are the same in both. *)
Definition ascii_only (text : string) : Prop :=
  Forall (fun c => nat_of_ascii c < 128) (list_ascii_of_string text).

(** The failure response, after the events [pre]. *)
Definition failed {W} (e : Exn) (pre : list Event) (w : W) : Run W Response :=
  {| result := Returned (Failure500 (message_of e));
     world := w;
     trace := (pre ++ [EvConsoleError e])%list |}.

(** The handler written out by cases, each with the events that lead
    to it (shown equal to [handler] below). *)
Definition turn_outcome {W} (svc : Services W) (req : Request) (w : W)
  : Run W Response :=
  if method req =? "OPTIONS" then
    {| result := Returned Preflight; world := w; trace := [] |}
  else
    match json_body req with
    | inl e => failed e [] w
    | inr body =>
        match createClient svc (env_get svc "SUPABASE_URL")
                (env_get svc "SUPABASE_SERVICE_ROLE_KEY") with
        | Some e => failed e [] w
        | None =>
            let title := substring 0 50 (message body) in
            let created := insert_conversation svc title w in
            let reuse := truthy (conversationId body) in
            let pre :=
              if reuse then [] else [EvInsertConversation title (fst created)] in
            let w0 := if reuse then w else snd created in
            match (if reuse then inr (or_else (conversationId body) "")
                   else fst created) with
            | inl e => failed e pre w0
            | inr conversation =>
                let row := user_row conversation (message body) in
                let inserted := insert_message svc row w0 in
                match fst inserted with
                | Some e =>
                    failed e (pre ++ [EvInsertMessage row (Some e)])%list
                      (snd inserted)
                | None =>
                    let selected :=
                      select_messages svc conversation (snd inserted) in
                    match fst selected with
                    | inl e =>
                        failed e
                          (pre ++ [EvInsertMessage row None;
                                   EvSelectMessages conversation (inl e)])%list
                          (snd selected)
                    | inr history =>
                        prepend
                          (pre ++ [EvInsertMessage row None;
                                   EvSelectMessages conversation (inr history)])
                          (closing svc conversation
                             (runAgent svc history (snd selected)))
                    end
                end
            end
        end
    end.

(** A message that the hook puts on display. *)
Definition on_display (m : Chat.Message) : Prop :=
  Chat.shown (Chat.role m) = true.

(** A store call of the opening of a turn that has failed with [e]. *)
Definition store_failure (e : Exn) (ev : Event) : Prop :=
  match ev with
  | EvInsertConversation _ (inl e') => e' = e
  | EvInsertMessage row (Some e') => row_role row = user /\ e' = e
  | EvSelectMessages _ (inl e') => e' = e
  | _ => False
  end.

End Shape.

(* ================================================================== *)
(** ** Properties *)

Module Properties.
Import JS Agent Spec.
Local Open Scope string_scope.

(** *** The JSON reader on examples *)

Example parse_query :
  JSON.parse ("{" ++ dq ++ "query" ++ dq ++ ": " ++ dq ++ "weather in Paris today" ++ dq ++ "}")
  = inr (JS.JObject [("query", JS.JString "weather in Paris today")]).
Proof. vm_compute. reflexivity. Qed.

Example parse_nested :
  JSON.parse (" [1, -2.5e+3, {" ++ dq ++ "a" ++ dq ++ ":[true,false,null], "
              ++ dq ++ "b\u0041" ++ dq ++ ":" ++ dq ++ "x\ny" ++ dq ++ "}] ")
  = inr (JS.JArray [JS.JNumber "1"; JS.JNumber "-2.5e+3";
        JS.JObject [("a", JS.JArray [JS.JBool true; JS.JBool false; JS.JNull]);
                    ("bA", JS.JString ("x" ++ JS.newline ++ "y"))]]).
Proof. vm_compute. reflexivity. Qed.

Example parse_rejects :
  forall text,
    In text ["{"; "{" ++ dq ++ "query" ++ dq ++ ": }"; "01"; ""; "[1,]"; "{} x"; dq ++ "open"] ->
    exists m, JSON.parse text = inl m.
Proof.
  intros text H. simpl in H.
  repeat (destruct H as [<- | H]; [eexists; vm_compute; reflexivity |]).
  contradiction.
Qed.

Example parse_null : JSON.parse "null" = inr JS.JNull.
Proof. vm_compute. reflexivity. Qed.

(** *** The scenarios, run *)

Example greeting_run :
  runAgent Stub.both_keys [Stub.user_says "Hello"]
    (Stub.world_of [Stub.answers "Hi there!"] [])
  = {| result := Returned [ {| role := assistant; content := "Hi there!";
                               tool_calls := None; tool_call_id := None |} ];
       world := Stub.world_of [] [];
       trace :=
         [ EvCompletion
             {| OpenAI.authorization := "Bearer sk-test";
                OpenAI.model := "gpt-4o-mini";
                OpenAI.messages := [systemMessage; Stub.user_says "Hello"];
                OpenAI.tools := Some tools;
                OpenAI.max_tokens := 1024 |}
             (Stub.answers "Hi there!") ] |}.
Proof. vm_compute. reflexivity. Qed.

Example weather_run :
  result (runAgent Stub.both_keys Stub.weather_history Stub.weather_world)
  = Returned Stub.weather_output.
Proof. vm_compute. reflexivity. Qed.

Example missing_search_key_run :
  result (runAgent (Stub.services (Some "sk-test") None)
            Stub.weather_history Stub.weather_world)
  = Returned [ {| role := assistant; content := "";
                  tool_calls := tool_calls (hd systemMessage Stub.weather_output);
                  tool_call_id := None |};
               {| role := tool; content := missingTavilyKey;
                  tool_calls := None; tool_call_id := Some "call_1" |};
               {| role := assistant; content := "It's 18C and cloudy [1].";
                  tool_calls := None; tool_call_id := None |} ].
Proof. vm_compute. reflexivity. Qed.

Example search_faults_run :
  forall fault text,
    In (fault, text)
       [ (Tavily.NotOk 429, "Search error: Tavily API error: 429");
         (Tavily.Throws (TypeError "error sending request"),
          "Search error: error sending request");
         (Tavily.Data None, "No search results found.");
         (Tavily.Data (Some []), "No search results found.") ] ->
    result (webSearch Stub.both_keys (Some (JString "rocq"))
              (Stub.world_of [] [fault]))
    = Returned text.
Proof.
  intros fault text H. simpl in H.
  repeat (destruct H as [H | H]; [injection H as <- <-; vm_compute; reflexivity|]).
  contradiction.
Qed.

Example cap_run :
  let r := runAgent Stub.both_keys [Stub.user_says "Keep looking"]
             Stub.looping_world in
  completion_calls (trace r) = 5
  /\ tool_invocations (trace r) = 5
  /\ option_map (fun out => length out) (match result r with
                                          | Returned out => Some out
                                          | _ => None
                                          end) = Some 10.
Proof. vm_compute. repeat split. Qed.

(** *** Counting events *)

Lemma completion_calls_app t1 t2 :
  completion_calls (t1 ++ t2) = completion_calls t1 + completion_calls t2.
Proof. unfold completion_calls. now rewrite filter_app, length_app. Qed.

Lemma tool_invocations_app t1 t2 :
  tool_invocations (t1 ++ t2) = tool_invocations t1 + tool_invocations t2.
Proof. unfold tool_invocations. now rewrite filter_app, length_app. Qed.

Lemma rows_inserted_app t1 t2 :
  rows_inserted (t1 ++ t2) = (rows_inserted t1 ++ rows_inserted t2)%list.
Proof.
  induction t1 as [|e t1 IH]; simpl; [reflexivity|].
  destruct e; simpl; now rewrite ?IH.
Qed.

Lemma no_completion_in t request reply :
  completion_calls t = 0 -> ~ In (EvCompletion request reply) t.
Proof.
  unfold completion_calls. intros H Hin.
  assert (Hf : In (EvCompletion request reply) (filter is_completion t))
    by (apply filter_In; split; [assumption | reflexivity]).
  destruct (filter is_completion t); [contradiction | discriminate].
Qed.

Lemma agent_events_insert_nothing t :
  Forall agent_event t -> rows_inserted t = [].
Proof.
  induction 1 as [|e t He _ IH]; [reflexivity|].
  destruct e; cbn in *; try contradiction; assumption.
Qed.

Lemma agent_events_select_nothing t conversation outcome :
  Forall agent_event t -> ~ In (EvSelectMessages conversation outcome) t.
Proof.
  intros H Hin. rewrite Forall_forall in H. exact (H _ Hin).
Qed.

Lemma opening_events_call_no_completion t :
  Forall opening_event t -> completion_calls t = 0.
Proof.
  induction 1 as [|e t He _ IH]; [reflexivity|].
  destruct e; cbn in *; try contradiction; assumption.
Qed.

Lemma opening_events_select_nothing t conversation history :
  Forall opening_event t -> ~ In (EvSelectMessages conversation (inr history)) t.
Proof.
  intros H Hin. rewrite Forall_forall in H. exact (H _ Hin).
Qed.

Lemma opening_events_rows t :
  Forall opening_event t -> Forall (fun row => row_role row = user) (rows_inserted t).
Proof.
  induction 1 as [|e t He _ IH]; [constructor|].
  destruct e; cbn in *; try contradiction; try assumption.
  now constructor.
Qed.

Lemma insert_events_call_no_completion t :
  Forall (fun e => exists row error, e = EvInsertMessage row error) t ->
  completion_calls t = 0
  /\ forall conversation outcome, ~ In (EvSelectMessages conversation outcome) t.
Proof.
  intros H. split.
  - induction H as [|e t (row & error & ->) _ IH]; [reflexivity | assumption].
  - intros c o Hin. rewrite Forall_forall in H.
    destruct (H _ Hin) as (row & error & Heq). discriminate.
Qed.

(** *** The response text *)

Lemma pop_snoc {A} (l : list A) (x : A) : pop (l ++ [x]) = Some x.
Proof.
  induction l as [|y l IH]; [reflexivity|].
  cbn [app pop]. rewrite IH. destruct (l ++ [x])%list eqn:E; [|reflexivity].
  now destruct l.
Qed.

Lemma filter_not_tool tail :
  Forall is_tool tail ->
  filter (fun m => Role_eqb (role m) assistant) tail = [].
Proof.
  induction 1 as [|m tail Hm _ IH]; [reflexivity|].
  cbn [filter]. unfold is_tool in Hm. now rewrite Hm.
Qed.

(** The response text is read off the last assistant message of the
    output, whatever tool messages follow it. *)
Lemma responseText_last_assistant front m tail :
  role m = assistant -> Forall is_tool tail ->
  responseText (front ++ m :: tail)
  = if content m =? "" then fallbackResponse else content m.
Proof.
  intros Hm Htail. unfold responseText.
  rewrite filter_app. cbn [filter]. rewrite Hm. cbn [Role_eqb].
  rewrite (filter_not_tool tail Htail).
  now rewrite pop_snoc.
Qed.

(** *** The monad *)

Section Monad.
Context {W : Type}.

Lemma bind_returned {A B} (m : M W A) (k : A -> M W B) w a :
  result (m w) = Returned a ->
  bind m k w = prepend (trace (m w)) (k a (world (m w))).
Proof. intros H. unfold bind, prepend. now rewrite H. Qed.

Lemma bind_thrown {A B} (m : M W A) (k : A -> M W B) w e :
  result (m w) = Thrown e ->
  bind m k w = {| result := Thrown e; world := world (m w); trace := trace (m w) |}.
Proof. intros H. unfold bind. now rewrite H. Qed.

Lemma bind_out_of_fuel {A B} (m : M W A) (k : A -> M W B) w :
  result (m w) = OutOfFuel ->
  bind m k w = {| result := OutOfFuel; world := world (m w); trace := trace (m w) |}.
Proof. intros H. unfold bind. now rewrite H. Qed.

Lemma bind_ret {A B} (a : A) (k : A -> M W B) w :
  bind (ret a) k w = k a w.
Proof. unfold bind, ret. simpl. now destruct (k a w). Qed.

Lemma bind_call {A B} (ev : A -> Event) (service : W -> A * W)
    (k : A -> M W B) w :
  bind (call ev service) k w
  = prepend [ev (fst (service w))] (k (fst (service w)) (snd (service w))).
Proof. reflexivity. Qed.

Lemma bind_throw {A B} (e : Exn) (k : A -> M W B) w :
  bind (throw e) k w = {| result := Thrown e; world := w; trace := [] |}.
Proof. reflexivity. Qed.

Lemma bind_bind {A B C} (m : M W A) (f : A -> M W B) (g : B -> M W C) w :
  bind (bind m f) g w = bind m (fun x => bind (f x) g) w.
Proof.
  unfold bind. destruct (result (m w)) as [a| |]; cbn [result world trace];
    try reflexivity.
  destruct (result (f a (world (m w)))); cbn [result world trace];
    try reflexivity.
  now rewrite app_assoc.
Qed.

Lemma try_catch_run {A} (m : M W A) (handler : Exn -> M W A) w :
  try_catch m handler w
  = match result (m w) with
    | Thrown e => prepend (trace (m w)) (handler e (world (m w)))
    | _ => m w
    end.
Proof. reflexivity. Qed.

Lemma prepend_nil {A} (r : Run W A) : prepend [] r = r.
Proof. now destruct r. Qed.

Lemma prepend_prepend {A} t1 t2 (r : Run W A) :
  prepend t1 (prepend t2 r) = prepend (t1 ++ t2) r.
Proof. unfold prepend. simpl. now rewrite app_assoc. Qed.

End Monad.

(** Membership in a list that is written out. *)
Ltac find_in := repeat (first [left; reflexivity | right]).

Ltac run_step :=
  unfold bind, try_catch, call, log, lift, ret, throw, out_of_fuel, prepend;
  simpl.

(** *** The tools *)

Section Tools.
Context {W : Type} (svc : Services W).

(** [webSearch] returns a text whatever the search provider does,
    and calls neither the completion provider nor [executeTool]. *)
Lemma webSearch_returns query w :
  (exists text, result (webSearch svc query w) = Returned text)
  /\ completion_calls (trace (webSearch svc query w)) = 0
  /\ tool_invocations (trace (webSearch svc query w)) = 0
  /\ Forall agent_event (trace (webSearch svc query w)).
Proof.
  unfold webSearch.
  destruct (truthy (env_get svc "TAVILY_API_KEY")); simpl.
  - run_step.
    destruct (fst (tavily_fetch svc _ w)) as [e | status | [results|]]; simpl;
      try destruct (Nat.eqb (length results) 0); simpl;
      (split; [eexists; reflexivity|]; split; [reflexivity|];
       split; [reflexivity|]; repeat constructor).
  - run_step.
    split; [eexists; reflexivity|]. split; [reflexivity|].
    split; [reflexivity|]. constructor.
Qed.

Lemma executeTool_unknown name args w :
  name <> "web_search" ->
  executeTool svc name args w
  = {| result := Returned ("Unknown tool: " ++ name);
       world := w;
       trace := [EvExecuteTool name args] |}.
Proof.
  intros H. unfold executeTool.
  destruct (String.eqb_spec name "web_search") as [E|_]; [contradiction|].
  reflexivity.
Qed.

(** [executeTool] throws only on [args.query] with [args] null. *)
Lemma executeTool_returns name args w :
  args <> JNull ->
  exists text, result (executeTool svc name args w) = Returned text.
Proof.
  intros Hargs. unfold executeTool.
  destruct (String.eqb_spec name "web_search") as [E|_]; [|run_step; eauto].
  destruct args; try contradiction; run_step;
    match goal with
    | |- context [webSearch svc ?q w] =>
        destruct (webSearch_returns q w) as [[text Htext] _]
    end;
    rewrite Htext; simpl; eauto.
Qed.

Lemma executeTool_trace name args w :
  result (executeTool svc name args w) <> OutOfFuel
  /\ completion_calls (trace (executeTool svc name args w)) = 0
  /\ tool_invocations (trace (executeTool svc name args w)) = 1
  /\ Forall agent_event (trace (executeTool svc name args w)).
Proof.
  unfold executeTool.
  destruct (String.eqb_spec name "web_search") as [E|_];
    [|run_step; split; [discriminate|]; split; [reflexivity|];
      split; [reflexivity|]; repeat constructor].
  destruct args; run_step;
    try (split; [discriminate|]; split; [reflexivity|];
         split; [reflexivity|]; repeat constructor);
    match goal with
    | |- context [webSearch svc ?q w] =>
        destruct (webSearch_returns q w) as [[text Htext] [Hc [Ht Hr]]]
    end;
    rewrite Htext; unfold completion_calls, tool_invocations in *; simpl;
    rewrite ?Hc, ?Ht;
    (split; [discriminate|]; split; [reflexivity|];
     split; [reflexivity|]; constructor; [exact I | exact Hr]).
Qed.

End Tools.

(** *** The completion client *)

Section Completion.
Context {W : Type} (svc : Services W).

Lemma callOpenAI_without_key messages includeTools w :
  truthy (env_get svc "OPENAI_API_KEY") = false ->
  callOpenAI svc messages includeTools w
  = {| result := Returned ({| role := assistant;
                              content := missingOpenAIKey;
                              tool_calls := None;
                              tool_call_id := None |}, "stop");
       world := w;
       trace := [] |}.
Proof. intros H. unfold callOpenAI. rewrite H. reflexivity. Qed.

Lemma callOpenAI_with_key messages includeTools w :
  truthy (env_get svc "OPENAI_API_KEY") = true ->
  callOpenAI svc messages includeTools w
  = {| result :=
         reply_result
           (fst (openai_fetch svc (request_for svc messages includeTools) w));
       world := snd (openai_fetch svc (request_for svc messages includeTools) w);
       trace :=
         [EvCompletion (request_for svc messages includeTools)
            (fst (openai_fetch svc (request_for svc messages includeTools) w))] |}.
Proof.
  intros H. unfold callOpenAI, request_for. rewrite H.
  cbn [negb]. unfold bind, call. cbn [result world trace].
  destruct (fst (openai_fetch svc _ w)); reflexivity.
Qed.

(** [callOpenAI] posts at most one request, runs no tool, and what
    it returns is an assistant message. *)
Lemma callOpenAI_facts messages includeTools w :
  result (callOpenAI svc messages includeTools w) <> OutOfFuel
  /\ completion_calls (trace (callOpenAI svc messages includeTools w)) <= 1
  /\ tool_invocations (trace (callOpenAI svc messages includeTools w)) = 0
  /\ Forall agent_event (trace (callOpenAI svc messages includeTools w))
  /\ forall reply,
       result (callOpenAI svc messages includeTools w) = Returned reply ->
       role (fst reply) = assistant /\ tool_call_id (fst reply) = None.
Proof.
  destruct (truthy (env_get svc "OPENAI_API_KEY")) eqn:Hkey.
  - rewrite (callOpenAI_with_key messages includeTools w Hkey).
    cbn [result trace].
    split; [destruct (fst (openai_fetch svc _ w)); discriminate|].
    split; [unfold completion_calls; simpl; lia|].
    split; [reflexivity|]. split; [repeat constructor|].
    intros reply Hr.
    destruct (fst (openai_fetch svc _ w)); simpl in Hr; try discriminate.
    injection Hr as <-. split; reflexivity.
  - rewrite (callOpenAI_without_key messages includeTools w Hkey).
    cbn [result trace].
    split; [discriminate|]. split; [unfold completion_calls; simpl; lia|].
    split; [reflexivity|]. split; [constructor|].
    intros reply Hr. injection Hr as <-. split; reflexivity.
Qed.

End Completion.

(** *** The pairing check *)

Section Pairing.

Lemma pairing_app ms1 : forall pending ms2,
  pairing pending (ms1 ++ ms2)
  = match pairing pending ms1 with
    | Some pending' => pairing pending' ms2
    | None => None
    end.
Proof.
  induction ms1 as [|m ms1 IH]; intros pending ms2; [reflexivity|].
  cbn [app pairing].
  destruct (role m), pending as [|call pending']; try reflexivity;
    try apply IH.
  destruct (answers_id call m); [apply IH | reflexivity].
Qed.

Lemma answer_answers_id call m : answer call m -> answers_id call m = true.
Proof.
  intros (_ & Hid & _). unfold answers_id. rewrite Hid. apply String.eqb_refl.
Qed.

Lemma answers_id_sound call m :
  answers_id call m = true -> tool_call_id m = id_of call.
Proof.
  unfold answers_id, id_of. destruct (tool_call_id m) as [i|]; [|discriminate].
  intros H. apply String.eqb_eq in H. now subst.
Qed.

(** The answers to [calls], in order, consume exactly [calls]. *)
Lemma pairing_answers calls : forall toolMessages pending,
  Forall2 answer calls toolMessages ->
  pairing (calls ++ pending) toolMessages = Some pending.
Proof.
  induction calls as [|call calls IH]; intros toolMessages pending H;
    inversion H as [|? m ? rest Hm Hrest]; subst; [reflexivity|].
  cbn [app pairing]. destruct Hm as (Hrole & Hid & Hcalls).
  rewrite Hrole, (answer_answers_id call m) by (repeat split; assumption).
  now apply IH.
Qed.

Lemma no_tool_calls_calls_of m : no_tool_calls m = true -> calls_of m = [].
Proof.
  unfold no_tool_calls, calls_of. destruct (tool_calls m) as [[|c cs]|];
    [reflexivity | discriminate | reflexivity].
Qed.

(** In a sequence that the check does not reject, a tool message
    that follows [pending] tool messages answers the call at its
    place. *)
Lemma pairing_nth between : forall pending t rest,
  Forall is_tool between -> is_tool t ->
  pairing pending (between ++ t :: rest) <> None ->
  exists call,
    nth_error pending (length between) = Some call
    /\ tool_call_id t = id_of call.
Proof.
  induction between as [|b between IH]; intros pending t rest Hall Ht Hp.
  - cbn [app pairing length] in *. rewrite Ht in Hp.
    destruct pending as [|call pending']; [contradiction|].
    destruct (answers_id call t) eqn:E; [|contradiction].
    exists call. split; [reflexivity | now apply answers_id_sound].
  - inversion Hall as [|? ? Hb Hall']; subst.
    cbn [app pairing length] in *. rewrite Hb in Hp.
    destruct pending as [|call pending']; [contradiction|].
    destruct (answers_id call b); [|contradiction].
    cbn [nth_error]. now apply (IH pending' t rest).
Qed.

(** A maximal run of tool messages, in an accepted sequence, answers
    all the pending calls. *)
Lemma pairing_run run : forall pending rest,
  Forall is_tool run ->
  (forall m, hd_error rest = Some m -> ~ is_tool m) ->
  pairing pending (run ++ rest) = Some [] ->
  map tool_call_id run = map id_of pending.
Proof.
  induction run as [|t run IH]; intros pending rest Hall Hrest Hp.
  - cbn [app map] in *. destruct rest as [|m rest'].
    + cbn in Hp. injection Hp as ->. reflexivity.
    + cbn [pairing] in Hp. specialize (Hrest m eq_refl). unfold is_tool in Hrest.
      destruct (role m), pending; try discriminate; try reflexivity.
      contradiction.
  - inversion Hall as [|? ? Ht Hall']; subst.
    cbn [app pairing] in Hp. rewrite Ht in Hp.
    destruct pending as [|call pending']; [discriminate|].
    destruct (answers_id call t) eqn:E; [|discriminate].
    cbn [map]. f_equal; [now apply answers_id_sound|].
    now apply (IH pending' rest).
Qed.

Lemma pairing_after_assistant front a rest :
  role a = assistant ->
  pairing [] (front ++ a :: rest) = Some [] ->
  pairing (calls_of a) rest = Some [].
Proof.
  intros Ha H. rewrite pairing_app in H.
  destruct (pairing [] front) as [pending|]; [|discriminate].
  cbn [pairing] in H. rewrite Ha in H. now destruct pending.
Qed.

End Pairing.

(** *** What [Reach] preserves *)

Section Reaching.

Lemma Reach_iterations st st' :
  Reach st st' ->
  iterations st <= iterations st'
  /\ (iterations st <= maxIterations -> iterations st' <= maxIterations)
  /\ (iterations st < maxIterations -> iterations st < iterations st').
Proof.
  induction 1 as [st H | st m H | st m tms st' H Ha Hid Hc Hans _ IH];
    cbn [iterations] in *; lia.
Qed.

Lemma Reach_pairing st st' :
  Reach st st' ->
  pairing [] (newMessages st) = Some [] ->
  pairing [] (newMessages st') = Some [].
Proof.
  induction 1 as [st H | st m H Ha Hid Hc | st m tms st' H Ha Hid Hc Hans _ IH];
    cbn [newMessages] in *; intros Hp.
  - assumption.
  - rewrite pairing_app, Hp. cbn [pairing]. rewrite Ha.
    now rewrite no_tool_calls_calls_of.
  - apply IH. rewrite pairing_app, Hp. cbn [pairing]. rewrite Ha.
    rewrite <- (app_nil_r (calls_of m)). now apply pairing_answers.
Qed.

Lemma Reach_roles st st' :
  Reach st st' ->
  Forall produced_role (newMessages st) ->
  Forall produced_role (newMessages st').
Proof.
  induction 1 as [st H | st m H Ha Hid Hc | st m tms st' H Ha Hid Hc Hans _ IH];
    cbn [newMessages] in *; intros Hall.
  - assumption.
  - apply Forall_app. split; [assumption|]. constructor; [now left | constructor].
  - apply IH. apply Forall_app. split; [assumption|].
    constructor; [now left|].
    clear -Hans. induction Hans as [|c t cs ts Hct _ IHs]; constructor;
      [right; apply Hct | assumption].
Qed.

(** The working transcript is the base followed by the output,
    except that the answer on which the loop breaks is in the
    output only. *)
Lemma Reach_position base st st' :
  Reach st st' ->
  conversationMessages st = (base ++ newMessages st)%list ->
  conversationMessages st' = (base ++ newMessages st')%list
  \/ exists front final,
       newMessages st' = (front ++ [final])%list
       /\ conversationMessages st' = (base ++ front)%list
       /\ no_tool_calls final = true.
Proof.
  induction 1 as [st H | st m H Ha Hid Hc | st m tms st' H Ha Hid Hc Hans _ IH];
    cbn [newMessages conversationMessages] in *; intros Hbase.
  - now left.
  - right. exists (newMessages st), m. repeat split; assumption.
  - apply IH. now rewrite Hbase, <- app_assoc.
Qed.

(** Past the first round the output holds an assistant message that
    only tool messages follow. *)
Lemma Reach_last_assistant st st' :
  Reach st st' ->
  iterations st < maxIterations ->
  exists front m tail,
    newMessages st' = (front ++ m :: tail)%list
    /\ role m = assistant /\ Forall is_tool tail.
Proof.
  induction 1 as [st H | st m H Ha Hid Hc | st m tms st' H Ha Hid Hc Hans Hreach IH];
    cbn [newMessages iterations] in *; intros Hlt.
  - lia.
  - exists (newMessages st), m, []. repeat split; [assumption | constructor].
  - destruct (Nat.lt_ge_cases (S (iterations st)) maxIterations) as [Hmore|Hcap].
    + now apply IH.
    + inversion Hreach as [? _ | ? ? Hlt' | ? ? ? ? Hlt']; subst;
        cbn [iterations] in *; try lia.
      cbn [newMessages]. exists (newMessages st), m, tms.
      repeat split; [assumption|].
      clear -Hans. induction Hans as [|c t cs ts Hct _ IHs]; constructor;
        [apply Hct | assumption].
Qed.

End Reaching.

(** *** The loop *)

Section Loop.
Context {W : Type} (svc : Services W).

(** The tool message pushed for [toolCall] when its tool returned
    [text]. *)
Lemma executeToolCalls_cons toolCall rest st w :
  executeToolCalls svc (toolCall :: rest) st w
  = match JSON_parse svc (arguments (function toolCall)) with
    | inl m => {| result := Thrown (SyntaxError m); world := w; trace := [] |}
    | inr args =>
        let r := executeTool svc (name (function toolCall)) args w in
        match result r with
        | Returned text =>
            prepend (trace r)
              (executeToolCalls svc rest
                 (push_both {| role := tool;
                               content := text;
                               tool_calls := None;
                               tool_call_id := Some (id toolCall) |} st)
                 (world r))
        | Thrown e => {| result := Thrown e; world := world r; trace := trace r |}
        | OutOfFuel => {| result := OutOfFuel; world := world r; trace := trace r |}
        end
    end.
Proof.
  cbn [executeToolCalls].
  destruct (JSON_parse svc (arguments (function toolCall))) as [m|args].
  - reflexivity.
  - cbn [lift]. rewrite bind_ret. unfold bind at 1.
    destruct (result (executeTool svc (name (function toolCall)) args w));
      reflexivity.
Qed.

(** The [for] loop calls no completion, enters [executeTool] once
    per call at most, and when it completes it has pushed one
    answer per call, in order, to both arrays. *)
Lemma executeToolCalls_facts calls : forall st w,
  let r := executeToolCalls svc calls st w in
  result r <> OutOfFuel
  /\ completion_calls (trace r) = 0
  /\ tool_invocations (trace r) <= length calls
  /\ Forall agent_event (trace r)
  /\ forall st', result r = Returned st' ->
       tool_invocations (trace r) = length calls
       /\ exists toolMessages,
           Forall2 answer calls toolMessages
           /\ st' = {| iterations := iterations st;
                       conversationMessages :=
                         (conversationMessages st ++ toolMessages)%list;
                       newMessages := (newMessages st ++ toolMessages)%list |}.
Proof.
  induction calls as [|toolCall rest IH]; intros st w r; subst r.
  - cbn. split; [discriminate|]. do 2 (split; [reflexivity || lia|]).
    split; [constructor|].
    intros st' H. injection H as <-. split; [reflexivity|].
    exists []. split; [constructor|]. rewrite !app_nil_r. now destruct st.
  - rewrite executeToolCalls_cons.
    destruct (JSON_parse svc (arguments (function toolCall))) as [m|args].
    + cbn. split; [discriminate|]. do 2 (split; [reflexivity || lia|]).
      split; [constructor|]. discriminate.
    + cbv zeta.
      destruct (executeTool_trace svc (name (function toolCall)) args w)
        as (Hfuel & Hc & Ht & Hev).
      destruct (result (executeTool svc (name (function toolCall)) args w))
        as [text| e |] eqn:Hres; [| |contradiction].
      * set (st1 := push_both _ st).
        specialize (IH st1 (world (executeTool svc (name (function toolCall)) args w))).
        cbv zeta in IH. destruct IH as (IHf & IHc & IHt & IHev & IHret).
        unfold prepend. cbn [result trace].
        rewrite completion_calls_app, tool_invocations_app.
        rewrite Hc, Ht, IHc. cbn [length].
        split; [assumption|]. split; [reflexivity|]. split; [lia|].
        split; [apply Forall_app; now split|].
        intros st' H. destruct (IHret st' H) as (Hn & toolMessages & Hans & ->).
        split; [lia|].
        exists ({| role := tool; content := text; tool_calls := None;
                   tool_call_id := Some (id toolCall) |} :: toolMessages).
        split.
        { constructor; [|exact Hans]. repeat split. }
        subst st1. unfold push_both. cbn [iterations conversationMessages newMessages].
        now rewrite <- !app_assoc.
      * cbn [result trace]. rewrite Hc, Ht. cbn [length].
        split; [discriminate|]. split; [reflexivity|]. split; [lia|].
        split; [assumption|]. discriminate.
Qed.

(** One round of the [while] loop. *)
Lemma agentLoop_step fuel st w :
  agentLoop svc (S fuel) st w
  = if Nat.ltb (iterations st) maxIterations then
      let r := callOpenAI svc (conversationMessages st) true w in
      match result r with
      | Returned reply =>
          if no_tool_calls (fst reply) then
            {| result :=
                 Returned {| iterations := S (iterations st);
                             conversationMessages := conversationMessages st;
                             newMessages := (newMessages st ++ [fst reply])%list |};
               world := world r;
               trace := trace r |}
          else
            prepend (trace r)
              (bind (executeToolCalls svc (calls_of (fst reply))
                       (entering (fst reply) st))
                    (agentLoop svc fuel) (world r))
      | Thrown e => {| result := Thrown e; world := world r; trace := trace r |}
      | OutOfFuel => {| result := OutOfFuel; world := world r; trace := trace r |}
      end
    else {| result := Returned st; world := w; trace := [] |}.
Proof.
  cbn [agentLoop].
  destruct (Nat.ltb (iterations st) maxIterations); [|reflexivity].
  cbv zeta. unfold bind at 1.
  destruct (result (callOpenAI svc (conversationMessages st) true w))
    as [reply| |]; try reflexivity.
  destruct (no_tool_calls (fst reply)); [|reflexivity].
  unfold ret. cbn [result world trace]. now rewrite app_nil_r.
Qed.

Lemma agentLoop_at_cap fuel st w :
  maxIterations <= iterations st ->
  agentLoop svc fuel st w = {| result := Returned st; world := w; trace := [] |}.
Proof.
  intros H. destruct fuel; cbn [agentLoop];
    destruct (Nat.ltb_spec (iterations st) maxIterations); try lia; reflexivity.
Qed.

(** With fuel for the rounds that are left the loop ends, having
    called the completion provider once per round at most, and its
    final state is one that [Reach] describes. *)
Lemma agentLoop_facts fuel : forall st w,
  maxIterations - iterations st <= fuel ->
  let r := agentLoop svc fuel st w in
  result r <> OutOfFuel
  /\ completion_calls (trace r) <= maxIterations - iterations st
  /\ Forall agent_event (trace r)
  /\ forall st', result r = Returned st' -> Reach st st'.
Proof.
  induction fuel as [|fuel IH]; intros st w Hfuel r; subst r.
  - rewrite agentLoop_at_cap by lia. cbn.
    split; [discriminate|]. split; [lia|]. split; [constructor|].
    intros st' H. injection H as <-. apply reach_cap. lia.
  - rewrite agentLoop_step.
    destruct (Nat.ltb_spec (iterations st) maxIterations) as [Hlt|Hge].
    2:{ cbn. split; [discriminate|]. split; [lia|]. split; [constructor|].
        intros st' H. injection H as <-. now apply reach_cap. }
    cbv zeta.
    destruct (callOpenAI_facts svc (conversationMessages st) true w)
      as (Hf & Hc & _ & Hev & Hrole).
    destruct (result (callOpenAI svc (conversationMessages st) true w))
      as [reply| e |] eqn:Hres; [| |contradiction].
    2:{ cbn [result trace]. split; [discriminate|]. split; [lia|].
        split; [assumption|]. discriminate. }
    destruct (Hrole reply eq_refl) as [Hassistant Hid].
    destruct (no_tool_calls (fst reply)) eqn:Hcalls.
    + cbn [result trace]. split; [discriminate|]. split; [lia|].
      split; [assumption|].
      intros st' H. injection H as <-. now apply reach_break.
    + set (w1 := world (callOpenAI svc (conversationMessages st) true w)).
      destruct (executeToolCalls_facts
                  (calls_of (fst reply)) (entering (fst reply) st) w1)
        as (Tf & Tc & _ & Tev & Tret).
      unfold bind.
      destruct (result (executeToolCalls svc (calls_of (fst reply))
                          (entering (fst reply) st) w1))
        as [st1| e |] eqn:Htools; [| |contradiction].
      2:{ unfold prepend. cbn [result trace].
          rewrite completion_calls_app, Tc.
          split; [discriminate|]. split; [lia|].
          split; [apply Forall_app; now split|].
          discriminate. }
      destruct (Tret st1 eq_refl) as (_ & toolMessages & Hans & Hst1).
      assert (Hit : iterations st1 = S (iterations st)) by (now subst st1).
      destruct (IH st1 (world (executeToolCalls svc (calls_of (fst reply))
                                 (entering (fst reply) st) w1)))
        as (If & Ic & Iev & Iret); [lia|].
      unfold prepend. cbn [result trace].
      rewrite !completion_calls_app, Tc.
      split; [assumption|]. split; [lia|].
      split; [repeat (apply Forall_app; split); assumption|].
      intros st' H.
      apply (reach_round st (fst reply) toolMessages st'); try assumption.
      specialize (Iret st' H). subst st1.
      unfold entering, push_both in Iret.
      cbn [iterations conversationMessages newMessages] in Iret.
      now rewrite <- !app_assoc in Iret.
Qed.

(** More fuel than the rounds that are left changes nothing. *)
Lemma agentLoop_fuel fuel1 : forall fuel2 st w,
  maxIterations - iterations st <= fuel1 ->
  maxIterations - iterations st <= fuel2 ->
  agentLoop svc fuel1 st w = agentLoop svc fuel2 st w.
Proof.
  induction fuel1 as [|fuel1 IH]; intros fuel2 st w H1 H2.
  - now rewrite !agentLoop_at_cap by lia.
  - destruct (Nat.ltb_spec (iterations st) maxIterations) as [Hlt|Hge].
    2:{ now rewrite !agentLoop_at_cap by lia. }
    destruct fuel2 as [|fuel2]; [lia|].
    rewrite !agentLoop_step.
    destruct (Nat.ltb (iterations st) maxIterations); [|reflexivity].
    cbv zeta.
    destruct (result (callOpenAI svc (conversationMessages st) true w))
      as [reply| e |]; try reflexivity.
    destruct (no_tool_calls (fst reply)); [reflexivity|].
    f_equal. unfold bind.
    set (w1 := world (callOpenAI svc (conversationMessages st) true w)).
    destruct (executeToolCalls_facts
                (calls_of (fst reply)) (entering (fst reply) st) w1)
      as (_ & _ & _ & _ & Tret).
    destruct (result (executeToolCalls svc (calls_of (fst reply))
                        (entering (fst reply) st) w1))
      as [st1| e |]; try reflexivity.
    destruct (Tret st1 eq_refl) as (_ & toolMessages & _ & Hst1).
    assert (Hit : iterations st1 = S (iterations st)) by (now subst st1).
    now rewrite (IH fuel2 st1) by lia.
Qed.

End Loop.

(** *** The agent *)

Section AgentRun.
Context {W : Type} (svc : Services W).

Lemma runAgent_unfold messages w :
  let r := agentLoop svc maxIterations (initialState messages) w in
  runAgent svc messages w
  = {| result := match result r with
                 | Returned st => Returned (newMessages st)
                 | Thrown e => Thrown e
                 | OutOfFuel => OutOfFuel
                 end;
       world := world r;
       trace := trace r |}.
Proof.
  intros r. unfold runAgent, bind. fold r.
  destruct (result r); try reflexivity.
  unfold ret. cbn [result world trace]. now rewrite app_nil_r.
Qed.

Lemma runAgent_facts messages w :
  let r := runAgent svc messages w in
  result r <> OutOfFuel
  /\ completion_calls (trace r) <= maxIterations
  /\ Forall agent_event (trace r)
  /\ forall out, result r = Returned out ->
       exists st,
         result (agentLoop svc maxIterations (initialState messages) w)
         = Returned st
         /\ out = newMessages st
         /\ Reach (initialState messages) st.
Proof.
  intros r. subst r. rewrite runAgent_unfold. cbv zeta. cbn [result trace].
  destruct (agentLoop_facts svc maxIterations (initialState messages) w)
    as (Hf & Hc & Hev & Hret); [apply Nat.le_sub_l|].
  cbn [iterations initialState] in Hc. rewrite Nat.sub_0_r in Hc.
  destruct (result (agentLoop svc maxIterations (initialState messages) w))
    as [st| e |]; [| |contradiction].
  - split; [discriminate|]. split; [assumption|]. split; [assumption|].
    intros out H. injection H as <-. exists st. repeat split. now apply Hret.
  - split; [discriminate|]. split; [assumption|]. split; [assumption|].
    discriminate.
Qed.

(** When the first reply asks for no tool, the loop is left at once. *)
Lemma runAgent_first_answer messages w reply :
  result (callOpenAI svc (systemMessage :: messages) true w) = Returned reply ->
  no_tool_calls (fst reply) = true ->
  agentLoop svc maxIterations (initialState messages) w
  = {| result := Returned {| iterations := 1;
                             conversationMessages := systemMessage :: messages;
                             newMessages := [fst reply] |};
       world := world (callOpenAI svc (systemMessage :: messages) true w);
       trace := trace (callOpenAI svc (systemMessage :: messages) true w) |}
  /\ runAgent svc messages w
     = {| result := Returned [fst reply];
          world := world (callOpenAI svc (systemMessage :: messages) true w);
          trace := trace (callOpenAI svc (systemMessage :: messages) true w) |}.
Proof.
  intros Hreply Hnone.
  assert (Hloop :
    agentLoop svc maxIterations (initialState messages) w
    = {| result := Returned {| iterations := 1;
                               conversationMessages := systemMessage :: messages;
                               newMessages := [fst reply] |};
         world := world (callOpenAI svc (systemMessage :: messages) true w);
         trace := trace (callOpenAI svc (systemMessage :: messages) true w) |}).
  { change maxIterations with (S 4). rewrite agentLoop_step.
    cbn [initialState iterations conversationMessages newMessages
         Nat.ltb Nat.leb maxIterations app].
    cbv zeta. rewrite Hreply, Hnone. reflexivity. }
  split; [exact Hloop|].
  rewrite runAgent_unfold. cbv zeta. now rewrite Hloop.
Qed.

(** A non-success reply makes [callOpenAI] throw. *)
Lemma callOpenAI_not_ok messages includeTools w request status text :
  In (EvCompletion request (OpenAI.NotOk status text))
     (trace (callOpenAI svc messages includeTools w)) ->
  result (callOpenAI svc messages includeTools w)
  = Thrown (Error ("OpenAI API error: " ++ show_nat status ++ " - " ++ text)).
Proof.
  destruct (truthy (env_get svc "OPENAI_API_KEY")) eqn:Hkey.
  - rewrite (callOpenAI_with_key svc messages includeTools w Hkey).
    cbn [result trace]. intros [H|[]]. injection H as _ H. now rewrite H.
  - rewrite (callOpenAI_without_key svc messages includeTools w Hkey).
    intros [].
Qed.

(** ... and nothing in the loop catches it. *)
Lemma agentLoop_not_ok fuel : forall st w request status text,
  In (EvCompletion request (OpenAI.NotOk status text))
     (trace (agentLoop svc fuel st w)) ->
  result (agentLoop svc fuel st w)
  = Thrown (Error ("OpenAI API error: " ++ show_nat status ++ " - " ++ text)).
Proof.
  induction fuel as [|fuel IH]; intros st w request status text.
  - cbn [agentLoop]. destruct (Nat.ltb (iterations st) maxIterations);
      intros [].
  - rewrite agentLoop_step.
    destruct (Nat.ltb (iterations st) maxIterations); [|intros []].
    cbv zeta.
    pose proof (callOpenAI_not_ok (conversationMessages st) true w
                  request status text) as Hcall.
    destruct (result (callOpenAI svc (conversationMessages st) true w))
      as [reply| e |] eqn:Hres.
    + destruct (no_tool_calls (fst reply)).
      * cbn [result trace]. intros Hin. specialize (Hcall Hin). discriminate.
      * set (w1 := world (callOpenAI svc (conversationMessages st) true w)).
        destruct (executeToolCalls_facts svc
                    (calls_of (fst reply)) (entering (fst reply) st) w1)
          as (_ & Tc & _).
        unfold prepend, bind. cbn [result trace].
        destruct (result (executeToolCalls svc (calls_of (fst reply))
                            (entering (fst reply) st) w1)) as [st1| e |];
          cbn [result trace]; intros Hin;
          repeat (apply in_app_or in Hin; destruct Hin as [Hin|Hin]);
          try (specialize (Hcall Hin); discriminate);
          try (now apply no_completion_in in Hin).
        now apply IH in Hin.
    + cbn [result trace]. intros Hin. specialize (Hcall Hin).
      injection Hcall as ->. reflexivity.
    + cbn [result trace]. intros Hin. specialize (Hcall Hin). discriminate.
Qed.

(** With the key set, the first thing [runAgent] does is to post
    the system message followed by its input. *)
Lemma runAgent_first_event messages w :
  truthy (env_get svc "OPENAI_API_KEY") = true ->
  exists reply rest,
    trace (runAgent svc messages w)
    = EvCompletion (request_for svc (systemMessage :: messages) true) reply
        :: rest.
Proof.
  intros Hkey. rewrite runAgent_unfold. cbv zeta. cbn [trace].
  change maxIterations with (S 4). rewrite agentLoop_step.
  cbn [initialState iterations conversationMessages Nat.ltb Nat.leb maxIterations].
  cbv zeta.
  rewrite (callOpenAI_with_key svc (systemMessage :: messages) true w Hkey).
  cbn [result world trace].
  destruct (reply_result _) as [reply| e |];
    [|do 2 eexists; reflexivity ..].
  destruct (no_tool_calls (fst reply)); do 2 eexists; reflexivity.
Qed.

End AgentRun.

(** *** The handler *)

Section Handler.
Context {W : Type} (svc : Services W).

(** Saving cannot fail: every message is handed to the store, in
    order, and what the store says is dropped. *)
Lemma saveMessages_facts conversation agentMessages : forall w,
  let r := saveMessages svc conversation agentMessages w in
  result r = Returned tt
  /\ rows_inserted (trace r) = map (row_of conversation) agentMessages
  /\ Forall (fun e => exists row error, e = EvInsertMessage row error) (trace r).
Proof.
  induction agentMessages as [|msg rest IH]; intros w r; subst r.
  - cbn. repeat split; constructor.
  - cbn [saveMessages]. rewrite bind_call. unfold prepend.
    cbn [result world trace].
    destruct (IH (snd (insert_message svc (row_of conversation msg) w)))
      as (Hres & Hrows & Hev).
    rewrite Hres. cbn [app rows_inserted map]. rewrite Hrows.
    repeat split. constructor; [eauto | assumption].
Qed.

Lemma handler_cases req w :
  method req <> "OPTIONS" ->
  (exists e pre w',
      handler svc req w
      = {| result := Returned (Failure500 (message_of e));
           world := w';
           trace := (pre ++ [EvConsoleError e])%list |}
      /\ Forall opening_event pre)
  \/ (exists body conversation history w1 pre,
        json_body req = inr body
        /\ handler svc req w
           = prepend (pre ++ [EvInsertMessage
                                (user_row conversation (message body)) None;
                              EvSelectMessages conversation (inr history)])
               (closing svc conversation (runAgent svc history w1))
        /\ (pre = []
            \/ pre = [EvInsertConversation (substring 0 50 (message body))
                        (inr conversation)])).
Proof.
  intros Hmethod. unfold handler.
  destruct (String.eqb_spec (method req) "OPTIONS") as [E|_]; [contradiction|].
  rewrite try_catch_run.
  match goal with |- context [result (?m w)] => set (turn := m w) end.
  assert (Hturn :
    (exists e pre w',
        turn = {| result := Thrown e; world := w'; trace := pre |}
        /\ Forall opening_event pre)
    \/ (exists body conversation history w1 pre,
          json_body req = inr body
          /\ turn
             = prepend (pre ++ [EvInsertMessage
                                  (user_row conversation (message body)) None;
                                EvSelectMessages conversation (inr history)])
                 (bind (runAgent svc history)
                    (fun agentMessages =>
                       bind (saveMessages svc conversation agentMessages)
                         (fun _ =>
                            ret (TurnResponse conversation
                                   (responseText agentMessages)))) w1)
          /\ (pre = []
              \/ pre = [EvInsertConversation (substring 0 50 (message body))
                          (inr conversation)]))).
  { subst turn.
    destruct (json_body req) as [e|body] eqn:Hbody; cbn [lift].
    { left. exists e, [], w. split; [reflexivity | constructor]. }
    rewrite bind_ret.
    destruct (createClient svc (env_get svc "SUPABASE_URL")
                (env_get svc "SUPABASE_SERVICE_ROLE_KEY")) as [e|]; cbn [lift].
    { left. exists e, [], w. split; [reflexivity | constructor]. }
    rewrite bind_ret.
    destruct (truthy (conversationId body)); cbn [negb].
    - rewrite bind_ret. rewrite bind_call.
      fold (user_row (or_else (conversationId body) "") (message body)).
      set (row := user_row _ _).
      destruct (fst (insert_message svc row w)) as [e|].
      { rewrite bind_throw. left. do 3 eexists.
        split; [unfold prepend; cbn; reflexivity|].
        repeat constructor. }
      rewrite bind_ret, bind_call.
      destruct (fst (select_messages svc _ _)) as [e|history]; cbn [lift].
      { rewrite bind_throw. left. do 3 eexists.
        split; [unfold prepend; cbn; reflexivity|].
        repeat constructor. }
      rewrite bind_ret. right.
      exists body, (or_else (conversationId body) ""), history.
      eexists. exists []. split; [reflexivity|].
      split; [|now left].
      rewrite prepend_prepend. reflexivity.
    - rewrite bind_bind, bind_call.
      destruct (fst (insert_conversation svc _ w)) as [e|conversation];
        cbn [lift].
      { rewrite bind_throw. left. do 3 eexists.
        split; [unfold prepend; cbn; reflexivity|].
        repeat constructor. }
      rewrite bind_ret, bind_call.
      fold (user_row conversation (message body)).
      set (row := user_row _ _).
      destruct (fst (insert_message svc row _)) as [e|].
      { rewrite bind_throw. left. do 3 eexists.
        split; [unfold prepend; cbn; reflexivity|].
        repeat constructor. }
      rewrite bind_ret, bind_call.
      destruct (fst (select_messages svc _ _)) as [e|history]; cbn [lift].
      { rewrite bind_throw. left. do 3 eexists.
        split; [unfold prepend; cbn; reflexivity|].
        repeat constructor. }
      rewrite bind_ret. right.
      exists body, conversation, history.
      eexists. eexists. split; [reflexivity|].
      split; [|now right].
      rewrite !prepend_prepend. reflexivity. }
  destruct Hturn as [(e & pre & w' & -> & Hpre)
                    |(body & conversation & history & w1 & pre & Hbody & -> & Hpre)].
  - left. exists e, pre, w'. split; [reflexivity | assumption].
  - right. exists body, conversation, history, w1, pre.
    split; [assumption|]. split; [|assumption].
    set (ra := runAgent svc history w1).
    match goal with
    | |- context [bind (runAgent svc history) ?k w1] =>
        assert (Hb : bind (runAgent svc history) k w1
                     = match result ra with
                       | Returned agentMessages =>
                           {| result :=
                                Returned (TurnResponse conversation
                                            (responseText agentMessages));
                              world :=
                                world (saveMessages svc conversation
                                         agentMessages (world ra));
                              trace :=
                                (trace ra
                                 ++ trace (saveMessages svc conversation
                                             agentMessages (world ra)))%list |}
                       | Thrown e =>
                           {| result := Thrown e; world := world ra;
                              trace := trace ra |}
                       | OutOfFuel =>
                           {| result := OutOfFuel; world := world ra;
                              trace := trace ra |}
                       end)
    end.
    { unfold bind at 1. fold ra.
      destruct (result ra) as [agentMessages| e |]; try reflexivity.
      rewrite (bind_returned _ _ _ tt) by apply saveMessages_facts.
      unfold prepend, ret. cbn [result world trace]. now rewrite app_nil_r. }
    rewrite Hb. unfold closing. fold ra.
    destruct (result ra) as [agentMessages| e |];
      unfold prepend; cbn [result world trace]; try reflexivity.
    unfold bind, log, ret. cbn [result world trace app].
    now rewrite <- app_assoc.
Qed.

End Handler.

(** *** Tool calls that are executed *)

Section Executed.
Context {W : Type} (svc : Services W).

(** [executeTool] returns a text unless it reads [query] off [null];
    for a name that is not registered the text is fixed. *)
Lemma executeTool_text tool_name args w :
  (tool_name = "web_search" -> args <> JNull) ->
  exists text,
    result (executeTool svc tool_name args w) = Returned text
    /\ (tool_name <> "web_search" -> text = "Unknown tool: " ++ tool_name).
Proof.
  intros Hargs.
  destruct (String.eqb_spec tool_name "web_search") as [E|Hname].
  - destruct (executeTool_returns svc tool_name args w (Hargs E)) as [text H].
    exists text. split; [assumption | contradiction].
  - rewrite (executeTool_unknown svc tool_name args w Hname).
    eexists. split; reflexivity.
Qed.

(** When the arguments of every call parse, and to something else than
    [null] for a search, the [for] loop completes: it has pushed one
    answer per call, the fixed text for the names not registered. *)
Lemma executeToolCalls_returns calls : forall st w,
  Forall (executable svc) calls ->
  exists toolMessages,
    result (executeToolCalls svc calls st w)
    = Returned {| iterations := iterations st;
                  conversationMessages :=
                    (conversationMessages st ++ toolMessages)%list;
                  newMessages := (newMessages st ++ toolMessages)%list |}
    /\ Forall2 (fun call msg =>
                  answer call msg
                  /\ (name (function call) <> "web_search" ->
                      msg = unknown_answer call))
               calls toolMessages.
Proof.
  induction calls as [|call rest IH]; intros st w Hall.
  - exists []. cbn. rewrite !app_nil_r. split; [now destruct st | constructor].
  - inversion Hall as [|? ? (args & Hparse & Hargs) Hrest]; subst.
    rewrite executeToolCalls_cons, Hparse. cbv zeta.
    destruct (executeTool_text (name (function call)) args w Hargs)
      as (text & Htext & Hunknown).
    rewrite Htext.
    destruct (IH (push_both {| role := tool; content := text;
                               tool_calls := None;
                               tool_call_id := Some (id call) |} st)
                 (world (executeTool svc (name (function call)) args w)) Hrest)
      as (toolMessages & Hres & Hans).
    exists ({| role := tool; content := text; tool_calls := None;
               tool_call_id := Some (id call) |} :: toolMessages).
    unfold prepend. cbn [result]. rewrite Hres.
    unfold push_both. cbn [iterations conversationMessages newMessages].
    rewrite <- !app_assoc. split; [reflexivity|].
    constructor; [|exact Hans]. split; [repeat split|].
    intros Hname. unfold unknown_answer. now rewrite (Hunknown Hname).
Qed.

End Executed.

(** *** What the handler stores *)

Section Stored.
Context {W : Type} (svc : Services W).

Lemma in_rows_inserted row error t :
  In (EvInsertMessage row error) t -> In row (rows_inserted t).
Proof.
  induction t as [|e t IH]; [intros []|].
  intros [->|Hin]; [now left|].
  destruct e; cbn; try right; now apply IH.
Qed.

Lemma handler_options req w :
  method req = "OPTIONS" ->
  handler svc req w = {| result := Returned Preflight; world := w; trace := [] |}.
Proof. intros H. unfold handler. rewrite H. reflexivity. Qed.

(** The rows of a turn: the user's, then one per message that
    [runAgent] returned. *)
Lemma handler_rows req w :
  Forall (fun row => row_role row = user \/ row_role row = assistant
                     \/ row_role row = tool)
         (rows_inserted (trace (handler svc req w))).
Proof.
  destruct (String.eqb_spec (method req) "OPTIONS") as [E|Hmethod].
  { rewrite (handler_options req w E). constructor. }
  destruct (handler_cases svc req w Hmethod)
    as [(e & pre & w' & -> & Hpre)
       |(body & conversation & history & w1 & pre & Hbody & -> & Hpre)].
  - cbn [trace]. rewrite rows_inserted_app. cbn [rows_inserted].
    rewrite app_nil_r.
    eapply Forall_impl; [|exact (opening_events_rows pre Hpre)].
    cbn. intros row Hrow. now left.
  - unfold prepend. cbn [trace]. rewrite !rows_inserted_app.
    cbn [rows_inserted app].
    assert (Hpre' : rows_inserted pre = [])
      by (destruct Hpre as [->| ->]; reflexivity).
    rewrite Hpre'. cbn [app]. constructor; [now left|].
    unfold closing.
    destruct (runAgent_facts svc history w1) as (Hf & _ & Hev & Hret).
    destruct (result (runAgent svc history w1)) as [out| e |];
      [| |contradiction]; cbn [trace]; rewrite rows_inserted_app,
        (agent_events_insert_nothing _ Hev); cbn [app rows_inserted];
      [|constructor].
    destruct (saveMessages_facts svc conversation out
                (world (runAgent svc history w1))) as (_ & -> & _).
    destruct (Hret out eq_refl) as (st & _ & -> & Hreach).
    assert (Hroles : Forall produced_role (newMessages st))
      by (apply (Reach_roles _ _ Hreach); constructor).
    clear -Hroles. induction Hroles as [|m l Hm _ IH]; cbn [map];
      constructor; [now right | assumption].
Qed.

End Stored.

(** *** The shape of a turn's trace *)

Section Turn.
Context {W : Type} (svc : Services W).

(** After [runAgent] the handler only stores rows or logs the
    error. *)
Lemma closing_trace conversation (ra : Run W (list Message)) :
  exists tail,
    trace (closing svc conversation ra) = (trace ra ++ tail)%list
    /\ completion_calls tail = 0
    /\ forall c outcome, ~ In (EvSelectMessages c outcome) tail.
Proof.
  unfold closing. destruct (result ra) as [out| e |]; cbn [trace].
  - eexists. split; [reflexivity|].
    destruct (saveMessages_facts svc conversation out (world ra))
      as (_ & _ & Hev).
    now apply insert_events_call_no_completion.
  - eexists. split; [reflexivity|]. split; [reflexivity|].
    intros c o [H|[]]. discriminate.
  - exists []. split; [now rewrite app_nil_r|]. split; [reflexivity|].
    intros c o [].
Qed.

Lemma runAgent_not_ok messages w request status text :
  In (EvCompletion request (OpenAI.NotOk status text))
     (trace (runAgent svc messages w)) ->
  result (runAgent svc messages w)
  = Thrown (Error ("OpenAI API error: " ++ show_nat status ++ " - " ++ text)).
Proof.
  rewrite runAgent_unfold. cbv zeta. cbn [result trace]. intros Hin.
  now rewrite (agentLoop_not_ok svc _ _ _ _ _ _ Hin).
Qed.

End Turn.

End Properties.

(* ================================================================== *)
(** ** The claims *)

Module Claims.
Import JS Agent Spec Properties.
Local Open Scope string_scope.

(** C1.  Whatever the history and whatever the services answer,
    [runAgent] ends: the loop never runs out of fuel, and any fuel
    beyond [maxIterations] gives the same run.  One run calls the
    completion provider five times at most, and a run that returns has
    gone through at least one and at most five iterations. *)
Theorem runAgent_iteration_cap {W} (svc : Services W)
    (messages : list Message) (w : W) :
  result (runAgent svc messages w) <> OutOfFuel
  /\ completion_calls (trace (runAgent svc messages w)) <= 5
  /\ (forall fuel,
        maxIterations <= fuel ->
        agentLoop svc fuel (initialState messages) w
        = agentLoop svc maxIterations (initialState messages) w)
  /\ (forall st,
        result (agentLoop svc maxIterations (initialState messages) w)
        = Returned st ->
        1 <= iterations st <= 5).
Proof.
  destruct (runAgent_facts svc messages w) as (Hf & Hc & _ & _).
  split; [exact Hf|]. split; [exact Hc|]. split.
  - intros fuel Hfuel. apply agentLoop_fuel; cbn [initialState iterations]; lia.
  - intros st Hst.
    destruct (agentLoop_facts svc maxIterations (initialState messages) w)
      as (_ & _ & _ & Hreach); [apply Nat.le_sub_l|].
    destruct (Reach_iterations _ _ (Hreach st Hst)) as (_ & Hle & Hlt).
    cbn [initialState iterations] in *. unfold maxIterations in *. lia.
Qed.

(** C2.  In the output of a run that returns, the tool messages are
    paired with the tool calls: the pairing check accepts the output;
    a tool message that comes after an assistant message, with only
    tool messages in between, carries the id of the call at its place
    in that assistant message; and the whole run of tool messages
    after an assistant message carries the ids of its calls, one per
    call and in their order. *)
Theorem runAgent_tool_messages_paired {W} (svc : Services W)
    (messages : list Message) (w : W) (out : list Message) :
  result (runAgent svc messages w) = Returned out ->
  well_paired out = true
  /\ (forall front a between t rest,
        out = (front ++ a :: between ++ t :: rest)%list ->
        role a = assistant ->
        Forall (fun m => role m = tool) between ->
        role t = tool ->
        exists call,
          nth_error (calls_of a) (length between) = Some call
          /\ tool_call_id t = Some (id call))
  /\ (forall front a run rest,
        out = (front ++ a :: run ++ rest)%list ->
        role a = assistant ->
        Forall (fun m => role m = tool) run ->
        (forall m, hd_error rest = Some m -> role m <> tool) ->
        map tool_call_id run = map (fun call => Some (id call)) (calls_of a)).
Proof.
  intros Hout.
  destruct (runAgent_facts svc messages w) as (_ & _ & _ & Hret).
  destruct (Hret out Hout) as (st & _ & -> & Hreach).
  assert (Hp : pairing [] (newMessages st) = Some [])
    by (apply (Reach_pairing _ _ Hreach); reflexivity).
  split; [unfold well_paired; now rewrite Hp|]. split.
  - intros front a between t rest Heq Ha Hbetween Ht.
    rewrite Heq in Hp. apply pairing_after_assistant in Hp; [|assumption].
    apply (pairing_nth between (calls_of a) t rest); try assumption.
    now rewrite Hp.
  - intros front a run rest Heq Ha Hrun Hrest.
    rewrite Heq in Hp. apply pairing_after_assistant in Hp; [|assumption].
    now apply (pairing_run run (calls_of a) rest).
Qed.

Lemma runAgent_tool_messages_paired_witness :
  well_paired Stub.weather_output = true.
Proof.
  refine (proj1 (runAgent_tool_messages_paired Stub.both_keys
                   Stub.weather_history Stub.weather_world
                   Stub.weather_output _)).
  vm_compute. reflexivity.
Defined.

(** C3.  If the first call of [callOpenAI] returns a message without
    tool calls ([tool_calls] absent or empty), [runAgent] returns
    exactly that message and nothing else happens in the run: the
    loop is left in its first iteration, no tool is entered and the
    provider is called once at most. *)
Theorem runAgent_single_iteration {W} (svc : Services W)
    (messages : list Message) (w : W) (reply : Message * string) :
  result (callOpenAI svc (systemMessage :: messages) true w) = Returned reply ->
  no_tool_calls (fst reply) = true ->
  runAgent svc messages w
  = {| result := Returned [fst reply];
       world := world (callOpenAI svc (systemMessage :: messages) true w);
       trace := trace (callOpenAI svc (systemMessage :: messages) true w) |}
  /\ result (agentLoop svc maxIterations (initialState messages) w)
     = Returned {| iterations := 1;
                   conversationMessages := systemMessage :: messages;
                   newMessages := [fst reply] |}
  /\ completion_calls (trace (runAgent svc messages w)) <= 1
  /\ tool_invocations (trace (runAgent svc messages w)) = 0.
Proof.
  intros Hreply Hnone.
  destruct (runAgent_first_answer svc messages w reply Hreply Hnone)
    as [Hloop Hrun].
  split; [exact Hrun|]. split; [now rewrite Hloop|].
  rewrite Hrun. cbn [trace].
  destruct (callOpenAI_facts svc (systemMessage :: messages) true w)
    as (_ & Hc & Ht & _).
  split; assumption.
Qed.

Lemma runAgent_single_iteration_witness :
  result (runAgent Stub.both_keys [Stub.user_says "Hello"]
            (Stub.world_of [Stub.answers "Hi there!"] []))
  = Returned [ {| role := assistant; content := "Hi there!";
                  tool_calls := None; tool_call_id := None |} ].
Proof.
  rewrite (proj1 (runAgent_single_iteration Stub.both_keys
                    [Stub.user_says "Hello"]
                    (Stub.world_of [Stub.answers "Hi there!"] [])
                    ({| role := assistant; content := "Hi there!";
                        tool_calls := None; tool_call_id := None |}, "stop")
                    ltac:(vm_compute; reflexivity)
                    ltac:(vm_compute; reflexivity))).
  reflexivity.
Defined.

(** C6.  Without the completion credential ([OPENAI_API_KEY] unset,
    or set to the empty text) [callOpenAI] does not throw: it returns
    the diagnostic assistant message with finish reason [stop] and
    calls nobody; [runAgent] then returns that one message after one
    iteration, with an empty trace: no provider call and no tool
    invocation. *)
Theorem missing_completion_key {W} (svc : Services W)
    (messages : list Message) (w : W) :
  truthy (env_get svc "OPENAI_API_KEY") = false ->
  let diagnostic :=
    {| role := assistant;
       content := "Error: OPENAI_API_KEY not configured. Please add your OpenAI API key to secrets.";
       tool_calls := None;
       tool_call_id := None |} in
  (forall transcript includeTools,
      callOpenAI svc transcript includeTools w
      = {| result := Returned (diagnostic, "stop"); world := w; trace := [] |})
  /\ runAgent svc messages w
     = {| result := Returned [diagnostic]; world := w; trace := [] |}
  /\ result (agentLoop svc maxIterations (initialState messages) w)
     = Returned {| iterations := 1;
                   conversationMessages := systemMessage :: messages;
                   newMessages := [diagnostic] |}
  /\ tool_invocations (trace (runAgent svc messages w)) = 0
  /\ completion_calls (trace (runAgent svc messages w)) = 0.
Proof.
  intros Hkey diagnostic.
  assert (Hcall : forall transcript includeTools,
    callOpenAI svc transcript includeTools w
    = {| result := Returned (diagnostic, "stop"); world := w; trace := [] |})
    by (intros; now apply callOpenAI_without_key).
  split; [exact Hcall|].
  destruct (runAgent_first_answer svc messages w (diagnostic, "stop"))
    as (Hloop & Hrun); [now rewrite Hcall | reflexivity |].
  rewrite Hcall in Hrun, Hloop. cbn [fst world trace] in Hrun, Hloop.
  split; [exact Hrun|]. split; [now rewrite Hloop|].
  rewrite Hrun. split; reflexivity.
Qed.

Lemma missing_completion_key_witness :
  runAgent (Stub.services None (Some "tvly-test")) Stub.weather_history
    Stub.weather_world
  = {| result := Returned [ {| role := assistant;
                               content := missingOpenAIKey;
                               tool_calls := None;
                               tool_call_id := None |} ];
       world := Stub.weather_world;
       trace := [] |}.
Proof.
  exact (proj1 (proj2 (missing_completion_key
                         (Stub.services None (Some "tvly-test"))
                         Stub.weather_history Stub.weather_world eq_refl))).
Defined.

(** A call to a tool that is not registered, when its arguments
    parse, is answered by the text [Unknown tool: ] followed by the
    name, and aborts nothing: [executeTool] returns that text; the
    [for] loop pushes the tool message that carries it and goes on
    with the calls that are left; and when the calls of an assistant
    message are executed, the [while] loop is back at its head with
    the assistant message and one answer per call pushed, the answer
    to a call of a tool not registered being that text; there, below
    the cap, the completion client is called again. *)
Theorem unknown_tool_continues {W} (svc : Services W) :
  (forall tool_name args w,
      tool_name <> "web_search" ->
      executeTool svc tool_name args w
      = {| result := Returned ("Unknown tool: " ++ tool_name);
           world := w;
           trace := [EvExecuteTool tool_name args] |})
  /\ (forall toolCall rest st w args,
        name (function toolCall) <> "web_search" ->
        JSON_parse svc (arguments (function toolCall)) = inr args ->
        executeToolCalls svc (toolCall :: rest) st w
        = prepend [EvExecuteTool (name (function toolCall)) args]
            (executeToolCalls svc rest
               (push_both
                  {| role := tool;
                     content := "Unknown tool: " ++ name (function toolCall);
                     tool_calls := None;
                     tool_call_id := Some (id toolCall) |} st) w))
  /\ (forall fuel st w reply,
        iterations st < maxIterations ->
        result (callOpenAI svc (conversationMessages st) true w) = Returned reply ->
        no_tool_calls (fst reply) = false ->
        Forall (fun call =>
                  exists args,
                    JSON_parse svc (arguments (function call)) = inr args
                    /\ (name (function call) = "web_search" -> args <> JNull))
               (calls_of (fst reply)) ->
        exists toolMessages events w',
          Forall2 (fun call msg =>
                     role msg = tool
                     /\ tool_call_id msg = Some (id call)
                     /\ (name (function call) <> "web_search" ->
                         content msg = "Unknown tool: " ++ name (function call)))
                  (calls_of (fst reply)) toolMessages
          /\ completion_calls events = 0
          /\ agentLoop svc (S fuel) st w
             = prepend
                 (trace (callOpenAI svc (conversationMessages st) true w)
                  ++ events)
                 (agentLoop svc fuel
                    {| iterations := S (iterations st);
                       conversationMessages :=
                         (conversationMessages st ++ fst reply :: toolMessages)%list;
                       newMessages :=
                         (newMessages st ++ fst reply :: toolMessages)%list |}
                    w'))
  /\ (forall fuel st w,
        iterations st < maxIterations ->
        exists rest,
          trace (agentLoop svc (S fuel) st w)
          = (trace (callOpenAI svc (conversationMessages st) true w) ++ rest)%list).
Proof.
  split; [intros; now apply executeTool_unknown|]. split; [|split].
  - intros toolCall rest st w args Hname Hparse.
    rewrite executeToolCalls_cons, Hparse. cbv zeta.
    now rewrite (executeTool_unknown svc _ args w Hname).
  - intros fuel st w reply Hlt Hreply Hcalls Hall.
    set (w1 := world (callOpenAI svc (conversationMessages st) true w)).
    destruct (executeToolCalls_returns svc (calls_of (fst reply))
                (entering (fst reply) st) w1 Hall)
      as (toolMessages & Hres & Hans).
    destruct (executeToolCalls_facts svc (calls_of (fst reply))
                (entering (fst reply) st) w1) as (_ & Hc & _).
    exists toolMessages,
           (trace (executeToolCalls svc (calls_of (fst reply))
                     (entering (fst reply) st) w1)),
           (world (executeToolCalls svc (calls_of (fst reply))
                     (entering (fst reply) st) w1)).
    split.
    { clear -Hans. induction Hans as [|call msg calls msgs [Hm Hu] _ IH];
        constructor; [|assumption].
      destruct Hm as (Hrole & Hid & _). repeat split; try assumption.
      intros Hname. now rewrite (Hu Hname). }
    split; [exact Hc|].
    rewrite agentLoop_step.
    destruct (Nat.ltb_spec (iterations st) maxIterations); [|lia].
    cbv zeta. rewrite Hreply, Hcalls. fold w1.
    rewrite (bind_returned _ _ _ _ Hres), prepend_prepend.
    unfold entering, push_both.
    cbn [iterations conversationMessages newMessages].
    now rewrite <- !app_assoc.
  - intros fuel st w Hlt. rewrite agentLoop_step.
    destruct (Nat.ltb_spec (iterations st) maxIterations); [|lia].
    cbv zeta.
    destruct (result (callOpenAI svc (conversationMessages st) true w))
      as [reply| e |]; try (exists []; cbn [trace]; now rewrite app_nil_r).
    destruct (no_tool_calls (fst reply));
      [exists []; cbn [trace]; now rewrite app_nil_r|].
    unfold prepend. cbn [trace]. eauto.
Qed.

Lemma unknown_tool_continues_witness :
  result (executeToolCalls Stub.both_keys
            [ {| id := "call_1";
                 function := {| name := "lookup"; arguments := "{}" |} |} ]
            (initialState [Stub.user_says "Look it up"])
            (Stub.world_of [] []))
  = Returned {| iterations := 0;
                conversationMessages :=
                  [ systemMessage; Stub.user_says "Look it up";
                    {| role := tool; content := "Unknown tool: lookup";
                       tool_calls := None; tool_call_id := Some "call_1" |} ];
                newMessages :=
                  [ {| role := tool; content := "Unknown tool: lookup";
                       tool_calls := None; tool_call_id := Some "call_1" |} ] |}.
Proof.
  rewrite (proj1 (proj2 (unknown_tool_continues Stub.both_keys))
             {| id := "call_1";
                function := {| name := "lookup"; arguments := "{}" |} |}
             [] (initialState [Stub.user_says "Look it up"])
             (Stub.world_of [] []) (JObject [])
             ltac:(discriminate) ltac:(vm_compute; reflexivity)).
  reflexivity.
Defined.

(** C7 (the code departs from the claim).  A call to a tool that is
    not registered is answered by [Unknown tool: ] and the name only
    when its arguments parse.  When they do not, [JSON.parse] throws
    in the loop of [runAgent] before [executeTool] is entered: no tool
    message is pushed, the calls that are left are not executed,
    [runAgent] throws the [SyntaxError] and the handler answers with
    status 500, having stored the user's message only.  The same call
    with arguments that parse is answered by the text and the loop
    goes on to the next completion. *)
Theorem unregistered_tool_with_malformed_arguments_aborts_turn :
  (forall W (svc : Services W) toolCall rest st w m,
      name (function toolCall) <> "web_search" ->
      JSON_parse svc (arguments (function toolCall)) = inl m ->
      executeToolCalls svc (toolCall :: rest) st w
      = {| result := Thrown (SyntaxError m); world := w; trace := [] |})
  /\ (exists m,
        JSON.parse EmptyString = inl m
        /\ result (runAgent Stub.both_keys [Stub.user_says "Look it up"]
                     Stub.unknown_malformed_world)
           = Thrown (SyntaxError m)
        /\ tool_invocations
             (trace (runAgent Stub.both_keys [Stub.user_says "Look it up"]
                       Stub.unknown_malformed_world)) = 0
        /\ completion_calls
             (trace (runAgent Stub.both_keys [Stub.user_says "Look it up"]
                       Stub.unknown_malformed_world)) = 1
        /\ result (handler Stub.both_keys (Stub.post None "Look it up")
                     Stub.unknown_malformed_world)
           = Returned (Failure500 m)
        /\ rows_inserted
             (trace (handler Stub.both_keys (Stub.post None "Look it up")
                       Stub.unknown_malformed_world))
           = [user_row "conv-0" "Look it up"])
  /\ result (runAgent Stub.both_keys [Stub.user_says "Look it up"]
               Stub.unknown_world)
     = Returned
         [ {| role := assistant; content := EmptyString;
              tool_calls :=
                Some [ {| id := "call_1";
                          function := {| name := "lookup";
                                         arguments := "{}" |} |} ];
              tool_call_id := None |};
           {| role := tool; content := "Unknown tool: lookup";
              tool_calls := None; tool_call_id := Some "call_1" |};
           {| role := assistant; content := "Done.";
              tool_calls := None; tool_call_id := None |} ].
Proof.
  split; [|split].
  - intros W svc toolCall rest st w m _ Hparse.
    rewrite executeToolCalls_cons, Hparse. reflexivity.
  - eexists. repeat split; vm_compute; reflexivity.
  - vm_compute. reflexivity.
Qed.

(** C10.  The output of [runAgent] holds assistant and tool messages
    only, hence not the system message; it is the part of the working
    transcript that the run appended after the system message and the
    input history (the answer on which the loop breaks being in the
    output only), so that the input is before the output and never in
    it; and every row that the handler stores has role user,
    assistant or tool, never system. *)
Theorem runAgent_output_is_new {W} (svc : Services W) :
  (forall messages w out,
      result (runAgent svc messages w) = Returned out ->
      Forall (fun m => role m = assistant \/ role m = tool) out
      /\ ~ In systemMessage out
      /\ exists st,
           result (agentLoop svc maxIterations (initialState messages) w)
           = Returned st
           /\ out = newMessages st
           /\ (conversationMessages st = (systemMessage :: messages ++ out)%list
               \/ exists front final,
                    out = (front ++ [final])%list
                    /\ conversationMessages st
                       = (systemMessage :: messages ++ front)%list))
  /\ (forall req w row error,
        In (EvInsertMessage row error) (trace (handler svc req w)) ->
        row_role row <> system).
Proof.
  split.
  - intros messages w out Hout.
    destruct (runAgent_facts svc messages w) as (_ & _ & _ & Hret).
    destruct (Hret out Hout) as (st & Hst & -> & Hreach).
    assert (Hroles : Forall produced_role (newMessages st))
      by (apply (Reach_roles _ _ Hreach); constructor).
    split; [exact Hroles|]. split.
    + intros Hin. rewrite Forall_forall in Hroles.
      destruct (Hroles _ Hin) as [H|H]; discriminate.
    + exists st. split; [exact Hst|]. split; [reflexivity|].
      destruct (Reach_position (systemMessage :: messages) _ _ Hreach)
        as [H|(front & final & Hnew & Hconv & _)].
      * cbn. now rewrite app_nil_r.
      * now left.
      * right. now exists front, final.
  - intros req w row error Hin. apply in_rows_inserted in Hin.
    pose proof (handler_rows svc req w) as Hrows.
    rewrite Forall_forall in Hrows.
    destruct (Hrows _ Hin) as [H|[H|H]]; rewrite H; discriminate.
Qed.

Lemma runAgent_output_is_new_witness :
  Forall (fun m => role m = assistant \/ role m = tool) Stub.weather_output.
Proof.
  refine (proj1 (proj1 (runAgent_output_is_new Stub.both_keys)
                   Stub.weather_history Stub.weather_world
                   Stub.weather_output _)).
  vm_compute. reflexivity.
Defined.

(** C4 (the code departs from the claim).  A tool call whose
    arguments are not JSON is not turned into tool-message content:
    [JSON.parse] throws in the loop of [runAgent], outside any [try],
    so [runAgent] throws the [SyntaxError] and the handler answers
    with status 500.  Arguments that are the JSON [null] make
    [executeTool] throw a [TypeError] in the same way. *)
Theorem malformed_arguments_abort_turn :
  (exists m,
      JSON.parse "{" = inl m
      /\ result (runAgent Stub.both_keys [Stub.user_says "Search"]
                   Stub.malformed_world)
         = Thrown (SyntaxError m)
      /\ result (handler Stub.both_keys (Stub.post None "Search")
                   Stub.malformed_world)
         = Returned (Failure500 m))
  /\ (exists m,
        JSON.parse "null" = inr JNull
        /\ result (runAgent Stub.both_keys [Stub.user_says "Search"]
                     Stub.null_arguments_world)
           = Thrown (TypeError m)).
Proof.
  split; eexists; repeat split; vm_compute; reflexivity.
Qed.

(** C5, as the specification states it, fails: here the first
    iteration has run its tool and collected two messages (the second
    request carries them), the second completion is answered with
    status 500, and [runAgent] throws: no list of messages, collected
    or not, reaches its caller. *)
Lemma collected_output_is_lost :
  let r := runAgent Stub.both_keys [Stub.user_says "Look it up"]
             Stub.failing_world in
  In (EvExecuteTool "lookup" (JObject [])) (trace r)
  /\ (exists request,
        In (EvCompletion request (OpenAI.NotOk 500 "boom")) (trace r)
        /\ In {| role := tool; content := "Unknown tool: lookup";
                 tool_calls := None; tool_call_id := Some "call_1" |}
              (OpenAI.messages request))
  /\ result r = Thrown (Error "OpenAI API error: 500 - boom")
  /\ ~ (exists out, result r = Returned out).
Proof.
  cbv zeta. split; [vm_compute; find_in|]. split.
  - eexists. split; vm_compute; find_in.
  - split; [vm_compute; reflexivity|].
    intros [out H]. vm_compute in H. discriminate.
Qed.

(** C5, amended.  A non-success reply of the completion provider is
    not caught in the loop: [runAgent] throws the error that names
    the status and the body, so it returns no message at all; the
    handler then answers with status 500 and that error's message,
    and the only row it has stored in the turn is the user's. *)
Theorem completion_failure_aborts_turn {W} (svc : Services W)
    (request : OpenAI.Request) (status : nat) (text : string) :
  (forall messages w,
      In (EvCompletion request (OpenAI.NotOk status text))
         (trace (runAgent svc messages w)) ->
      result (runAgent svc messages w)
      = Thrown (Error ("OpenAI API error: " ++ show_nat status ++ " - " ++ text)))
  /\ (forall req w,
        In (EvCompletion request (OpenAI.NotOk status text))
           (trace (handler svc req w)) ->
        result (handler svc req w)
        = Returned (Failure500 ("OpenAI API error: " ++ show_nat status
                                ++ " - " ++ text))
        /\ exists conversation body,
             json_body req = inr body
             /\ rows_inserted (trace (handler svc req w))
                = [user_row conversation (message body)]).
Proof.
  split; [intros messages w Hin; exact (runAgent_not_ok svc _ _ _ _ _ Hin)|].
  intros req w Hin.
  destruct (String.eqb_spec (method req) "OPTIONS") as [E|Hmethod].
  { rewrite (handler_options svc req w E) in Hin. destruct Hin. }
  destruct (handler_cases svc req w Hmethod)
    as [(e & pre & w' & Heq & Hpre)
       |(body & conversation & history & w1 & pre & Hbody & Heq & Hpre)];
    rewrite Heq in *; clear Heq.
  - cbn [trace] in Hin. apply in_app_or in Hin. destruct Hin as [Hin|[Hin|[]]].
    + destruct (no_completion_in pre _ _
                  (opening_events_call_no_completion pre Hpre) Hin).
    + discriminate.
  - unfold prepend in *. cbn [result trace] in *.
    assert (Hra : In (EvCompletion request (OpenAI.NotOk status text))
                    (trace (runAgent svc history w1))).
    { destruct (closing_trace svc conversation (runAgent svc history w1))
        as (tail & Htail & Hc & _).
      rewrite Htail in Hin.
      repeat (apply in_app_or in Hin; destruct Hin as [Hin|Hin]);
        try assumption.
      - destruct Hpre as [->| ->]; [destruct Hin|].
        destruct Hin as [Hin|[]]. discriminate.
      - destruct Hin as [Hin|[Hin|[]]]; discriminate.
      - now apply no_completion_in in Hin. }
    pose proof (runAgent_not_ok svc _ _ _ _ _ Hra) as Hthrown.
    destruct (runAgent_facts svc history w1) as (_ & _ & Hev & _).
    unfold closing. rewrite Hthrown. cbn [result trace message_of].
    split; [reflexivity|]. exists conversation, body. split; [assumption|].
    rewrite !rows_inserted_app, (agent_events_insert_nothing _ Hev).
    destruct Hpre as [->| ->]; reflexivity.
Qed.

Lemma completion_failure_aborts_turn_witness :
  result (handler Stub.both_keys (Stub.post None "Look it up") Stub.failing_world)
  = Returned (Failure500 "OpenAI API error: 500 - boom").
Proof.
  eapply (proj2 (completion_failure_aborts_turn Stub.both_keys _ 500 "boom")).
  vm_compute. do 5 right. left. reflexivity.
Defined.

(** C8, as the specification states it, fails: with a provider that
    asks for a tool at each of the five iterations and says
    [Let me search] each time, the output of [runAgent] ends with a
    tool message, and the response of the turn is [Let me search],
    not the fallback text. *)
Lemma trailing_tool_message_keeps_content :
  (exists out,
      result (runAgent Stub.both_keys [Stub.user_says "Keep looking"]
                Stub.looping_world) = Returned out
      /\ length out = 10
      /\ option_map role (pop out) = Some tool
      /\ responseText out = "Let me search")
  /\ result (handler Stub.both_keys (Stub.post None "Keep looking")
               Stub.looping_world)
     = Returned (TurnResponse "conv-0" "Let me search")
  /\ "Let me search" <> fallbackResponse.
Proof.
  split; [eexists; repeat split; vm_compute; reflexivity|].
  split; [vm_compute; reflexivity | discriminate].
Qed.

(** C8, amended.  When the handler answers a turn, [runAgent] has
    returned an output in which some assistant message [m] is
    followed by tool messages only (by none when the output ends with
    an answer); the rows stored in the turn are the user's and that
    output; and the response text is the content of [m], or the
    fallback text when that content is empty.  So an output with no
    trailing assistant message gets the fallback exactly when its
    last assistant message has no text. *)
Theorem handler_response_text {W} (svc : Services W) (req : Request) (w : W)
    (conversation text : string) :
  result (handler svc req w) = Returned (TurnResponse conversation text) ->
  exists body history w1 out front m tail,
    json_body req = inr body
    /\ In (EvSelectMessages conversation (inr history)) (trace (handler svc req w))
    /\ result (runAgent svc history w1) = Returned out
    /\ rows_inserted (trace (handler svc req w))
       = user_row conversation (message body) :: map (row_of conversation) out
    /\ out = (front ++ m :: tail)%list
    /\ role m = assistant
    /\ Forall (fun x => role x = tool) tail
    /\ text = responseText out
    /\ text = (if content m =? "" then fallbackResponse else content m).
Proof.
  intros Hres.
  destruct (String.eqb_spec (method req) "OPTIONS") as [E|Hmethod].
  { rewrite (handler_options svc req w E) in Hres. discriminate. }
  destruct (handler_cases svc req w Hmethod)
    as [(e & pre & w' & Heq & Hpre)
       |(body & conv & history & w1 & pre & Hbody & Heq & Hpre)];
    rewrite Heq in *; clear Heq; [discriminate|].
  unfold prepend, closing in *. cbn [result trace] in *.
  destruct (runAgent_facts svc history w1) as (_ & _ & Hev & Hret).
  destruct (result (runAgent svc history w1)) as [out| e |] eqn:Hout;
    cbn [result trace] in *; try discriminate.
  injection Hres as -> <-.
  destruct (Hret out eq_refl) as (st & _ & -> & Hreach).
  destruct (Reach_last_assistant _ _ Hreach) as (front & m & tail & Hdec & Hm & Htail);
    [unfold maxIterations; cbn; lia|].
  exists body, history, w1, (newMessages st), front, m, tail.
  split; [assumption|]. split; [apply in_or_app; left; apply in_or_app; right;
                                right; now left|].
  split; [exact Hout|]. split.
  { destruct (saveMessages_facts svc conversation (newMessages st)
                (world (runAgent svc history w1))) as (_ & Hrows & _).
    cbv zeta in Hrows.
    rewrite !rows_inserted_app, Hrows, (agent_events_insert_nothing _ Hev).
    destruct Hpre as [->| ->]; reflexivity. }
  split; [assumption|]. split; [assumption|]. split; [assumption|].
  split; [reflexivity|].
  rewrite Hdec. now apply responseText_last_assistant.
Qed.

Lemma handler_response_text_witness :
  exists m,
    role m = assistant
    /\ "It's 18C and cloudy [1]."
       = (if content m =? "" then fallbackResponse else content m).
Proof.
  destruct (handler_response_text Stub.both_keys
              (Stub.post None "What's the weather in Paris today?")
              Stub.weather_world "conv-0" "It's 18C and cloudy [1]."
              ltac:(vm_compute; reflexivity))
    as (body & history & w1 & out & front & m & tail
        & Hbody & Hsel & Hout & Hrows & Hdec & Hm & Htail & Hresp & Htext).
  exists m. split; assumption.
Defined.

(** C9, as the specification states it, fails: the store holds, for
    the conversation, a tool message that answers no call; the
    handler loads it, sends it to the completion provider with the
    rest of the history, and answers the turn. *)
Lemma orphaned_history_is_sent :
  let r := handler Stub.both_keys (Stub.post (Some "conv-9") "hello?")
             Stub.orphan_world in
  (exists history,
      In (EvSelectMessages "conv-9" (inr history)) (trace r)
      /\ In Stub.orphan history
      /\ valid_history history = false)
  /\ (exists request reply,
        In (EvCompletion request reply) (trace r)
        /\ In Stub.orphan (OpenAI.messages request))
  /\ result r = Returned (TurnResponse "conv-9" "Hello again.").
Proof.
  cbv zeta. split; [|split].
  - eexists. split; [vm_compute; find_in|].
    split; [vm_compute; find_in | vm_compute; reflexivity].
  - do 2 eexists. split; vm_compute; find_in.
  - vm_compute. reflexivity.
Qed.

(** C9, amended.  The handler does not check the history that it
    loads: whatever messages the store returns for the conversation,
    valid or not, the next thing that happens (the completion
    credential being set) is the completion request that carries the
    system message followed by these messages. *)
Theorem loaded_history_is_sent_unchecked {W} (svc : Services W)
    (req : Request) (w : W) (conversation : string) (history : list Message) :
  truthy (env_get svc "OPENAI_API_KEY") = true ->
  In (EvSelectMessages conversation (inr history)) (trace (handler svc req w)) ->
  exists before reply after,
    trace (handler svc req w)
    = (before
       ++ EvSelectMessages conversation (inr history)
       :: EvCompletion (request_for svc (systemMessage :: history) true) reply
       :: after)%list
    /\ OpenAI.messages (request_for svc (systemMessage :: history) true)
       = map wire (systemMessage :: history).
Proof.
  intros Hkey Hin.
  destruct (String.eqb_spec (method req) "OPTIONS") as [E|Hmethod].
  { rewrite (handler_options svc req w E) in Hin. destruct Hin. }
  destruct (handler_cases svc req w Hmethod)
    as [(e & pre & w' & Heq & Hpre)
       |(body & conv & history' & w1 & pre & Hbody & Heq & Hpre)];
    rewrite Heq in *; clear Heq.
  - cbn [trace] in Hin. apply in_app_or in Hin. destruct Hin as [Hin|[Hin|[]]].
    + destruct (opening_events_select_nothing pre _ _ Hpre Hin).
    + discriminate.
  - unfold prepend in *. cbn [trace] in *.
    destruct (closing_trace svc conv (runAgent svc history' w1))
      as (tail & Htail & _ & Hnosel).
    destruct (runAgent_facts svc history' w1) as (_ & _ & Hev & _).
    destruct (runAgent_first_event svc history' w1 Hkey) as (reply & rest & Hfirst).
    rewrite Htail in *.
    assert (Hsame : conversation = conv /\ history = history').
    { repeat (apply in_app_or in Hin; destruct Hin as [Hin|Hin]).
      - destruct Hpre as [->| ->]; [destruct Hin|].
        destruct Hin as [Hin|[]]. discriminate.
      - destruct Hin as [Hin|[Hin|[]]]; [discriminate|].
        injection Hin as <- <-. now split.
      - destruct (agent_events_select_nothing _ _ _ Hev Hin).
      - destruct (Hnosel _ _ Hin). }
    destruct Hsame as [<- <-].
    exists (pre ++ [EvInsertMessage (user_row conversation (message body)) None])%list,
           reply, (rest ++ tail)%list.
    split; [|reflexivity].
    rewrite Hfirst, <- !app_assoc. reflexivity.
Qed.

Lemma loaded_history_is_sent_unchecked_witness :
  exists request reply,
    In (EvCompletion request reply)
       (trace (handler Stub.both_keys (Stub.post (Some "conv-9") "hello?")
                 Stub.orphan_world))
    /\ In (wire Stub.orphan) (OpenAI.messages request).
Proof.
  destruct (loaded_history_is_sent_unchecked Stub.both_keys
              (Stub.post (Some "conv-9") "hello?") Stub.orphan_world "conv-9"
              (map Stub.message_of_row
                 (Stub.rows Stub.orphan_world
                  ++ [user_row "conv-9" "hello?"]))
              eq_refl ltac:(vm_compute; find_in))
    as (before & reply & after & Htrace & Hmessages).
  exists (request_for Stub.both_keys
            (systemMessage
             :: map Stub.message_of_row
                  (Stub.rows Stub.orphan_world ++ [user_row "conv-9" "hello?"]))
            true), reply.
  split.
  - rewrite Htrace. apply in_or_app. right. right. now left.
  - rewrite Hmessages. vm_compute. find_in.
Defined.

End Claims.

(* ================================================================== *)
(** ** Further lemmas *)

Module Further.
Import JS Agent Spec Shape Properties.
Local Open Scope string_scope.

(** One step of the symbolic run of the handler's [try] block. *)
Ltac turn_step :=
  first [ rewrite bind_ret | rewrite bind_bind | rewrite bind_call
        | rewrite bind_throw | progress cbn [lift negb]
        | match goal with H : fst _ = _ |- _ => rewrite H end ].

Section Unrolled.
Context {W : Type} (svc : Services W).

(** What the [catch] of the handler makes of a turn that threw. *)
Lemma caught_failure (turn : Run W Response) e pre w' :
  turn = {| result := Thrown e; world := w'; trace := pre |} ->
  match result turn with
  | Thrown e0 =>
      prepend (trace turn)
        (bind (log (EvConsoleError e0))
           (fun _ => ret (Failure500 (message_of e0))) (world turn))
  | _ => turn
  end = failed e pre w'.
Proof. intros ->. reflexivity. Qed.

(** ... and of a turn that got to run the agent. *)
Lemma caught_agent (turn : Run W Response) pre conversation history w1 :
  turn = prepend pre
           (bind (runAgent svc history)
              (fun agentMessages =>
                 bind (saveMessages svc conversation agentMessages)
                   (fun _ => ret (TurnResponse conversation
                                    (responseText agentMessages)))) w1) ->
  match result turn with
  | Thrown e0 =>
      prepend (trace turn)
        (bind (log (EvConsoleError e0))
           (fun _ => ret (Failure500 (message_of e0))) (world turn))
  | _ => turn
  end = prepend pre (closing svc conversation (runAgent svc history w1)).
Proof.
  assert (Hclose :
    bind (runAgent svc history)
      (fun agentMessages =>
         bind (saveMessages svc conversation agentMessages)
           (fun _ => ret (TurnResponse conversation (responseText agentMessages))))
      w1
    = match result (runAgent svc history w1) with
      | Returned agentMessages =>
          {| result := Returned (TurnResponse conversation
                                   (responseText agentMessages));
             world := world (saveMessages svc conversation agentMessages
                               (world (runAgent svc history w1)));
             trace := (trace (runAgent svc history w1)
                       ++ trace (saveMessages svc conversation agentMessages
                                   (world (runAgent svc history w1))))%list |}
      | Thrown e =>
          {| result := Thrown e; world := world (runAgent svc history w1);
             trace := trace (runAgent svc history w1) |}
      | OutOfFuel =>
          {| result := OutOfFuel; world := world (runAgent svc history w1);
             trace := trace (runAgent svc history w1) |}
      end).
  { unfold bind at 1.
    destruct (result (runAgent svc history w1)) as [agentMessages| e |];
      try reflexivity.
    rewrite (bind_returned _ _ _ tt) by apply saveMessages_facts.
    unfold prepend, ret. cbn [result world trace]. now rewrite app_nil_r. }
  intros ->. rewrite Hclose. unfold closing.
  destruct (result (runAgent svc history w1)) as [agentMessages| e |];
    unfold prepend; cbn [result world trace]; try reflexivity.
  unfold bind, log, ret. cbn [result world trace app].
  now rewrite <- app_assoc.
Qed.

Lemma handler_turn_outcome req w : handler svc req w = turn_outcome svc req w.
Proof.
  unfold handler, turn_outcome, user_row.
  destruct (method req =? "OPTIONS"); [reflexivity|].
  rewrite try_catch_run.
  destruct (json_body req) as [e|body];
    [apply caught_failure; reflexivity|].
  repeat turn_step.
  destruct (createClient svc (env_get svc "SUPABASE_URL")
              (env_get svc "SUPABASE_SERVICE_ROLE_KEY")) as [e|];
    [apply caught_failure; repeat turn_step; reflexivity|].
  repeat turn_step. cbv zeta.
  destruct (truthy (conversationId body)); repeat turn_step.
  - destruct (fst (insert_message svc _ w)) as [e|];
      [apply caught_failure; repeat turn_step; reflexivity|].
    repeat turn_step.
    destruct (fst (select_messages svc _ _)) as [e|history];
      [apply caught_failure; repeat turn_step; reflexivity|].
    apply caught_agent. repeat turn_step. now rewrite !prepend_prepend.
  - destruct (fst (insert_conversation svc _ w)) as [e|conversation];
      [apply caught_failure; repeat turn_step; reflexivity|].
    repeat turn_step.
    destruct (fst (insert_message svc _ _)) as [e|];
      [apply caught_failure; repeat turn_step; reflexivity|].
    repeat turn_step.
    destruct (fst (select_messages svc _ _)) as [e|history];
      [apply caught_failure; repeat turn_step; reflexivity|].
    apply caught_agent. repeat turn_step. now rewrite !prepend_prepend.
Qed.

End Unrolled.

(** *** Counting searches *)

Lemma search_calls_app t1 t2 :
  search_calls (t1 ++ t2) = search_calls t1 + search_calls t2.
Proof. unfold search_calls. now rewrite filter_app, length_app. Qed.

Lemma exchanges_app t1 t2 :
  exchanges (t1 ++ t2) = (exchanges t1 ++ exchanges t2)%list.
Proof.
  induction t1 as [|e t1 IH]; [reflexivity|].
  destruct e; cbn; now rewrite ?IH.
Qed.

Lemma no_exchanges t : completion_calls t = 0 -> exchanges t = [].
Proof.
  unfold completion_calls. induction t as [|e t IH]; [reflexivity|].
  destruct e; cbn; try exact IH. discriminate.
Qed.

Lemma executions_app t1 t2 :
  executions (t1 ++ t2) = (executions t1 ++ executions t2)%list.
Proof.
  induction t1 as [|e t1 IH]; [reflexivity|].
  destruct e; cbn; now rewrite ?IH.
Qed.

Lemma no_executions t : tool_invocations t = 0 -> executions t = [].
Proof.
  unfold tool_invocations. induction t as [|e t IH]; [reflexivity|].
  destruct e; cbn; try exact IH. discriminate.
Qed.

Lemma in_exchanges request reply t :
  In (EvCompletion request reply) t -> In (request, reply) (exchanges t).
Proof.
  induction t as [|e t IH]; [intros []|].
  intros [->|Hin]; [now left|].
  destruct e; cbn; try right; now apply IH.
Qed.

Lemma reply_result_message reply m finish_reason :
  reply_result reply = Returned (m, finish_reason) ->
  role m = assistant /\ tool_call_id m = None.
Proof.
  destruct reply; cbn; try discriminate.
  intros H. injection H as <- _. split; reflexivity.
Qed.

(** *** [Array.prototype.map] with an index *)

Lemma mapi_from_length {A B} (f : A -> nat -> B) l : forall i,
  length (mapi_from i f l) = length l.
Proof. induction l as [|x l IH]; intros i; cbn; [reflexivity | now rewrite IH]. Qed.

Lemma mapi_from_nth {A B} (f : A -> nat -> B) l : forall i k x,
  nth_error l k = Some x ->
  nth_error (mapi_from i f l) k = Some (f x (i + k)).
Proof.
  induction l as [|y l IH]; intros i k x H; [now destruct k|].
  destruct k as [|k]; cbn in *.
  - injection H as ->. now rewrite Nat.add_0_r.
  - rewrite (IH (S i) k x H). f_equal. f_equal. lia.
Qed.

(** *** The search tool, by cases *)

Section Search.
Context {W : Type} (svc : Services W).

Lemma webSearch_without_key query w :
  truthy (env_get svc "TAVILY_API_KEY") = false ->
  webSearch svc query w
  = {| result := Returned missingTavilyKey; world := w; trace := [] |}.
Proof. intros H. unfold webSearch. now rewrite H. Qed.

Lemma webSearch_with_key query w :
  truthy (env_get svc "TAVILY_API_KEY") = true ->
  let request := search_request_for svc query in
  let reply := fst (tavily_fetch svc request w) in
  world (webSearch svc query w) = snd (tavily_fetch svc request w)
  /\ trace (webSearch svc query w) = [EvSearch request reply]
  /\ result (webSearch svc query w)
     = Returned
         match reply with
         | Tavily.Throws e => "Search error: " ++ message_of e
         | Tavily.NotOk status =>
             "Search error: Tavily API error: " ++ show_nat status
         | Tavily.Data None | Tavily.Data (Some []) => "No search results found."
         | Tavily.Data (Some results) =>
             String.concat (newline ++ newline) (mapi render_result results)
         end.
Proof.
  intros H request reply. subst request reply.
  unfold webSearch, search_request_for. rewrite H. cbn [negb].
  unfold try_catch, bind, call. cbn [result world trace].
  destruct (fst (tavily_fetch svc _ w)) as [e|status|[[|r rs]|]];
    cbn; repeat split; reflexivity.
Qed.

End Search.

(** *** The completion requests of a run *)

Section Requests.
Context {W : Type} (svc : Services W).

(** What one call of [callOpenAI] exchanges with the provider. *)
Lemma callOpenAI_exchange messages w :
  (truthy (env_get svc "OPENAI_API_KEY") = false
   /\ trace (callOpenAI svc messages true w) = []
   /\ exists reply,
        result (callOpenAI svc messages true w) = Returned reply
        /\ no_tool_calls (fst reply) = true)
  \/ (truthy (env_get svc "OPENAI_API_KEY") = true
      /\ exists reply,
           trace (callOpenAI svc messages true w)
           = [EvCompletion (request_for svc messages true) reply]
           /\ result (callOpenAI svc messages true w) = reply_result reply).
Proof.
  destruct (truthy (env_get svc "OPENAI_API_KEY")) eqn:Hkey.
  - right. split; [reflexivity|].
    rewrite (callOpenAI_with_key svc messages true w Hkey).
    eexists. split; reflexivity.
  - left. split; [reflexivity|].
    rewrite (callOpenAI_without_key svc messages true w Hkey).
    split; [reflexivity|]. eexists. split; reflexivity.
Qed.

Lemma agentLoop_chain fuel : forall st w,
  Chain svc (conversationMessages st)
    (exchanges (trace (agentLoop svc fuel st w))).
Proof.
  induction fuel as [|fuel IH]; intros st w.
  - cbn [agentLoop]. destruct (Nat.ltb (iterations st) maxIterations);
      apply chain_end.
  - rewrite agentLoop_step.
    destruct (Nat.ltb (iterations st) maxIterations); [|apply chain_end].
    cbv zeta.
    destruct (callOpenAI_exchange (conversationMessages st) w)
      as [(_ & Htrace & reply & Hres & Hnone)
         |(_ & reply0 & Htrace & Hres)].
    + rewrite Hres, Hnone. cbn [trace]. rewrite Htrace. apply chain_end.
    + destruct (result (callOpenAI svc (conversationMessages st) true w))
        as [reply| e |] eqn:Hcall; cbn [trace];
        try (rewrite Htrace; apply chain_last).
      destruct (no_tool_calls (fst reply)) eqn:Hcalls; cbn [trace];
        [rewrite Htrace; apply chain_last|].
      set (w1 := world (callOpenAI svc (conversationMessages st) true w)).
      destruct (executeToolCalls_facts svc
                  (calls_of (fst reply)) (entering (fst reply) st) w1)
        as (_ & Tc & _ & _ & Tret).
      unfold prepend, bind. cbn [trace].
      destruct (result (executeToolCalls svc (calls_of (fst reply))
                          (entering (fst reply) st) w1)) as [st1| e |] eqn:Htools;
        cbn [trace]; rewrite !exchanges_app, Htrace, (no_exchanges _ Tc);
        cbn [exchanges app]; try apply chain_last.
      destruct (Tret st1 eq_refl) as (_ & toolMessages & Hans & ->).
      apply (chain_next svc _ reply0 (fst reply) (snd reply) toolMessages);
        try assumption.
      { rewrite <- Hres. now destruct reply. }
      assert (Heq : (conversationMessages st ++ fst reply :: toolMessages)%list
                    = (conversationMessages (entering (fst reply) st)
                       ++ toolMessages)%list)
        by (unfold entering, push_both; cbn [conversationMessages];
            now rewrite <- app_assoc).
      rewrite Heq.
      exact (IH {| iterations := iterations (entering (fst reply) st);
                   conversationMessages :=
                     (conversationMessages (entering (fst reply) st)
                      ++ toolMessages)%list;
                   newMessages :=
                     (newMessages (entering (fst reply) st)
                      ++ toolMessages)%list |} _).
Qed.

Lemma answers_are_produced calls toolMessages :
  Forall2 answer calls toolMessages -> Forall produced_role toolMessages.
Proof.
  induction 1 as [|c t cs ts Hct _ IH]; constructor;
    [right; apply Hct | assumption].
Qed.

Lemma Chain_members t made :
  Chain svc t made ->
  forall request reply,
    In (request, reply) made ->
    exists extra,
      request = request_for svc (t ++ extra) true
      /\ Forall produced_role extra.
Proof.
  induction 1 as [t | t reply0 | t reply0 m fr toolMessages rest Hm Hc Hans _ IH];
    intros request reply Hin.
  - destruct Hin.
  - destruct Hin as [H|[]]. injection H as <- _.
    exists []. rewrite app_nil_r. split; constructor.
  - destruct Hin as [H|Hin].
    + injection H as <- _. exists []. rewrite app_nil_r. split; constructor.
    + destruct (IH request reply Hin) as (extra & -> & Hextra).
      exists (m :: toolMessages ++ extra)%list. split.
      * now rewrite <- app_assoc.
      * constructor; [left; exact (proj1 (reply_result_message _ _ _ Hm))|].
        apply Forall_app. split; [|assumption].
        exact (answers_are_produced _ _ Hans).
Qed.

(** Tool messages make no round of their own. *)
Lemma rounds_from_answers calls toolMessages :
  Forall2 answer calls toolMessages ->
  forall seen rest,
    rounds_from seen (toolMessages ++ rest)
    = rounds_from (seen ++ toolMessages) rest.
Proof.
  induction 1 as [|c t cs ts (Hrole & _) _ IH]; intros seen rest.
  - now rewrite app_nil_r.
  - cbn [app rounds_from]. unfold has_role. rewrite Hrole. cbn [Role_eqb].
    rewrite IH, <- app_assoc. reflexivity.
Qed.

(** On a run that returns, with the key set, the exchanges are the
    rounds of what the run has pushed. *)
Lemma agentLoop_rounds base fuel : forall st w st',
  truthy (env_get svc "OPENAI_API_KEY") = true ->
  conversationMessages st = (base ++ newMessages st)%list ->
  result (agentLoop svc fuel st w) = Returned st' ->
  exists suffix,
    newMessages st' = (newMessages st ++ suffix)%list
    /\ Forall2 (round_of svc base)
         (exchanges (trace (agentLoop svc fuel st w)))
         (rounds_from (newMessages st) suffix).
Proof.
  induction fuel as [|fuel IH]; intros st w st' Hkey Hinv.
  - cbn [agentLoop]. destruct (Nat.ltb (iterations st) maxIterations);
      cbn; intros H; [discriminate|]. injection H as <-.
    exists []. rewrite app_nil_r. split; [reflexivity | constructor].
  - rewrite agentLoop_step.
    destruct (Nat.ltb (iterations st) maxIterations).
    2:{ cbn. intros H. injection H as <-.
        exists []. rewrite app_nil_r. split; [reflexivity | constructor]. }
    cbv zeta.
    destruct (callOpenAI_exchange (conversationMessages st) w)
      as [(Hno & _)|(_ & reply0 & Htrace & Hres)]; [congruence|].
    destruct (result (callOpenAI svc (conversationMessages st) true w))
      as [reply| e |] eqn:Hcall; cbn [result trace]; try discriminate.
    assert (Hreply : reply_result reply0 = Returned (fst reply, snd reply))
      by (rewrite <- Hres; now destruct reply).
    destruct (reply_result_message _ _ _ Hreply) as [Hassistant _].
    assert (Hround : round_of svc base
                       (request_for svc (conversationMessages st) true, reply0)
                       (newMessages st, fst reply)).
    { split; cbn [fst snd]; [now rewrite Hinv | now exists (snd reply)]. }
    destruct (no_tool_calls (fst reply)) eqn:Hcalls; cbn [result trace].
    + intros H. injection H as <-. cbn [newMessages].
      exists [fst reply]. split; [reflexivity|].
      rewrite Htrace. cbn [exchanges rounds_from]. unfold has_role.
      rewrite Hassistant. cbn [Role_eqb].
      constructor; [exact Hround | constructor].
    + set (w1 := world (callOpenAI svc (conversationMessages st) true w)).
      destruct (executeToolCalls_facts svc
                  (calls_of (fst reply)) (entering (fst reply) st) w1)
        as (_ & Tc & _ & _ & Tret).
      unfold prepend, bind. cbn [result trace].
      destruct (result (executeToolCalls svc (calls_of (fst reply))
                          (entering (fst reply) st) w1)) as [st1| e |] eqn:Htools;
        cbn [result trace]; try discriminate.
      destruct (Tret st1 eq_refl) as (_ & toolMessages & Hans & Hst1).
      intros H.
      assert (Hinv1 : conversationMessages st1
                      = (base ++ newMessages st1)%list).
      { rewrite Hst1. unfold entering, push_both.
        cbn [conversationMessages newMessages].
        rewrite Hinv, <- !app_assoc. reflexivity. }
      destruct (IH st1 _ st' Hkey Hinv1 H) as (suffix & Hnew & Hrounds).
      exists (fst reply :: toolMessages ++ suffix)%list. split.
      * rewrite Hnew, Hst1. unfold entering, push_both. cbn [newMessages].
        rewrite <- !app_assoc. reflexivity.
      * rewrite !exchanges_app, Htrace, (no_exchanges _ Tc).
        cbn [exchanges app rounds_from]. unfold has_role at 1.
        rewrite Hassistant. cbn [Role_eqb]. constructor; [exact Hround|].
        rewrite (rounds_from_answers _ _ Hans).
        assert (Hn : newMessages st1
                     = ((newMessages st ++ [fst reply]) ++ toolMessages)%list)
          by (rewrite Hst1; reflexivity).
        rewrite Hn in Hrounds. exact Hrounds.
Qed.

End Requests.

(** *** Counting the messages of the output *)

Section Counting.

Lemma count_role_app r ms1 ms2 :
  count_role r (ms1 ++ ms2) = count_role r ms1 + count_role r ms2.
Proof. unfold count_role. now rewrite filter_app, length_app. Qed.

Lemma requested_calls_app ms1 ms2 :
  requested_calls (ms1 ++ ms2) = requested_calls ms1 + requested_calls ms2.
Proof. unfold requested_calls. now rewrite map_app, list_sum_app. Qed.

Lemma count_role_one r m :
  count_role r [m] = if Role_eqb (role m) r then 1 else 0.
Proof. unfold count_role, has_role. cbn. now destruct (Role_eqb (role m) r). Qed.

Lemma requested_calls_one m : requested_calls [m] = length (calls_of m).
Proof. unfold requested_calls. cbn. lia. Qed.

Lemma answers_count calls toolMessages :
  Forall2 answer calls toolMessages ->
  count_role tool toolMessages = length calls
  /\ count_role assistant toolMessages = 0
  /\ requested_calls toolMessages = 0.
Proof.
  induction 1 as [|c t cs ts (Hrole & _ & Hnone) _ (IHt & IHa & IHs)];
    [repeat split|].
  change (t :: ts) with ([t] ++ ts)%list.
  rewrite !count_role_app, requested_calls_app, !count_role_one,
    requested_calls_one, IHt, IHa, IHs, Hrole.
  unfold calls_of. rewrite Hnone. repeat split.
Qed.

Lemma answers_end_with_tool calls toolMessages :
  Forall2 answer calls toolMessages -> calls <> [] ->
  exists front t, toolMessages = (front ++ [t])%list /\ role t = tool.
Proof.
  intros H Hcalls.
  destruct (exists_last (l := toolMessages)) as (front & t & ->).
  { intros ->. inversion H. now subst. }
  exists front, t. split; [reflexivity|].
  apply Forall2_app_inv_r in H. destruct H as (c1 & c2 & _ & H2 & _).
  inversion H2 as [|? ? ? ? Hans _]; subst. apply Hans.
Qed.

Lemma calls_of_nonempty m : no_tool_calls m = false -> calls_of m <> [].
Proof.
  unfold no_tool_calls, calls_of. destruct (tool_calls m) as [[|c cs]|];
    discriminate.
Qed.

(** The assistant messages of the output count the iterations; the
    tool messages count the calls that the assistant messages hold. *)
Lemma Reach_counts st st' :
  Reach st st' ->
  count_role assistant (newMessages st') + iterations st
  = count_role assistant (newMessages st) + iterations st'
  /\ count_role tool (newMessages st') + requested_calls (newMessages st)
     = count_role tool (newMessages st) + requested_calls (newMessages st').
Proof.
  induction 1 as [st H | st m H Ha Hid Hc | st m tms st' H Ha Hid Hc Hans _ IH];
    cbn [newMessages iterations] in *.
  - split; reflexivity.
  - rewrite !count_role_app, requested_calls_app, !count_role_one,
      requested_calls_one, Ha, (no_tool_calls_calls_of m Hc). cbn. lia.
  - destruct IH as [IHa IHt].
    destruct (answers_count _ _ Hans) as (Ht & Hz & Hs).
    change (m :: tms) with ([m] ++ tms)%list in IHa, IHt.
    rewrite !count_role_app, count_role_one, Hz, Ha in IHa.
    rewrite !count_role_app, !requested_calls_app, count_role_one,
      requested_calls_one, Ht, Hs, Ha in IHt.
    cbn [Role_eqb] in IHa, IHt. lia.
Qed.

(** A run ends on an answer, or at the cap on a tool message (or, from
    a state at the cap, with nothing pushed). *)
Lemma Reach_ends st st' :
  Reach st st' ->
  (exists front m,
      newMessages st' = (front ++ [m])%list
      /\ role m = assistant /\ no_tool_calls m = true)
  \/ (maxIterations <= iterations st'
      /\ (newMessages st' = newMessages st
          \/ exists front t,
               newMessages st' = (front ++ [t])%list /\ role t = tool)).
Proof.
  induction 1 as [st H | st m H Ha Hid Hc | st m tms st' H Ha Hid Hc Hans _ IH];
    cbn [newMessages iterations] in *.
  - right. split; [assumption | now left].
  - left. exists (newMessages st), m. repeat split; assumption.
  - destruct IH as [IH|(Hcap & [Heq|(front & t & Heq & Ht)])].
    + now left.
    + right. split; [assumption|]. right.
      destruct (answers_end_with_tool _ _ Hans (calls_of_nonempty m Hc))
        as (front & t & -> & Ht).
      exists (newMessages st ++ m :: front)%list, t. split; [|assumption].
      rewrite Heq, <- app_assoc. reflexivity.
    + right. split; [assumption|]. right. now exists front, t.
Qed.

End Counting.

Section Invocations.
Context {W : Type} (svc : Services W).

(** On a run that returns, [executeTool] has been entered once per
    tool message pushed. *)
Lemma agentLoop_invocations fuel : forall st w st',
  result (agentLoop svc fuel st w) = Returned st' ->
  tool_invocations (trace (agentLoop svc fuel st w))
  + count_role tool (newMessages st)
  = count_role tool (newMessages st').
Proof.
  induction fuel as [|fuel IH]; intros st w st'.
  - cbn [agentLoop]. destruct (Nat.ltb (iterations st) maxIterations);
      cbn; intros H; [discriminate | now injection H as <-].
  - rewrite agentLoop_step.
    destruct (Nat.ltb (iterations st) maxIterations);
      [|cbn; intros H; now injection H as <-].
    cbv zeta.
    destruct (callOpenAI_facts svc (conversationMessages st) true w)
      as (_ & _ & Ht & _ & Hrole).
    destruct (result (callOpenAI svc (conversationMessages st) true w))
      as [reply| e |] eqn:Hres; cbn [result trace]; try discriminate.
    destruct (Hrole reply eq_refl) as [Hassistant _].
    destruct (no_tool_calls (fst reply)) eqn:Hcalls; cbn [result trace].
    + intros H. injection H as <-. cbn [newMessages].
      rewrite Ht, count_role_app, count_role_one, Hassistant. cbn. lia.
    + set (w1 := world (callOpenAI svc (conversationMessages st) true w)).
      destruct (executeToolCalls_facts svc
                  (calls_of (fst reply)) (entering (fst reply) st) w1)
        as (_ & _ & _ & _ & Tret).
      unfold prepend, bind. cbn [result trace].
      destruct (result (executeToolCalls svc (calls_of (fst reply))
                          (entering (fst reply) st) w1)) as [st1| e |] eqn:Htools;
        cbn [result trace]; try discriminate.
      destruct (Tret st1 eq_refl) as (Hn & toolMessages & Hans & Hst1).
      intros H. specialize (IH st1 _ st' H).
      rewrite !tool_invocations_app, Ht, Hn.
      destruct (answers_count _ _ Hans) as (Hcount & _ & _).
      rewrite <- IH, Hst1. unfold entering, push_both.
      cbn [newMessages]. rewrite !count_role_app, count_role_one, Hassistant.
      cbn [Role_eqb]. rewrite Hcount. lia.
Qed.

End Invocations.

(** *** Searches in a run *)

Section Searches.
Context {W : Type} (svc : Services W).

Lemma executeTool_searches tool_name args w request reply :
  In (EvSearch request reply) (trace (executeTool svc tool_name args w)) ->
  tool_name = "web_search"
  /\ truthy (env_get svc "TAVILY_API_KEY") = true
  /\ request = search_request_for svc (query_of args).
Proof.
  unfold executeTool.
  destruct (String.eqb_spec tool_name "web_search") as [->|Hname].
  2:{ cbn. intros [H|[]]. discriminate. }
  destruct (truthy (env_get svc "TAVILY_API_KEY")) eqn:Hkey.
  - destruct args; run_step;
      try (intros [H|[]]; discriminate);
      match goal with
      | |- context [webSearch svc ?q w] =>
          destruct (webSearch_with_key svc q w Hkey) as (_ & Htrace & Hres)
      end;
      cbv zeta in *; rewrite Htrace;
      (intros [H|[H|[]]]; [discriminate|]);
      injection H as <- _; repeat split.
  - destruct args; run_step;
      try (intros [H|[]]; discriminate);
      rewrite (webSearch_without_key svc _ w Hkey); cbn [result world trace app];
      intros [H|[]]; discriminate.
Qed.

Lemma no_search_in t :
  (forall request reply, ~ In (EvSearch request reply) t) -> search_calls t = 0.
Proof.
  unfold search_calls. induction t as [|e t IH]; intros H; [reflexivity|].
  destruct e; cbn; try (apply IH; intros rq rp Hin; apply (H rq rp); now right).
  destruct (H request reply). now left.
Qed.

Lemma executeTool_without_search_key tool_name args w :
  truthy (env_get svc "TAVILY_API_KEY") = false ->
  search_calls (trace (executeTool svc tool_name args w)) = 0.
Proof.
  intros Hkey. apply no_search_in. intros request reply Hin.
  destruct (executeTool_searches _ _ _ _ _ Hin) as (_ & H & _). congruence.
Qed.

Lemma executeToolCalls_without_search_key calls : forall st w,
  truthy (env_get svc "TAVILY_API_KEY") = false ->
  search_calls (trace (executeToolCalls svc calls st w)) = 0.
Proof.
  induction calls as [|call rest IH]; intros st w Hkey; [reflexivity|].
  rewrite executeToolCalls_cons.
  destruct (JSON_parse svc (arguments (function call))) as [m|args];
    [reflexivity|].
  cbv zeta.
  pose proof (executeTool_without_search_key (name (function call)) args w Hkey)
    as Hexec.
  destruct (result (executeTool svc (name (function call)) args w));
    unfold prepend; cbn [trace]; try exact Hexec.
  now rewrite search_calls_app, Hexec, IH.
Qed.

Lemma callOpenAI_searches_nothing messages includeTools w :
  search_calls (trace (callOpenAI svc messages includeTools w)) = 0.
Proof.
  destruct (truthy (env_get svc "OPENAI_API_KEY")) eqn:Hkey.
  - now rewrite (callOpenAI_with_key svc messages includeTools w Hkey).
  - now rewrite (callOpenAI_without_key svc messages includeTools w Hkey).
Qed.

Lemma agentLoop_without_search_key fuel : forall st w,
  truthy (env_get svc "TAVILY_API_KEY") = false ->
  search_calls (trace (agentLoop svc fuel st w)) = 0.
Proof.
  induction fuel as [|fuel IH]; intros st w Hkey.
  - cbn [agentLoop]. now destruct (Nat.ltb (iterations st) maxIterations).
  - rewrite agentLoop_step.
    destruct (Nat.ltb (iterations st) maxIterations); [|reflexivity].
    cbv zeta.
    pose proof (callOpenAI_searches_nothing (conversationMessages st) true w)
      as Hcall.
    destruct (result (callOpenAI svc (conversationMessages st) true w))
      as [reply| e |]; cbn [trace]; try exact Hcall.
    destruct (no_tool_calls (fst reply)); cbn [trace]; [exact Hcall|].
    unfold prepend, bind. cbn [trace].
    pose proof (executeToolCalls_without_search_key (calls_of (fst reply))
                  (entering (fst reply) st)
                  (world (callOpenAI svc (conversationMessages st) true w)) Hkey)
      as Htools.
    destruct (result (executeToolCalls svc _ _ _)) as [st1| e |];
      cbn [trace]; rewrite !search_calls_app, Hcall, Htools; try reflexivity.
    now rewrite IH.
Qed.

End Searches.

(* ------------------------------------------------------------------ *)
(** *** Which tools are entered, and what they answer *)

Section Executions.
Context {W : Type} (svc : Services W).

Lemma executeTool_search args w :
  executeTool svc "web_search" args w
  = match get_property args "query" with
    | inl e =>
        {| result := Thrown e; world := w;
           trace := [EvExecuteTool "web_search" args] |}
    | inr query =>
        prepend [EvExecuteTool "web_search" args] (webSearch svc query w)
    end.
Proof.
  unfold executeTool. rewrite String.eqb_refl.
  unfold bind at 1. unfold log. cbn [result world trace].
  destruct (get_property args "query") as [e|query]; cbn [lift].
  - rewrite bind_throw. reflexivity.
  - rewrite bind_ret. reflexivity.
Qed.

(** A tool that returns has been entered once, with the name and the
    arguments given, and its text can be read off its events. *)
Lemma executeTool_execution tool_name args w text :
  result (executeTool svc tool_name args w) = Returned text ->
  executions (trace (executeTool svc tool_name args w)) = [(tool_name, args)]
  /\ forall rest,
       tool_texts svc (trace (executeTool svc tool_name args w) ++ rest)
       = text :: tool_texts svc rest.
Proof.
  destruct (String.eqb_spec tool_name "web_search") as [->|Hname].
  - rewrite executeTool_search.
    destruct (get_property args "query") as [e|query]; [discriminate|].
    unfold prepend. cbn [result trace].
    destruct (truthy (env_get svc "TAVILY_API_KEY")) eqn:Hkey.
    + destruct (webSearch_with_key svc query w Hkey) as (_ & Htrace & Hres).
      cbv zeta in Htrace, Hres. rewrite Htrace, Hres.
      intros H. injection H as <-. split; [reflexivity|].
      intros rest. cbn [app tool_texts]. rewrite String.eqb_refl, Hkey.
      reflexivity.
    + rewrite (webSearch_without_key svc query w Hkey). cbn [result trace].
      intros H. injection H as <-. split; [reflexivity|].
      intros rest. cbn [app tool_texts]. rewrite String.eqb_refl, Hkey.
      reflexivity.
  - rewrite (executeTool_unknown svc _ args w Hname). cbn [result trace].
    intros H. injection H as <-. split; [reflexivity|].
    intros rest. cbn [app tool_texts].
    destruct (String.eqb_spec tool_name "web_search"); [contradiction|].
    reflexivity.
Qed.

Lemma executeToolCalls_executions calls : forall st w st',
  result (executeToolCalls svc calls st w) = Returned st' ->
  exists toolMessages,
    Forall2 answer calls toolMessages
    /\ st' = {| iterations := iterations st;
                conversationMessages :=
                  (conversationMessages st ++ toolMessages)%list;
                newMessages := (newMessages st ++ toolMessages)%list |}
    /\ map entered (executions (trace (executeToolCalls svc calls st w)))
       = map (execution_of svc) calls
    /\ forall rest,
         tool_texts svc (trace (executeToolCalls svc calls st w) ++ rest)
         = (map content toolMessages ++ tool_texts svc rest)%list.
Proof.
  induction calls as [|call calls IH]; intros st w st'.
  - cbn. intros H. injection H as <-. exists [].
    rewrite !app_nil_r. split; [constructor|]. split; [now destruct st|].
    split; reflexivity.
  - rewrite executeToolCalls_cons. unfold execution_of at 1.
    destruct (JSON_parse svc (arguments (function call))) as [m|args] eqn:Hparse;
      [discriminate|].
    cbv zeta.
    destruct (result (executeTool svc (name (function call)) args w))
      as [text| e |] eqn:Htext; try discriminate.
    destruct (executeTool_execution _ _ _ _ Htext) as (Hexec & Htexts).
    unfold prepend. cbn [result trace]. intros H.
    destruct (IH _ _ _ H) as (toolMessages & Hans & -> & Hrest & Hrests).
    exists ({| role := tool; content := text; tool_calls := None;
               tool_call_id := Some (id call) |} :: toolMessages).
    split; [constructor; [repeat split | assumption]|].
    split.
    { unfold push_both. cbn [iterations conversationMessages newMessages].
      now rewrite <- !app_assoc. }
    split.
    + rewrite executions_app, map_app, Hexec, Hrest. cbn [map app].
      unfold entered, execution_of. cbn [fst snd]. now rewrite Hparse.
    + intros rest. rewrite <- app_assoc, Htexts, Hrests. reflexivity.
Qed.

Lemma callOpenAI_enters_nothing messages w :
  executions (trace (callOpenAI svc messages true w)) = []
  /\ forall rest,
       tool_texts svc (trace (callOpenAI svc messages true w) ++ rest)
       = tool_texts svc rest.
Proof.
  destruct (callOpenAI_exchange svc messages w)
    as [(_ & -> & _)|(_ & reply & -> & _)]; split; reflexivity.
Qed.

Lemma answers_requested calls toolMessages :
  Forall2 answer calls toolMessages ->
  requested toolMessages = []
  /\ filter (has_role tool) toolMessages = toolMessages
  /\ map tool_call_id toolMessages = map id_of calls.
Proof.
  induction 1 as [|c t cs ts (Hrole & Hid & Hnone) _ (IHr & IHf & IHi)];
    [repeat split|].
  unfold requested in *. cbn [flat_map filter map]. unfold calls_of at 1.
  unfold has_role at 1. rewrite Hnone, Hrole, IHr, IHf, IHi, Hid.
  repeat split.
Qed.

(** On a run that returns: the tools entered are the calls of what
    the run has pushed, each under its name and with its parsed
    arguments; the tool messages pushed bear the ids of these calls
    and the texts of these executions, all in order. *)
Lemma agentLoop_executions fuel : forall st w st',
  result (agentLoop svc fuel st w) = Returned st' ->
  exists suffix,
    newMessages st' = (newMessages st ++ suffix)%list
    /\ map entered (executions (trace (agentLoop svc fuel st w)))
       = map (execution_of svc) (requested suffix)
    /\ map tool_call_id (filter (has_role tool) suffix)
       = map id_of (requested suffix)
    /\ map content (filter (has_role tool) suffix)
       = tool_texts svc (trace (agentLoop svc fuel st w)).
Proof.
  induction fuel as [|fuel IH]; intros st w st'.
  - cbn [agentLoop]. destruct (Nat.ltb (iterations st) maxIterations);
      cbn; intros H; [discriminate|]. injection H as <-.
    exists []. rewrite app_nil_r. repeat split.
  - rewrite agentLoop_step.
    destruct (Nat.ltb (iterations st) maxIterations).
    2:{ cbn. intros H. injection H as <-.
        exists []. rewrite app_nil_r. repeat split. }
    cbv zeta.
    destruct (callOpenAI_facts svc (conversationMessages st) true w)
      as (_ & _ & _ & _ & Hrole).
    destruct (callOpenAI_enters_nothing (conversationMessages st) w)
      as (Hnone & Hskip).
    destruct (result (callOpenAI svc (conversationMessages st) true w))
      as [reply| e |] eqn:Hcall; cbn [result trace]; try discriminate.
    destruct (Hrole reply eq_refl) as [Hassistant _].
    destruct (no_tool_calls (fst reply)) eqn:Hcalls; cbn [result trace].
    + intros H. injection H as <-. cbn [newMessages].
      exists [fst reply]. split; [reflexivity|].
      unfold requested. cbn [flat_map filter]. unfold has_role.
      rewrite (no_tool_calls_calls_of _ Hcalls), Hassistant, Hnone.
      cbn [Role_eqb app map]. repeat split.
      specialize (Hskip []). rewrite app_nil_r in Hskip. now rewrite Hskip.
    + set (w1 := world (callOpenAI svc (conversationMessages st) true w)).
      unfold prepend, bind. cbn [result trace].
      destruct (result (executeToolCalls svc (calls_of (fst reply))
                          (entering (fst reply) st) w1)) as [st1| e |] eqn:Htools;
        cbn [result trace]; try discriminate.
      destruct (executeToolCalls_executions _ _ _ _ Htools)
        as (toolMessages & Hans & Hst1 & Hexec & Htexts).
      destruct (answers_requested _ _ Hans) as (Hreq & Hfilter & Hids).
      intros H.
      destruct (IH st1 _ st' H) as (suffix & Hnew & IHexec & IHids & IHtexts).
      exists (fst reply :: toolMessages ++ suffix)%list.
      assert (Hrequested : requested (fst reply :: toolMessages ++ suffix)
                           = (calls_of (fst reply) ++ requested suffix)%list).
      { unfold requested in *. cbn [flat_map].
        now rewrite flat_map_app, Hreq. }
      assert (Hfiltered : filter (has_role tool)
                            (fst reply :: toolMessages ++ suffix)
                          = (toolMessages
                             ++ filter (has_role tool) suffix)%list).
      { cbn [filter]. unfold has_role at 1. rewrite Hassistant.
        cbn [Role_eqb]. now rewrite filter_app, Hfilter. }
      rewrite Hrequested, Hfiltered, !map_app.
      split.
      { rewrite Hnew, Hst1. unfold entering, push_both. cbn [newMessages].
        now rewrite <- !app_assoc. }
      split; [|split].
      * rewrite !executions_app, Hnone. cbn [app].
        now rewrite map_app, Hexec, IHexec.
      * now rewrite Hids, IHids.
      * now rewrite Hskip, Htexts, IHtexts.
Qed.

End Executions.

(** *** The end of a turn *)

Section Closing.
Context {W : Type} (svc : Services W).

Lemma saveMessages_rows conversation agentMessages : forall w row error,
  In (EvInsertMessage row error)
     (trace (saveMessages svc conversation agentMessages w)) ->
  exists m, In m agentMessages /\ row = row_of conversation m.
Proof.
  induction agentMessages as [|msg rest IH]; intros w row error; [intros []|].
  cbn [saveMessages]. rewrite bind_call. unfold prepend. cbn [trace app].
  intros [H|Hin].
  - injection H as <- _. exists msg. split; [now left | reflexivity].
  - destruct (IH _ _ _ Hin) as (m & Hm & ->). exists m. split; [now right|].
    reflexivity.
Qed.

Lemma saveMessages_searches_nothing conversation agentMessages : forall w,
  search_calls (trace (saveMessages svc conversation agentMessages w)) = 0.
Proof.
  induction agentMessages as [|msg rest IH]; intros w; [reflexivity|].
  cbn [saveMessages]. rewrite bind_call. unfold prepend. cbn [trace app].
  apply IH.
Qed.

(** The response after the agent has run. *)
Lemma closing_result conversation history w1 :
  (exists out,
      result (runAgent svc history w1) = Returned out
      /\ closing svc conversation (runAgent svc history w1)
         = {| result := Returned (TurnResponse conversation (responseText out));
              world := world (saveMessages svc conversation out
                                (world (runAgent svc history w1)));
              trace := (trace (runAgent svc history w1)
                        ++ trace (saveMessages svc conversation out
                                    (world (runAgent svc history w1))))%list |}
      /\ Forall produced_role out)
  \/ (exists e,
        result (runAgent svc history w1) = Thrown e
        /\ closing svc conversation (runAgent svc history w1)
           = {| result := Returned (Failure500 (message_of e));
                world := world (runAgent svc history w1);
                trace := (trace (runAgent svc history w1)
                          ++ [EvConsoleError e])%list |}).
Proof.
  destruct (runAgent_facts svc history w1) as (Hf & _ & _ & Hret).
  unfold closing.
  destruct (result (runAgent svc history w1)) as [out| e |]; [| |contradiction].
  - left. exists out. split; [reflexivity|]. split; [reflexivity|].
    destruct (Hret out eq_refl) as (st & _ & -> & Hreach).
    apply (Reach_roles _ _ Hreach). constructor.
  - right. exists e. split; reflexivity.
Qed.

Lemma agent_event_in t ev : Forall agent_event t -> In ev t -> agent_event ev.
Proof. intros H Hin. rewrite Forall_forall in H. now apply H. Qed.

End Closing.

(** *** Prefixes *)

Lemma substring_prefix n : forall s,
  String.length (substring 0 n s) <= n
  /\ exists rest, s = substring 0 n s ++ rest.
Proof.
  induction n as [|n IH]; intros s.
  - destruct s; cbn; (split; [lia|]); eexists; reflexivity.
  - destruct s as [|c s]; cbn.
    + split; [lia|]. exists "". reflexivity.
    + destruct (IH s) as (Hlen & rest & Hrest). split; [lia|].
      exists rest. now rewrite <- Hrest.
Qed.

(** *** Store calls in a turn *)

Section StoreCalls.
Context {W : Type} (svc : Services W).

(** Once the agent runs, no store call of the opening fails any more,
    and the rows stored are those of the output. *)
Lemma closing_events conversation history w1 ev :
  In ev (trace (closing svc conversation (runAgent svc history w1))) ->
  agent_event ev
  \/ (exists m error,
        ev = EvInsertMessage (row_of conversation m) error
        /\ produced_role m
        /\ exists out, result (runAgent svc history w1) = Returned out)
  \/ (exists e, ev = EvConsoleError e).
Proof.
  destruct (runAgent_facts svc history w1) as (_ & _ & Hev & _).
  destruct (closing_result svc conversation history w1)
    as [(out & Hout & -> & Hroles)|(e & _ & ->)]; cbn [trace];
    intros Hin; apply in_app_or in Hin; destruct Hin as [Hin|Hin].
  - left. exact (agent_event_in _ _ Hev Hin).
  - right. left.
    assert (Hrow : exists row error, ev = EvInsertMessage row error).
    { destruct (saveMessages_facts svc conversation out
                  (world (runAgent svc history w1))) as (_ & _ & Hins).
      cbv zeta in Hins. rewrite Forall_forall in Hins. exact (Hins _ Hin). }
    destruct Hrow as (row & error & ->).
    destruct (saveMessages_rows svc _ _ _ _ _ Hin) as (m & Hm & ->).
    exists m, error. split; [reflexivity|]. split; [|now exists out].
    rewrite Forall_forall in Hroles. now apply Hroles.
  - left. exact (agent_event_in _ _ Hev Hin).
  - right. right. destruct Hin as [<-|[]]. now exists e.
Qed.

Lemma closing_counts conversation history w1 :
  forall c t,
    result (closing svc conversation (runAgent svc history w1))
    = Returned (TurnResponse c t) ->
    c = conversation.
Proof.
  intros c t.
  destruct (closing_result svc conversation history w1)
    as [(out & _ & -> & _)|(e & _ & ->)]; cbn [result]; intros H;
    [now injection H as <- _ | discriminate].
Qed.

(** The turn from the point where the agent is started. *)
Lemma handler_from_agent_input req w :
  match agent_input svc req w with
  | Some (body, conversation, history, w1) =>
      exists pre,
        handler svc req w
        = prepend
            (pre ++ [EvInsertMessage (user_row conversation (message body)) None;
                     EvSelectMessages conversation (inr history)])
            (closing svc conversation (runAgent svc history w1))
        /\ (pre = []
            \/ exists title, pre = [EvInsertConversation title (inr conversation)])
  | None =>
      forall row error,
        In (EvInsertMessage row error) (trace (handler svc req w)) ->
        row_role row = user
  end.
Proof.
  rewrite handler_turn_outcome. unfold agent_input, turn_outcome, failed.
  destruct (method req =? "OPTIONS"); [intros ? ? []|].
  destruct (json_body req) as [e|body];
    [intros ? ? [H|[]]; discriminate|].
  destruct (createClient svc _ _) as [e|];
    [intros ? ? [H|[]]; discriminate|].
  cbv zeta.
  destruct (truthy (conversationId body)).
  - destruct (fst (insert_message svc _ w)) as [e|].
    { intros ? ? [H|[H|[]]]; [now injection H as <- _ | discriminate]. }
    destruct (fst (select_messages svc _ _)) as [e|history].
    { intros ? ? [H|[H|[H|[]]]];
        [now injection H as <- _ | discriminate ..]. }
    exists []. split; [reflexivity | now left].
  - destruct (fst (insert_conversation svc _ w)) as [e|conversation].
    { intros ? ? [H|[H|[]]]; discriminate. }
    destruct (fst (insert_message svc _ _)) as [e|].
    { intros ? ? [H|[H|[H|[]]]];
        [discriminate | now injection H as <- _ | discriminate]. }
    destruct (fst (select_messages svc _ _)) as [e|history].
    { intros ? ? [H|[H|[H|[H|[]]]]];
        [discriminate | now injection H as <- _ | discriminate ..]. }
    eexists. split; [reflexivity|]. right. eexists. reflexivity.
Qed.

End StoreCalls.

(** *** The messages on display *)

Section Display.

Lemma visibleMessages_ids rows :
  map Chat.id (Chat.visibleMessages (Some rows))
  = map Chat.stored_id
      (filter (fun m => Chat.shown (row_role (Chat.stored_row m))) rows).
Proof. unfold Chat.visibleMessages. now rewrite map_map. Qed.

Lemma visibleMessages_cons r rows :
  Chat.visibleMessages (Some (r :: rows))
  = if Chat.shown (row_role (Chat.stored_row r))
    then Chat.display r :: Chat.visibleMessages (Some rows)
    else Chat.visibleMessages (Some rows).
Proof.
  unfold Chat.visibleMessages. cbn [filter].
  now destruct (Chat.shown (row_role (Chat.stored_row r))).
Qed.

Lemma visibleMessages_on_display data :
  Forall on_display (Chat.visibleMessages data).
Proof.
  unfold Chat.visibleMessages. rewrite Forall_forall. intros m Hin.
  apply in_map_iff in Hin. destruct Hin as (r & <- & Hin).
  apply filter_In in Hin. exact (proj2 Hin).
Qed.

Lemma visibleMessages_in r rows :
  In (Chat.stored_id r)
     (map Chat.id (Chat.visibleMessages (Some rows))) ->
  In (Chat.stored_id r) (map Chat.stored_id rows).
Proof.
  rewrite visibleMessages_ids. intros Hin.
  apply in_map_iff in Hin. destruct Hin as (r' & Heq & Hin).
  apply filter_In in Hin. apply in_map_iff. exists r'. tauto.
Qed.

Lemma visibleMessages_unique rows :
  NoDup (map Chat.stored_id rows) ->
  NoDup (map Chat.id (Chat.visibleMessages (Some rows))).
Proof.
  induction rows as [|r rows IH]; intros Hnd; [constructor|].
  inversion Hnd as [|? ? Hnot Hrest]; subst.
  rewrite visibleMessages_cons.
  destruct (Chat.shown (row_role (Chat.stored_row r))); [|now apply IH].
  cbn [map Chat.display Chat.id]. constructor; [|now apply IH].
  intros Hin. apply Hnot. now apply visibleMessages_in.
Qed.

Lemma known_id newMessage prev :
  existsb (fun m => Chat.id m =? Chat.id newMessage) prev = true
  <-> In (Chat.id newMessage) (map Chat.id prev).
Proof.
  rewrite existsb_exists, in_map_iff. split.
  - intros (m & Hin & Heq). apply String.eqb_eq in Heq. now exists m.
  - intros (m & Heq & Hin). exists m. split; [assumption|].
    now apply String.eqb_eq.
Qed.

Lemma onInsert_known newMessage prev :
  In (Chat.id newMessage) (map Chat.id prev) ->
  Chat.onInsert newMessage prev = prev.
Proof.
  intros Hin. apply known_id in Hin. unfold Chat.onInsert. rewrite Hin.
  now destruct (Chat.shown (Chat.role newMessage)).
Qed.

Lemma onInsert_new newMessage prev :
  Chat.shown (Chat.role newMessage) = true ->
  ~ In (Chat.id newMessage) (map Chat.id prev) ->
  Chat.onInsert newMessage prev = (prev ++ [newMessage])%list.
Proof.
  intros Hshown Hnot. unfold Chat.onInsert. rewrite Hshown.
  destruct (existsb _ prev) eqn:E; [|reflexivity].
  apply known_id in E. contradiction.
Qed.

Lemma onInsert_hidden newMessage prev :
  Chat.shown (Chat.role newMessage) = false ->
  Chat.onInsert newMessage prev = prev.
Proof. intros H. unfold Chat.onInsert. now rewrite H. Qed.

Lemma onInsert_cases newMessage prev :
  Chat.onInsert newMessage prev = prev
  \/ (Chat.onInsert newMessage prev = (prev ++ [newMessage])%list
      /\ on_display newMessage
      /\ ~ In (Chat.id newMessage) (map Chat.id prev)).
Proof.
  destruct (Chat.shown (Chat.role newMessage)) eqn:Hshown;
    [|left; now apply onInsert_hidden].
  destruct (in_dec string_dec (Chat.id newMessage) (map Chat.id prev))
    as [Hin|Hnot]; [left; now apply onInsert_known|].
  right. split; [now apply onInsert_new|]. now split.
Qed.

Lemma NoDup_snoc {A} (l : list A) (x : A) :
  NoDup l -> ~ In x l -> NoDup (l ++ [x])%list.
Proof.
  induction 1 as [|y l Hy Hl IH]; intros Hx; cbn [app].
  - repeat constructor. intros [].
  - constructor.
    + intros Hin. apply in_app_or in Hin. destruct Hin as [Hin|[<-|[]]];
        [contradiction|]. apply Hx. now left.
    + apply IH. intros Hin. apply Hx. now right.
Qed.

Lemma step_on_display prev u :
  Forall on_display prev -> Forall on_display (Chat.step prev u).
Proof.
  intros Hprev. destruct u as [[e|data]|newMessage|]; cbn [Chat.step Chat.fetchMessages].
  - assumption.
  - apply visibleMessages_on_display.
  - destruct (onInsert_cases newMessage prev) as [->|(-> & Hm & _)];
      [assumption|].
    apply Forall_app. split; [assumption|]. now constructor.
  - constructor.
Qed.

Lemma step_unique prev u :
  Chat.unique_ids u ->
  NoDup (map Chat.id prev) -> NoDup (map Chat.id (Chat.step prev u)).
Proof.
  intros Hu Hprev.
  destruct u as [[e|[rows|]]|newMessage|]; cbn [Chat.step Chat.fetchMessages].
  - assumption.
  - now apply visibleMessages_unique.
  - constructor.
  - destruct (onInsert_cases newMessage prev) as [->|(-> & _ & Hnot)];
      [assumption|].
    rewrite map_app. cbn [map].
    now apply NoDup_snoc.
  - constructor.
Qed.

Lemma fold_step_invariant (P : list Chat.Message -> Prop) updates :
  (forall prev u, In u updates -> P prev -> P (Chat.step prev u)) ->
  forall prev, P prev -> P (fold_left Chat.step updates prev).
Proof.
  induction updates as [|u updates IH]; intros Hstep prev Hprev;
    [assumption|].
  cbn [fold_left]. apply IH.
  - intros prev' u' Hin. apply Hstep. now right.
  - apply Hstep; [now left | assumption].
Qed.

(** The rows of a stream, arriving one by one. *)
Lemma stream_appends rows : forall prev,
  NoDup (map Chat.stored_id rows) ->
  (forall r, In r rows -> ~ In (Chat.stored_id r) (map Chat.id prev)) ->
  fold_left (fun shown r => Chat.onInsert (Chat.display r) shown) rows prev
  = (prev ++ Chat.visibleMessages (Some rows))%list.
Proof.
  induction rows as [|r rows IH]; intros prev Hnd Hfresh.
  - cbn. now rewrite app_nil_r.
  - inversion Hnd as [|? ? Hnot Hrest]; subst.
    cbn [fold_left]. rewrite visibleMessages_cons.
    destruct (Chat.shown (row_role (Chat.stored_row r))) eqn:Hshown.
    + rewrite onInsert_new;
        [| exact Hshown | apply Hfresh; now left].
      rewrite IH; [now rewrite <- app_assoc | assumption |].
      intros r' Hin. rewrite map_app. cbn [map Chat.display Chat.id].
      intros Hin'. apply in_app_or in Hin'. destruct Hin' as [Hin'|[Heq|[]]].
      * exact (Hfresh r' (or_intror Hin) Hin').
      * apply Hnot. rewrite Heq. now apply in_map.
    + rewrite onInsert_hidden by exact Hshown.
      apply IH; [assumption|]. intros r' Hin. apply Hfresh. now right.
Qed.

Lemma echo_changes_nothing echoed : forall rows,
  incl echoed rows ->
  fold_left (fun shown r => Chat.onInsert (Chat.display r) shown) echoed
    (Chat.visibleMessages (Some rows))
  = Chat.visibleMessages (Some rows).
Proof.
  induction echoed as [|r echoed IH]; intros rows Hincl; [reflexivity|].
  cbn [fold_left].
  assert (Hsame : Chat.onInsert (Chat.display r)
                    (Chat.visibleMessages (Some rows))
                  = Chat.visibleMessages (Some rows)).
  { destruct (Chat.shown (row_role (Chat.stored_row r))) eqn:Hshown;
      [|now apply onInsert_hidden].
    apply onInsert_known. rewrite visibleMessages_ids.
    apply in_map_iff. exists r. split; [reflexivity|].
    apply filter_In. split; [|assumption]. apply Hincl. now left. }
  rewrite Hsame. apply IH. intros x Hx. apply Hincl. now right.
Qed.

(** What a fetch shows of the rows of a turn. *)
Lemma visibleMessages_contents stored :
  map Chat.content (Chat.visibleMessages (Some stored))
  = map row_content
      (filter (fun r => Chat.shown (row_role r)) (map Chat.stored_row stored)).
Proof.
  induction stored as [|r stored IH]; [reflexivity|].
  rewrite visibleMessages_cons. cbn [map filter].
  destruct (Chat.shown (row_role (Chat.stored_row r)));
    cbn [map Chat.display Chat.content]; now rewrite IH.
Qed.

(** Rows that arrive in the order of their creation arrive in the
    order of the fetch. *)
Lemma arrival_is_fetch_order (before : string -> string -> Prop) arrived :
  forall fetched,
    Permutation arrived fetched ->
    Chat.strictly_ascending before arrived ->
    Chat.ascending before fetched ->
    arrived = fetched.
Proof.
  unfold Chat.strictly_ascending, Chat.ascending.
  induction arrived as [|x xs IH]; intros fetched Hperm Ha Hf.
  - now apply Permutation_nil in Hperm.
  - destruct fetched as [|y ys].
    { apply Permutation_sym, Permutation_nil in Hperm. discriminate. }
    apply StronglySorted_inv in Ha. destruct Ha as [Hxs Hx].
    apply StronglySorted_inv in Hf. destruct Hf as [Hys Hy].
    rewrite Forall_forall in Hx, Hy.
    assert (Heq : x = y).
    { assert (Hin : In x (y :: ys))
        by (apply (Permutation_in _ Hperm); now left).
      assert (Hin' : In y (x :: xs))
        by (apply (Permutation_in _ (Permutation_sym Hperm)); now left).
      destruct Hin as [->|Hin]; [reflexivity|].
      destruct Hin' as [->|Hin']; [reflexivity|].
      destruct (Hy x Hin (Hx y Hin')). }
    subst y. f_equal. apply IH; try assumption.
    exact (Permutation_cons_inv Hperm).
Qed.

Lemma shown_rows_of conversation out :
  Forall produced_role out ->
  map row_content
    (filter (fun r => Chat.shown (row_role r)) (map (row_of conversation) out))
  = map content (filter (has_role assistant) out).
Proof.
  induction 1 as [|m out Hm _ IH]; [reflexivity|].
  cbn [map filter row_of row_role]. unfold has_role at 1.
  destruct Hm as [Hm|Hm]; rewrite Hm; cbn [Chat.shown Role_eqb map];
    now rewrite IH.
Qed.

End Display.

End Further.

(* ================================================================== *)
(** ** More properties of the code *)

Module Extras.
Import JS Agent Spec Shape Properties Further.
Local Open Scope string_scope.

(** X1.  [webSearch] never throws and never calls the search provider
    more than once.  Without the search credential it calls nobody and
    returns the fixed diagnostic; with it, a thrown fetch and a
    non-success status come back as texts that start with
    [Search error: ], and missing or empty results as
    [No search results found.]. *)
Theorem webSearch_turns_faults_into_text {W} (svc : Services W)
    (query : option json) (w : W) :
  (exists text, result (webSearch svc query w) = Returned text)
  /\ search_calls (trace (webSearch svc query w)) <= 1
  /\ completion_calls (trace (webSearch svc query w)) = 0
  /\ (truthy (env_get svc "TAVILY_API_KEY") = false ->
      webSearch svc query w
      = {| result :=
             Returned "Error: TAVILY_API_KEY not configured. Please add your Tavily API key to secrets.";
           world := w;
           trace := [] |})
  /\ (forall request reply,
        In (EvSearch request reply) (trace (webSearch svc query w)) ->
        match reply with
        | Tavily.Throws e =>
            result (webSearch svc query w)
            = Returned ("Search error: " ++ message_of e)
        | Tavily.NotOk status =>
            result (webSearch svc query w)
            = Returned ("Search error: Tavily API error: " ++ show_nat status)
        | Tavily.Data None | Tavily.Data (Some []) =>
            result (webSearch svc query w) = Returned "No search results found."
        | Tavily.Data (Some (_ :: _)) => True
        end).
Proof.
  destruct (truthy (env_get svc "TAVILY_API_KEY")) eqn:Hkey.
  - destruct (webSearch_with_key svc query w Hkey) as (_ & Htrace & Hres).
    cbv zeta in *. rewrite Htrace, Hres.
    split; [eauto|]. split; [cbn; lia|]. split; [reflexivity|].
    split; [discriminate|].
    intros request reply [H|[]]. injection H as _ <-.
    destruct (fst (tavily_fetch svc _ w)) as [e|status|[[|r rs]|]];
      first [reflexivity | exact I].
  - rewrite (webSearch_without_key svc query w Hkey). cbn.
    split; [eauto|]. split; [lia|]. split; [reflexivity|].
    split; [reflexivity|]. intros request reply [].
Qed.

(** X2.  When the search provider returns results, [webSearch] returns
    one block per result, in the provider's order and separated by an
    empty line; the block of the result at index [k] is numbered
    [k + 1] and holds its title, its url and its content, one per
    line. *)
Theorem webSearch_renders_results {W} (svc : Services W)
    (query : option json) (w : W) (results : list Tavily.SearchResult) :
  truthy (env_get svc "TAVILY_API_KEY") = true ->
  fst (tavily_fetch svc (search_request_for svc query) w)
  = Tavily.Data (Some results) ->
  results <> [] ->
  exists blocks,
    result (webSearch svc query w)
    = Returned (String.concat (newline ++ newline) blocks)
    /\ length blocks = length results
    /\ forall k r,
         nth_error results k = Some r ->
         nth_error blocks k
         = Some ("[" ++ show_nat (k + 1) ++ "] " ++ Tavily.title r ++ newline
                 ++ Tavily.url r ++ newline ++ Tavily.content r).
Proof.
  intros Hkey Hreply Hsome.
  destruct (webSearch_with_key svc query w Hkey) as (_ & _ & Hres).
  cbv zeta in Hres. rewrite Hreply in Hres.
  exists (mapi render_result results). split.
  - rewrite Hres. destruct results; [contradiction | reflexivity].
  - split; [apply mapi_from_length|].
    intros k r Hk. unfold mapi. now rewrite (mapi_from_nth _ _ 0 k r Hk).
Qed.

Lemma webSearch_renders_results_witness :
  exists blocks,
    result (webSearch Stub.both_keys (Some (JString "weather in Paris today"))
              (Stub.world_of [] (Stub.searches Stub.weather_world)))
    = Returned (String.concat (newline ++ newline) blocks)
    /\ length blocks = 1.
Proof.
  destruct (webSearch_renders_results Stub.both_keys
              (Some (JString "weather in Paris today"))
              (Stub.world_of [] (Stub.searches Stub.weather_world))
              [ {| Tavily.title := "Paris weather";
                   Tavily.url := "https://weather.example/paris";
                   Tavily.content := "18C, cloudy";
                   Tavily.score := "0.98" |} ]
              eq_refl eq_refl ltac:(discriminate))
    as (blocks & Hres & Hlen & _).
  exists blocks. split; assumption.
Defined.

(** X3.  [executeTool] throws in one case only: the tool is
    [web_search] and the parsed arguments are [null]; it then throws a
    [TypeError] before any search is made.  In every other case it
    returns a text. *)
Theorem executeTool_throws_only_on_null {W} (svc : Services W)
    (tool_name : string) (args : json) (w : W) :
  (tool_name = "web_search" /\ args = JNull ->
   exists m,
     executeTool svc tool_name args w
     = {| result := Thrown (TypeError m);
          world := w;
          trace := [EvExecuteTool tool_name args] |})
  /\ (~ (tool_name = "web_search" /\ args = JNull) ->
      exists text, result (executeTool svc tool_name args w) = Returned text).
Proof.
  split.
  - intros [-> ->]. eexists. reflexivity.
  - intros Hnot.
    destruct (executeTool_text svc tool_name args w) as (text & Htext & _).
    + intros Hname Hargs. apply Hnot. now split.
    + now exists text.
Qed.

(** X4.  [executeTool] calls the search provider for [web_search]
    only, with the credential set, and the request carries the [query]
    member of the arguments as it is: nothing when the arguments are
    not an object or have no such member, since no argument is
    checked. *)
Theorem executeTool_search_request {W} (svc : Services W)
    (tool_name : string) (args : json) (w : W)
    (request : Tavily.Request) (reply : Tavily.Reply) :
  In (EvSearch request reply) (trace (executeTool svc tool_name args w)) ->
  tool_name = "web_search"
  /\ truthy (env_get svc "TAVILY_API_KEY") = true
  /\ request
     = {| Tavily.api_key := or_else (env_get svc "TAVILY_API_KEY") "";
          Tavily.query :=
            match args with
            | JObject members => lookup_member "query" members
            | _ => None
            end;
          Tavily.search_depth := "basic";
          Tavily.max_results := 5 |}.
Proof.
  intros Hin.
  destruct (executeTool_searches svc _ _ _ _ _ Hin) as (Hname & Hkey & ->).
  repeat split; assumption.
Qed.

Lemma executeTool_search_request_witness :
  exists request reply,
    In (EvSearch request reply)
       (trace (executeTool Stub.both_keys "web_search" (JObject [])
                 (Stub.world_of [] [])))
    /\ Tavily.query request = None.
Proof.
  exists (search_request_for Stub.both_keys None),
         (Tavily.Throws (TypeError "error sending request")).
  assert (Hin : In (EvSearch (search_request_for Stub.both_keys None)
                      (Tavily.Throws (TypeError "error sending request")))
                   (trace (executeTool Stub.both_keys "web_search" (JObject [])
                             (Stub.world_of [] []))))
    by (vm_compute; find_in).
  split; [exact Hin|].
  destruct (executeTool_search_request _ _ _ _ _ _ Hin) as (_ & _ & Hreq).
  now rewrite Hreq.
Defined.

(** X5.  The completion requests of one run carry the whole working
    transcript, which only grows.  The first request is made on the
    system message followed by the input history; when another
    follows, [callOpenAI] has read from the reply an assistant
    message with tool calls, and the next request is made on the
    transcript of the one before followed by that message and one
    tool message per call of it, in the order of the calls and with
    their ids.  Every request names the same model and token ceiling,
    carries the tool schema and the configured key as bearer token.
    On a run that returns, with the key set, there is one exchange per
    assistant message of the output: its request is made on the
    system message, the history and the messages of the output before
    that message, and the message is the one read from its reply. *)
Theorem requests_carry_the_growing_transcript {W} (svc : Services W)
    (history : list Message) (w : W) :
  Chain svc (systemMessage :: history)
    (exchanges (trace (runAgent svc history w)))
  /\ (forall request reply,
        In (EvCompletion request reply) (trace (runAgent svc history w)) ->
        exists extra,
          OpenAI.messages request = map wire (systemMessage :: history ++ extra)
          /\ Forall (fun m => role m = assistant \/ role m = tool) extra
          /\ OpenAI.model request = "gpt-4o-mini"
          /\ OpenAI.max_tokens request = 1024
          /\ OpenAI.tools request = Some tools
          /\ OpenAI.authorization request
             = "Bearer " ++ or_else (env_get svc "OPENAI_API_KEY") "")
  /\ (forall out,
        truthy (env_get svc "OPENAI_API_KEY") = true ->
        result (runAgent svc history w) = Returned out ->
        Forall2 (round_of svc (systemMessage :: history))
          (exchanges (trace (runAgent svc history w)))
          (rounds_from [] out)).
Proof.
  assert (Hchain : Chain svc (systemMessage :: history)
                     (exchanges (trace (runAgent svc history w)))).
  { rewrite runAgent_unfold. cbv zeta. cbn [trace].
    exact (agentLoop_chain svc maxIterations (initialState history) w). }
  split; [exact Hchain|]. split.
  - intros request reply Hin. apply in_exchanges in Hin.
    destruct (Chain_members svc _ _ Hchain request reply Hin)
      as (extra & -> & Hextra).
    exists extra. repeat split. exact Hextra.
  - intros out Hkey Hout.
    destruct (runAgent_facts svc history w) as (_ & _ & _ & Hret).
    destruct (Hret out Hout) as (st & Hst & -> & _).
    destruct (agentLoop_rounds svc (systemMessage :: history) maxIterations
                (initialState history) w st Hkey)
      as (suffix & Hnew & Hrounds);
      [cbn; now rewrite app_nil_r | exact Hst |].
    cbn [initialState newMessages app] in Hnew, Hrounds.
    rewrite runAgent_unfold. cbv zeta. cbn [trace]. now rewrite Hnew.
Qed.

(** X6.  A run that returns ends on an assistant message without tool
    calls, unless it has used all five iterations: then its output
    holds exactly five assistant messages and ends with a tool
    message.  In every case the output holds between one and five
    assistant messages. *)
Theorem run_ends_on_answer_or_at_cap {W} (svc : Services W)
    (history : list Message) (w : W) (out : list Message) :
  result (runAgent svc history w) = Returned out ->
  1 <= count_role assistant out <= 5
  /\ ((exists front m,
          out = (front ++ [m])%list
          /\ role m = assistant /\ no_tool_calls m = true)
      \/ (count_role assistant out = 5
          /\ exists front t, out = (front ++ [t])%list /\ role t = tool)).
Proof.
  intros Hout.
  destruct (runAgent_facts svc history w) as (_ & _ & _ & Hret).
  destruct (Hret out Hout) as (st & _ & -> & Hreach).
  destruct (Reach_counts _ _ Hreach) as [Hcount _].
  destruct (Reach_iterations _ _ Hreach) as (_ & Hle & Hlt).
  cbn [initialState iterations newMessages] in *.
  unfold maxIterations in *.
  change (count_role assistant []) with 0 in Hcount.
  split; [lia|].
  destruct (Reach_ends _ _ Hreach) as [H|(Hcap & [Heq|H])].
  - now left.
  - cbn [initialState newMessages] in Heq. rewrite Heq in Hcount.
    change (count_role assistant []) with 0 in Hcount. lia.
  - right. split; [unfold maxIterations in Hcap; lia | exact H].
Qed.

Lemma run_ends_on_answer_or_at_cap_witness :
  1 <= count_role assistant Stub.weather_output <= 5.
Proof.
  exact (proj1 (run_ends_on_answer_or_at_cap Stub.both_keys
                  Stub.weather_history Stub.weather_world Stub.weather_output
                  ltac:(vm_compute; reflexivity))).
Defined.

(** X7.  On a run that returns, every tool call that a message of the
    output asks for has been executed once and answered, in order:
    the tools entered are these calls, each under its name and with
    what [JSON.parse] makes of its arguments; the tool messages of the
    output bear the ids of these calls, and their contents are the
    texts that these executions came to (the fixed text for a name
    not registered, the diagnostic for a search without key, and else
    what [webSearch] makes of the search reply). *)
Theorem every_call_is_executed_once {W} (svc : Services W)
    (history : list Message) (w : W) (out : list Message) :
  result (runAgent svc history w) = Returned out ->
  map entered (executions (trace (runAgent svc history w)))
  = map (execution_of svc) (requested out)
  /\ map tool_call_id (filter (has_role tool) out)
     = map (fun call => Some (id call)) (requested out)
  /\ map content (filter (has_role tool) out)
     = tool_texts svc (trace (runAgent svc history w))
  /\ tool_invocations (trace (runAgent svc history w)) = count_role tool out
  /\ count_role tool out = requested_calls out.
Proof.
  intros Hout.
  destruct (runAgent_facts svc history w) as (_ & _ & _ & Hret).
  destruct (Hret out Hout) as (st & Hst & -> & Hreach).
  destruct (agentLoop_executions svc _ _ _ _ Hst)
    as (suffix & Hnew & Hexec & Hids & Htexts).
  cbn [initialState newMessages app] in Hnew. subst suffix.
  rewrite runAgent_unfold. cbv zeta. cbn [trace].
  split; [exact Hexec|]. split; [exact Hids|]. split; [exact Htexts|].
  split.
  - now rewrite <- (agentLoop_invocations svc _ _ _ _ Hst), Nat.add_0_r.
  - destruct (Reach_counts _ _ Hreach) as [_ Hcount].
    cbn [initialState newMessages] in Hcount.
    change (requested_calls []) with 0 in Hcount.
    change (count_role tool []) with 0 in Hcount. lia.
Qed.

Lemma every_call_is_executed_once_witness :
  executions
    (trace (runAgent Stub.both_keys Stub.weather_history Stub.weather_world))
  = [("web_search", JObject [("query", JString "weather in Paris today")])]
  /\ map content (filter (has_role tool) Stub.weather_output)
     = tool_texts Stub.both_keys
         (trace (runAgent Stub.both_keys Stub.weather_history
                   Stub.weather_world)).
Proof.
  pose proof (every_call_is_executed_once Stub.both_keys
                Stub.weather_history Stub.weather_world Stub.weather_output
                ltac:(vm_compute; reflexivity)) as (_ & _ & Htexts & _).
  split; [vm_compute; reflexivity | exact Htexts].
Defined.

(** X8.  Without the search credential no request reaches the search
    provider, in a run of the agent and in a whole turn, whatever tool
    calls the completion provider asks for. *)
Theorem no_search_without_key {W} (svc : Services W) :
  truthy (env_get svc "TAVILY_API_KEY") = false ->
  (forall history w, search_calls (trace (runAgent svc history w)) = 0)
  /\ (forall req w, search_calls (trace (handler svc req w)) = 0).
Proof.
  intros Hkey.
  assert (Hrun : forall history w,
             search_calls (trace (runAgent svc history w)) = 0).
  { intros history w. rewrite runAgent_unfold. cbv zeta. cbn [trace].
    now apply agentLoop_without_search_key. }
  split; [exact Hrun|].
  intros req w. rewrite handler_turn_outcome. unfold turn_outcome, failed.
  destruct (method req =? "OPTIONS"); [reflexivity|].
  destruct (json_body req) as [e|body]; [reflexivity|].
  destruct (createClient svc _ _) as [e|]; [reflexivity|].
  cbv zeta.
  assert (Hclose : forall conversation history w1,
             search_calls (trace (closing svc conversation
                                    (runAgent svc history w1))) = 0).
  { intros conversation history w1.
    destruct (closing_result svc conversation history w1)
      as [(out & _ & -> & _)|(e & _ & ->)]; cbn [trace];
      rewrite search_calls_app, Hrun; [|reflexivity].
    apply saveMessages_searches_nothing. }
  destruct (truthy (conversationId body)).
  - destruct (fst (insert_message svc _ w)) as [e|]; [reflexivity|].
    destruct (fst (select_messages svc _ _)) as [e|history]; [reflexivity|].
    unfold prepend. cbn [trace]. now rewrite search_calls_app, Hclose.
  - destruct (fst (insert_conversation svc _ w)) as [e|conversation];
      [reflexivity|].
    destruct (fst (insert_message svc _ _)) as [e|]; [reflexivity|].
    destruct (fst (select_messages svc _ _)) as [e|history]; [reflexivity|].
    unfold prepend. cbn [trace]. now rewrite search_calls_app, Hclose.
Qed.

Lemma no_search_without_key_witness :
  search_calls
    (trace (handler (Stub.services (Some "sk-test") None)
              (Stub.post None "What's the weather in Paris today?")
              Stub.weather_world))
  = 0.
Proof.
  exact (proj2 (no_search_without_key (Stub.services (Some "sk-test") None)
                  eq_refl) _ _).
Defined.

(** X9.  The handler never throws: whatever the request and whatever
    the services do, it returns a response. *)
Theorem handler_always_responds {W} (svc : Services W) (req : Request) (w : W) :
  exists response, result (handler svc req w) = Returned response.
Proof.
  rewrite handler_turn_outcome. unfold turn_outcome, failed.
  destruct (method req =? "OPTIONS"); [eexists; reflexivity|].
  destruct (json_body req) as [e|body]; [eexists; reflexivity|].
  destruct (createClient svc _ _) as [e|]; [eexists; reflexivity|].
  cbv zeta.
  assert (Hclose : forall pre conversation history w1,
             exists response,
               result (prepend pre (closing svc conversation
                                      (runAgent svc history w1)))
               = Returned response).
  { intros pre conversation history w1. unfold prepend. cbn [result].
    destruct (closing_result svc conversation history w1)
      as [(out & _ & -> & _)|(e & _ & ->)]; eexists; reflexivity. }
  destruct (truthy (conversationId body)).
  - destruct (fst (insert_message svc _ w)) as [e|]; [eexists; reflexivity|].
    destruct (fst (select_messages svc _ _)) as [e|history]; [eexists; reflexivity|].
    apply Hclose.
  - destruct (fst (insert_conversation svc _ w)) as [e|conversation]; [eexists; reflexivity|].
    destruct (fst (insert_message svc _ _)) as [e|]; [eexists; reflexivity|].
    destruct (fst (select_messages svc _ _)) as [e|history]; [eexists; reflexivity|].
    apply Hclose.
Qed.

(** X10.  When a store call of the opening of a turn fails (the insert
    of the conversation, the insert of the user's message or the
    select of the history), the turn is answered with status 500 and
    the message of that error, and neither the completion provider nor
    a tool has been called. *)
Theorem store_failure_aborts_turn {W} (svc : Services W) (req : Request) (w : W)
    (e : Exn) (ev : Event) :
  In ev (trace (handler svc req w)) ->
  store_failure e ev ->
  result (handler svc req w) = Returned (Failure500 (message_of e))
  /\ completion_calls (trace (handler svc req w)) = 0
  /\ tool_invocations (trace (handler svc req w)) = 0.
Proof.
  rewrite handler_turn_outcome. unfold turn_outcome, failed.
  destruct (method req =? "OPTIONS"); [intros []|].
  destruct (json_body req) as [e0|body];
    [intros [<-|[]] []|].
  destruct (createClient svc _ _) as [e0|];
    [intros [<-|[]] []|].
  cbv zeta.
  assert (Hclose : forall pre conversation history w1,
    Forall (fun ev => forall e, ~ store_failure e ev) pre ->
    In ev (trace (prepend pre (closing svc conversation
                                 (runAgent svc history w1)))) ->
    store_failure e ev -> False).
  { intros pre conversation history w1 Hpre Hin Hfail.
    unfold prepend in Hin. cbn [trace] in Hin.
    apply in_app_or in Hin. destruct Hin as [Hin|Hin].
    - rewrite Forall_forall in Hpre. exact (Hpre _ Hin e Hfail).
    - destruct (closing_events svc _ _ _ _ Hin)
        as [Hagent|[(m & error & -> & Hrole & _)|(e' & ->)]].
      + destruct ev; try contradiction; destruct Hfail.
      + destruct error; [|contradiction]. destruct Hfail as [Huser _].
        cbn in Huser. destruct Hrole as [H|H]; congruence.
      + contradiction. }
  destruct (truthy (conversationId body)).
  - destruct (fst (insert_message svc _ w)) as [e0|].
    { intros [<-|[<-|[]]] Hfail; [|contradiction].
      destruct Hfail as [_ ->]. repeat split. }
    destruct (fst (select_messages svc _ _)) as [e0|history].
    { intros [<-|[<-|[<-|[]]]] Hfail; try contradiction.
      cbn in Hfail. subst e0. repeat split. }
    intros Hin Hfail. exfalso. revert Hin Hfail. apply Hclose.
    repeat constructor; intros e' H; [apply H | exact H].
  - destruct (fst (insert_conversation svc _ w)) as [e0|conversation].
    { intros [<-|[<-|[]]] Hfail; [|contradiction].
      cbn in Hfail. subst e0. repeat split. }
    destruct (fst (insert_message svc _ _)) as [e0|].
    { intros [<-|[<-|[<-|[]]]] Hfail; try contradiction.
      destruct Hfail as [_ ->]. repeat split. }
    destruct (fst (select_messages svc _ _)) as [e0|history].
    { intros [<-|[<-|[<-|[<-|[]]]]] Hfail; try contradiction.
      cbn in Hfail. subst e0. repeat split. }
    intros Hin Hfail. exfalso. revert Hin Hfail. apply Hclose.
    repeat constructor; intros e' H; [exact H | apply H | exact H].
Qed.

Lemma store_failure_aborts_turn_witness :
  result (handler (Stub.with_failing_select Stub.both_keys)
            (Stub.post None "Hello")
            (Stub.world_of [Stub.answers "Hi there!"] []))
  = Returned (Failure500 "permission denied for table messages").
Proof.
  refine (proj1 (store_failure_aborts_turn
                   (Stub.with_failing_select Stub.both_keys)
                   (Stub.post None "Hello")
                   (Stub.world_of [Stub.answers "Hi there!"] [])
                   (PostgrestError "permission denied for table messages")
                   (EvSelectMessages "conv-0"
                      (inl (PostgrestError "permission denied for table messages")))
                   _ eq_refl)).
  vm_compute. find_in.
Defined.

(** X11.  What the store answers when the messages of the agent are
    saved is not looked at.  A turn in which the store refuses a row
    that is not the user's has started the agent (on the history that
    the select returned, in the world after it) and the agent has
    returned; the row is the row of a message of its output; the turn
    is still answered with the response text of that output; and the
    rows handed to the store in the turn are the user's message
    followed by one row per message of the output, in order. *)
Theorem save_errors_are_ignored {W} (svc : Services W) (req : Request) (w : W)
    (row : Row) (e : Exn) :
  In (EvInsertMessage row (Some e)) (trace (handler svc req w)) ->
  row_role row <> user ->
  exists body conversation history w1 out,
    agent_input svc req w = Some (body, conversation, history, w1)
    /\ result (runAgent svc history w1) = Returned out
    /\ (exists m, In m out /\ row = row_of conversation m)
    /\ result (handler svc req w)
       = Returned (TurnResponse conversation (responseText out))
    /\ rows_inserted (trace (handler svc req w))
       = user_row conversation (message body)
         :: map (row_of conversation) out.
Proof.
  intros Hin Hrole.
  pose proof (handler_from_agent_input svc req w) as Hturn.
  destruct (agent_input svc req w) as [[[[body conversation] history] w1]|];
    [|destruct (Hrole (Hturn _ _ Hin))].
  destruct Hturn as (pre & Heq & Hpre).
  rewrite Heq in Hin |- *. unfold prepend in *. cbn [result trace] in *.
  assert (Hnone : rows_inserted pre = []
                  /\ ~ In (EvInsertMessage row (Some e)) pre).
  { destruct Hpre as [->|(title & ->)];
      (split; [reflexivity|]); [intros [] | intros [H|[]]; discriminate]. }
  destruct Hnone as [Hrows Hnot].
  rewrite <- app_assoc in Hin. apply in_app_or in Hin.
  cbn [app] in Hin.
  destruct Hin as [Hin|[Hin|[Hin|Hin]]];
    [contradiction | discriminate | discriminate |].
  destruct (runAgent_facts svc history w1) as (_ & _ & Hev & _).
  destruct (closing_result svc conversation history w1)
    as [(out & Hout & Hclosing & _)|(e' & _ & Hclosing)];
    rewrite Hclosing in Hin |- *; cbn [result trace] in Hin |- *;
    apply in_app_or in Hin; destruct Hin as [Hin|Hin];
    try (destruct (agent_event_in _ _ Hev Hin)).
  - exists body, conversation, history, w1, out.
    split; [reflexivity|]. split; [exact Hout|].
    split; [exact (saveMessages_rows svc _ _ _ _ _ Hin)|].
    split; [reflexivity|].
    rewrite !rows_inserted_app, Hrows, (agent_events_insert_nothing _ Hev).
    destruct (saveMessages_facts svc conversation out
                (world (runAgent svc history w1))) as (_ & -> & _).
    reflexivity.
  - destruct Hin as [Hin|[]]. discriminate.
Qed.

Lemma save_errors_are_ignored_witness :
  exists out,
    result (handler (Stub.with_failing_saves Stub.both_keys)
              (Stub.post None "Hello")
              (Stub.world_of [Stub.answers "Hi there!"] []))
    = Returned (TurnResponse "conv-0" (responseText out))
    /\ rows_inserted
         (trace (handler (Stub.with_failing_saves Stub.both_keys)
                   (Stub.post None "Hello")
                   (Stub.world_of [Stub.answers "Hi there!"] [])))
       = user_row "conv-0" "Hello" :: map (row_of "conv-0") out.
Proof.
  destruct (save_errors_are_ignored (Stub.with_failing_saves Stub.both_keys)
              (Stub.post None "Hello")
              (Stub.world_of [Stub.answers "Hi there!"] [])
              {| conversation_id := "conv-0"; row_role := assistant;
                 row_content := "Hi there!"; row_tool_calls := None;
                 row_tool_call_id := None |}
              (PostgrestError "statement timeout")
              ltac:(vm_compute; find_in) ltac:(discriminate))
    as (body & conversation & history & w1 & out
        & Hinput & _ & _ & Hres & Hrows).
  vm_compute in Hinput. injection Hinput as <- <- _ _.
  exists out. split; assumption.
Defined.

Ltac reused_early :=
  cbn [result trace app]; split; [|split; [|split]];
  (let H := fresh "H" in
   intros ? ? H; repeat (destruct H as [H|H]);
   first [ discriminate | contradiction | now injection H as <- _ ]).

(** X12.  A turn on an existing conversation creates no conversation:
    with a conversation id in the request, every row stored and the
    select of the history bear that id, and so does the response. *)
Theorem existing_conversation_is_reused {W} (svc : Services W)
    (req : Request) (w : W) (body : TurnRequest) (given : string) :
  json_body req = inr body ->
  conversationId body = Some given ->
  given <> "" ->
  (forall title outcome,
      ~ In (EvInsertConversation title outcome) (trace (handler svc req w)))
  /\ (forall row error,
        In (EvInsertMessage row error) (trace (handler svc req w)) ->
        conversation_id row = given)
  /\ (forall conversation outcome,
        In (EvSelectMessages conversation outcome) (trace (handler svc req w)) ->
        conversation = given)
  /\ (forall conversation text,
        result (handler svc req w) = Returned (TurnResponse conversation text) ->
        conversation = given).
Proof.
  intros Hbody Hid Hgiven.
  assert (Htruthy : truthy (conversationId body) = true).
  { rewrite Hid. cbn. destruct (String.eqb_spec given ""); [contradiction|].
    reflexivity. }
  assert (Hor : or_else (conversationId body) "" = given).
  { rewrite Hid. cbn. now destruct (String.eqb_spec given ""). }
  rewrite handler_turn_outcome. unfold turn_outcome, failed, user_row.
  rewrite Hbody.
  assert (Hclose : forall history w1 ev,
    In ev (trace (closing svc given (runAgent svc history w1))) ->
    match ev with
    | EvInsertConversation _ _ => False
    | EvInsertMessage row _ => conversation_id row = given
    | EvSelectMessages _ _ => False
    | _ => True
    end).
  { intros history w1 ev Hin.
    destruct (closing_events svc _ _ _ _ Hin)
      as [Hagent|[(m & error & -> & _)|(e' & ->)]];
      [destruct ev; try contradiction; exact I | reflexivity | exact I]. }
  destruct (method req =? "OPTIONS"); [reused_early|].
  destruct (createClient svc _ _) as [e0|]; [reused_early|].
  cbv zeta. rewrite Htruthy, Hor.
  destruct (fst (insert_message svc _ w)) as [e0|]; [reused_early|].
  destruct (fst (select_messages svc _ _)) as [e0|history]; [reused_early|].
  unfold prepend. cbn [result trace app].
  split; [|split; [|split]].
  - intros title outcome [H|[H|Hin]]; try discriminate.
    exact (Hclose _ _ _ Hin).
  - intros row error [H|[H|Hin]]; try discriminate.
    + now injection H as <- _.
    + exact (Hclose _ _ _ Hin).
  - intros conversation outcome [H|[H|Hin]]; try discriminate.
    + now injection H as <- _.
    + destruct (Hclose _ _ _ Hin).
  - intros conversation text H. exact (closing_counts svc _ _ _ _ _ H).
Qed.

Lemma existing_conversation_is_reused_witness :
  exists text,
    result (handler Stub.both_keys (Stub.post (Some "conv-9") "hello?")
              Stub.orphan_world)
    = Returned (TurnResponse "conv-9" text).
Proof.
  assert (H : exists conversation text,
             result (handler Stub.both_keys (Stub.post (Some "conv-9") "hello?")
                       Stub.orphan_world)
             = Returned (TurnResponse conversation text))
    by (do 2 eexists; vm_compute; reflexivity).
  destruct H as (conversation & text & H).
  pose proof (proj2 (proj2 (proj2
                (existing_conversation_is_reused Stub.both_keys
                   (Stub.post (Some "conv-9") "hello?") Stub.orphan_world
                   {| conversationId := Some "conv-9"; message := "hello?" |}
                   "conv-9" eq_refl eq_refl ltac:(discriminate))))
                conversation text H) as Hsame.
  subst conversation. now exists text.
Defined.

(** X13.  A turn without a conversation id, on a message of ASCII
    characters, starts by creating a conversation whose title is the
    first 50 characters of the message (the whole message when it is
    not longer); when the turn is answered, the response and every
    row stored bear the id that the store gave to that conversation.
    (The message is restricted to ASCII because [substring] counts
    UTF-16 code units where the strings here count bytes; the two
    agree on ASCII text.) *)
Theorem new_conversation_is_created {W} (svc : Services W)
    (req : Request) (w : W) (body : TurnRequest) :
  method req <> "OPTIONS" ->
  json_body req = inr body ->
  createClient svc (env_get svc "SUPABASE_URL")
    (env_get svc "SUPABASE_SERVICE_ROLE_KEY") = None ->
  truthy (conversationId body) = false ->
  ascii_only (message body) ->
  exists title outcome rest,
    trace (handler svc req w) = EvInsertConversation title outcome :: rest
    /\ title = substring 0 50 (message body)
    /\ String.length title <= 50
    /\ (exists cut, message body = title ++ cut)
    /\ (String.length (message body) <= 50 -> title = message body)
    /\ forall conversation text,
         result (handler svc req w) = Returned (TurnResponse conversation text) ->
         outcome = inr conversation
         /\ forall row error,
              In (EvInsertMessage row error) rest ->
              conversation_id row = conversation.
Proof.
  intros Hmethod Hbody Hclient Hnew _.
  rewrite handler_turn_outcome. unfold turn_outcome, failed, user_row.
  destruct (String.eqb_spec (method req) "OPTIONS") as [E|_]; [contradiction|].
  rewrite Hbody, Hclient. cbv zeta. rewrite Hnew.
  destruct (substring_prefix 50 (message body)) as (Hlen & cut & Hcut).
  exists (substring 0 50 (message body)).
  assert (Hshort : String.length (message body) <= 50 ->
                   substring 0 50 (message body) = message body).
  { clear. generalize 50 as n. induction (message body) as [|c s IH];
      intros n H; [now destruct n|].
    destruct n as [|n]; cbn in *; [lia|]. f_equal. apply IH. lia. }
  destruct (fst (insert_conversation svc _ w)) as [e0|conversation].
  { do 2 eexists. split; [reflexivity|]. repeat split; try assumption.
    - now exists cut.
    - cbn in H. discriminate.
    - cbn in H. discriminate. }
  destruct (fst (insert_message svc _ _)) as [e0|].
  { do 2 eexists. split; [reflexivity|]. repeat split; try assumption.
    - now exists cut.
    - cbn in H. discriminate.
    - cbn in H. discriminate. }
  destruct (fst (select_messages svc _ _)) as [e0|history].
  { do 2 eexists. split; [reflexivity|]. repeat split; try assumption.
    - now exists cut.
    - cbn in H. discriminate.
    - cbn in H. discriminate. }
  do 2 eexists. split; [reflexivity|].
  split; [reflexivity|]. split; [assumption|]. split; [now exists cut|].
  split; [assumption|].
  intros c text H. unfold prepend in H. cbn [result] in H.
  apply closing_counts in H. subst c. split; [reflexivity|].
  intros row error [Hin|[Hin|Hin]]; try discriminate.
  - now injection Hin as <- _.
  - destruct (closing_events svc _ _ _ _ Hin)
      as [Hagent|[(m & error' & Heq & _)|(e' & Heq)]]; try discriminate.
    + contradiction.
    + now injection Heq as -> _.
Qed.

Lemma new_conversation_is_created_witness :
  exists outcome rest,
    trace (handler Stub.both_keys (Stub.post None "Hello")
             (Stub.world_of [Stub.answers "Hi there!"] []))
    = EvInsertConversation "Hello" outcome :: rest.
Proof.
  destruct (new_conversation_is_created Stub.both_keys (Stub.post None "Hello")
              (Stub.world_of [Stub.answers "Hi there!"] [])
              {| conversationId := None; message := "Hello" |}
              ltac:(discriminate) eq_refl eq_refl eq_refl
              ltac:(unfold ascii_only; cbn [list_ascii_of_string message];
                    repeat (apply Forall_cons; [cbn; lia|]);
                    apply Forall_nil))
    as (title & outcome & rest & Htrace & Htitle & _).
  exists outcome, rest. rewrite Htrace, Htitle. reflexivity.
Defined.

(** X14.  Whatever fetches complete and whatever rows the realtime
    channel delivers, in any order, the messages on display are
    user and assistant messages only: a tool or system row never
    shows. *)
Theorem display_holds_user_and_assistant_only (updates : list Chat.Update) :
  Forall (fun m => Chat.role m = user \/ Chat.role m = assistant)
         (Chat.messagesAfter updates).
Proof.
  assert (H : Forall on_display (Chat.messagesAfter updates)).
  { unfold Chat.messagesAfter. apply fold_step_invariant; [|constructor].
    intros prev u _. apply step_on_display. }
  apply (Forall_impl _ (P := on_display)); [|exact H].
  intros m Hm. unfold on_display in Hm.
  destruct (Chat.role m); cbn in Hm; try discriminate; tauto.
Qed.

(** X15.  When every fetch returns rows with distinct ids, the
    messages on display have distinct ids, whatever the realtime
    channel delivers in between and however often it repeats a
    row. *)
Theorem display_ids_are_distinct (updates : list Chat.Update) :
  Forall Chat.unique_ids updates ->
  NoDup (map Chat.id (Chat.messagesAfter updates)).
Proof.
  intros Hall. unfold Chat.messagesAfter.
  apply (fold_step_invariant (fun shown => NoDup (map Chat.id shown)));
    [|constructor].
  intros prev u Hin. apply step_unique.
  rewrite Forall_forall in Hall. now apply Hall.
Qed.

Lemma display_ids_are_distinct_witness :
  NoDup (map Chat.id
           (Chat.messagesAfter
              [Chat.Fetched (inr (Some [Chat.row_one; Chat.row_two]));
               Chat.Inserted (Chat.display Chat.row_two);
               Chat.Inserted (Chat.display Chat.row_three);
               Chat.Inserted (Chat.display Chat.row_three)])).
Proof.
  apply display_ids_are_distinct.
  repeat constructor; cbn; intros H; repeat (destruct H as [H|H]);
    try discriminate; assumption.
Defined.

(** X16.  The realtime callback only ever appends, and at most the
    one message: the messages on display before are kept in place,
    a message whose id is already on display changes nothing, and
    delivering the same row twice is the same as delivering it
    once. *)
Theorem realtime_insert_appends_once (newMessage : Chat.Message)
    (prev : list Chat.Message) :
  (Chat.onInsert newMessage prev = prev
   \/ Chat.onInsert newMessage prev = (prev ++ [newMessage])%list)
  /\ (In (Chat.id newMessage) (map Chat.id prev) ->
      Chat.onInsert newMessage prev = prev)
  /\ Chat.onInsert newMessage (Chat.onInsert newMessage prev)
     = Chat.onInsert newMessage prev.
Proof.
  split; [|split].
  - destruct (onInsert_cases newMessage prev) as [H|(H & _)]; tauto.
  - apply onInsert_known.
  - destruct (Chat.shown (Chat.role newMessage)) eqn:Hshown;
      [|now rewrite !onInsert_hidden].
    destruct (onInsert_cases newMessage prev) as [H|(H & _)]; rewrite H;
      [exact H|].
    apply onInsert_known. rewrite map_app. apply in_or_app.
    right. now left.
Qed.

(** X17.  The realtime channel and a fetch agree when the rows are
    delivered in the order in which they were created: rows with
    distinct ids that arrive one by one on an empty display, each
    created after the one before, leave the same messages on display,
    in the same order, as a fetch of these rows, which the store
    returns by ascending [created_at].  [before] is the order of the
    store on timestamps. *)
Theorem realtime_stream_matches_fetch (before : string -> string -> Prop)
    (arrived fetched : list Chat.StoredMessage) :
  NoDup (map Chat.stored_id arrived) ->
  Permutation arrived fetched ->
  Chat.strictly_ascending before arrived ->
  Chat.ascending before fetched ->
  Chat.messagesAfter (map (fun r => Chat.Inserted (Chat.display r)) arrived)
  = Chat.messagesAfter [Chat.Fetched (inr (Some fetched))].
Proof.
  intros Hnd Hperm Harrived Hfetched.
  rewrite <- (arrival_is_fetch_order before arrived fetched
                Hperm Harrived Hfetched).
  unfold Chat.messagesAfter.
  cbn [fold_left Chat.step Chat.fetchMessages].
  rewrite <- (app_nil_l (Chat.visibleMessages (Some arrived))).
  rewrite <- (stream_appends arrived [] Hnd) by (intros r _ []).
  clear. generalize (@nil Chat.Message).
  induction arrived as [|r rows IH]; intros prev; [reflexivity|].
  cbn [map fold_left Chat.step]. apply IH.
Qed.

Lemma realtime_stream_matches_fetch_witness :
  Chat.messagesAfter
    (map (fun r => Chat.Inserted (Chat.display r))
       [Chat.row_one; Chat.row_two; Chat.row_three])
  = Chat.messagesAfter
      [Chat.Fetched (inr (Some [Chat.row_one; Chat.row_two; Chat.row_three]))].
Proof.
  apply (realtime_stream_matches_fetch
           (fun a b => String.ltb a b = true)).
  - repeat constructor; cbn; intros H; repeat (destruct H as [H|H]);
      try discriminate; assumption.
  - apply Permutation_refl.
  - unfold Chat.strictly_ascending.
    repeat (constructor; try (vm_compute; reflexivity)).
  - unfold Chat.ascending.
    repeat (constructor; try (vm_compute; discriminate)).
Defined.

(** X18.  Rows that a fetch has already put on display change
    nothing when the realtime channel delivers them afterwards. *)
Theorem echo_of_fetched_rows_changes_nothing
    (rows echoed : list Chat.StoredMessage) :
  incl echoed rows ->
  Chat.messagesAfter
    (Chat.Fetched (inr (Some rows))
     :: map (fun r => Chat.Inserted (Chat.display r)) echoed)
  = Chat.messagesAfter [Chat.Fetched (inr (Some rows))].
Proof.
  intros Hincl. unfold Chat.messagesAfter.
  cbn [fold_left Chat.step Chat.fetchMessages].
  rewrite <- (echo_changes_nothing echoed rows Hincl) at 2.
  generalize (Chat.visibleMessages (Some rows)).
  induction echoed as [|r echoed IH]; intros prev; [reflexivity|].
  cbn [map fold_left Chat.step]. apply IH.
  intros x Hx. apply Hincl. now right.
Qed.

Lemma echo_of_fetched_rows_changes_nothing_witness :
  Chat.messagesAfter
    (Chat.Fetched (inr (Some [Chat.row_one; Chat.row_two; Chat.row_three]))
     :: map (fun r => Chat.Inserted (Chat.display r))
          [Chat.row_three; Chat.row_one])
  = Chat.messagesAfter
      [Chat.Fetched (inr (Some [Chat.row_one; Chat.row_two; Chat.row_three]))].
Proof.
  apply echo_of_fetched_rows_changes_nothing.
  intros x [<-|[<-|[]]]; cbn; tauto.
Defined.

(** X19.  What the hook shows of a turn: of the rows that the handler
    stores for a turn (the user's message, then the output of the
    agent), a fetch shows the user's message followed by the
    assistant messages of the output in their order, and none of the
    tool messages. *)
Theorem fetched_turn_shows_question_and_answers {W} (svc : Services W)
    (history : list Message) (w : W) (out : list Message)
    (conversation text : string) (stored : list Chat.StoredMessage) :
  result (runAgent svc history w) = Returned out ->
  map Chat.stored_row stored
  = user_row conversation text :: map (row_of conversation) out ->
  map Chat.content (Chat.visibleMessages (Some stored))
  = text :: map content (filter (has_role assistant) out)
  /\ length (Chat.visibleMessages (Some stored))
     = 1 + count_role assistant out.
Proof.
  intros Hout Hrows.
  assert (Hroles : Forall produced_role out).
  { destruct (closing_result svc conversation history w)
      as [(out' & Hout' & _ & Hroles)|(e & He & _)]; [|congruence].
    rewrite Hout in Hout'. now injection Hout' as <-. }
  assert (Hshown : map Chat.content (Chat.visibleMessages (Some stored))
                   = text :: map content (filter (has_role assistant) out)).
  { rewrite visibleMessages_contents, Hrows.
    cbn [filter user_row row_role Chat.shown map row_content].
    now rewrite shown_rows_of. }
  split; [assumption|].
  rewrite <- (length_map Chat.content), Hshown. cbn [length].
  unfold count_role. now rewrite length_map.
Qed.

Lemma fetched_turn_shows_question_and_answers_witness :
  map Chat.content
    (Chat.visibleMessages (Some (Chat.stored_turn "conv-0" "Weather in Paris?"
                                   Stub.weather_output)))
  = "Weather in Paris?"
      :: map content (filter (has_role assistant) Stub.weather_output).
Proof.
  exact (proj1 (fetched_turn_shows_question_and_answers Stub.both_keys
                  Stub.weather_history Stub.weather_world Stub.weather_output
                  "conv-0" "Weather in Paris?"
                  (Chat.stored_turn "conv-0" "Weather in Paris?"
                     Stub.weather_output)
                  ltac:(vm_compute; reflexivity)
                  ltac:(vm_compute; reflexivity))).
Defined.

End Extras.
